(** * go-wfs / jivan: request handling core

    A shallow embedding of the WFS3 request handlers ([server/handlers.go])
    and of the content builders of package [wfs3] ([feature_data.go],
    [collection_meta_data.go], [conformance.go]), with the properties of
    the specification that concern pagination, links, fingerprints (ETag),
    content negotiation and conditional responses.

    Go's [uint]/[uint64] are modelled as [Z] with the wrap-around modulo
    2^64 written out; maps ([url.Values], [http.Header], the property
    filters) as stdpp's [gmap]; the [http.ResponseWriter] as an explicit
    recorder threaded through a small state monad with early return. *)

From Stdlib Require Import ZArith Ascii String List Lia.
From stdpp Require Import gmap strings list fin_maps.

Local Open Scope string_scope.
Local Open Scope Z_scope.

(** ** Machine integers *)

Module Uint.

Definition modulus : Z := 2 ^ 64.
Definition max_int : Z := 2 ^ 63 - 1.

(** Conversion to [uint]/[uint64]: the value modulo 2^64. *)
Definition wrap (x : Z) : Z := x mod modulus.

Definition add (x y : Z) : Z := wrap (x + y).
Definition sub (x y : Z) : Z := wrap (x - y).
Definition mul (x y : Z) : Z := wrap (x * y).

Definition in_range (x : Z) : Prop := 0 <= x < modulus.

End Uint.

(** ** Strings and formatting *)

Module Str.

Definition byte_of (c : ascii) : Z := Z.of_N (N_of_ascii c).

Fixpoint bytes (s : string) : list Z :=
  match s with
  | EmptyString => []
  | String c s' => byte_of c :: bytes s'
  end.

Definition is_digit (c : ascii) : bool :=
  (48 <=? byte_of c) && (byte_of c <=? 57).

Definition digit_char (d : Z) : ascii := ascii_of_N (Z.to_N (48 + d)).

Definition hex_char (upper : bool) (d : Z) : ascii :=
  if d <? 10 then digit_char d
  else ascii_of_N (Z.to_N ((if upper then 55 else 87) + d)).

(** Digits of [n] in the given base, most significant first; [fuel]
    bounds the number of digits (20 suffice for 64 bits in base 10). *)
Fixpoint digits (fuel : nat) (base : Z) (render : Z -> ascii) (n : Z) (acc : string) : string :=
  match fuel with
  | O => acc
  | S fuel' =>
      let acc' := String (render (n mod base)) acc in
      if n / base =? 0 then acc' else digits fuel' base render (n / base) acc'
  end.

(** [fmt.Sprintf("%v", n)] for an unsigned 64-bit integer. *)
Definition decimal (n : Z) : string := digits 20 10 digit_char n "".

(** [fmt.Sprintf("%x", n)] for an unsigned 64-bit integer. *)
Definition hex (n : Z) : string := digits 16 16 (hex_char false) n "".

(** [strings.Split(s, sep)] for a one-byte separator: the pieces between
    the separators, of which there is always at least one. *)
Fixpoint Split (s : string) (sep : ascii) : list string :=
  match s with
  | EmptyString => [""]
  | String c s' =>
      if Ascii.eqb c sep then "" :: Split s' sep
      else match Split s' sep with
           | h :: t => String c h :: t
           | [] => [String c ""]
           end
  end.

(** [strings.Cut(s, sep)]: the part of [s] before the first [sep], and
    the part after it when there is one. *)
Fixpoint Cut (s : string) (sep : ascii) : string * option string :=
  match s with
  | EmptyString => ("", None)
  | String c s' =>
      if Ascii.eqb c sep then ("", Some s')
      else let '(before, after) := Cut s' sep in (String c before, after)
  end.

Fixpoint join (sep : string) (l : list string) : string :=
  match l with
  | [] => ""
  | [x] => x
  | x :: l' => x +:+ sep +:+ join sep l'
  end.

End Str.

(** ** hash/fnv: the 64-bit FNV-1 hash *)

Module fnv.

Definition offset64 : Z := 14695981039346656037.
Definition prime64 : Z := 1099511628211.

(** [hasher.Write(data)] on the running sum: multiply, then xor the byte. *)
Definition Write (h : Z) (data : list Z) : Z :=
  fold_left (fun acc b => Z.lxor (Uint.mul acc prime64) b) data h.

Definition New64 : Z := offset64.

Definition Sum64 (h : Z) : Z := h.

End fnv.

(** The content identifier used by every builder of package [wfs3]:
    [fnv.New64()], one [Write] of the bytes, and the sum printed with
    ["%x"]. *)
Definition contentIdOf (s : string) : string :=
  Str.hex (fnv.Sum64 (fnv.Write fnv.New64 (Str.bytes s))).

(** ** net/url: the part of the library the handlers use

    A URL is kept as the text before its query ([Prefix]: scheme, authority
    and path, as written), the raw query and the fragment. [Parse] rejects
    control bytes, as the library does; the library's checks of the
    authority and of the path escapes are not modelled. *)

Module url.

Record URL := mkURL {
  Prefix : string;
  ForceQuery : bool;
  RawQuery : string;
  Fragment : string
}.

Definition is_ctl (c : ascii) : bool :=
  (Str.byte_of c <? 32) || (Str.byte_of c =? 127).

Fixpoint stringContainsCTLByte (s : string) : bool :=
  match s with
  | EmptyString => false
  | String c s' => is_ctl c || stringContainsCTLByte s'
  end.

Fixpoint count (s : string) (sep : ascii) : nat :=
  match s with
  | EmptyString => O
  | String c s' => (if Ascii.eqb c sep then 1 else 0)%nat + count s' sep
  end.

Fixpoint last_is (s : string) (sep : ascii) : bool :=
  match s with
  | EmptyString => false
  | String c EmptyString => Ascii.eqb c sep
  | String _ s' => last_is s' sep
  end.

Fixpoint drop_last (s : string) : string :=
  match s with
  | EmptyString => ""
  | String c EmptyString => ""
  | String c s' => String c (drop_last s')
  end.

(** [url.Parse]: cut the fragment at the first '#', reject control
    bytes, then cut the query at the first '?' (a lone trailing '?'
    sets [ForceQuery]). *)
Definition Parse (rawURL : string) : option URL :=
  let '(u, frag) := Str.Cut rawURL "#" in
  if stringContainsCTLByte u then None
  else
    let frag := default "" frag in
    if last_is u "?" && Nat.eqb (count u "?") 1
    then Some (mkURL (drop_last u) true "" frag)
    else let '(rest, rawq) := Str.Cut u "?" in
         Some (mkURL rest false (default "" rawq) frag).

(** [url.Values] *)
Abbreviation Values := (gmap string (list string)).

(** [v[key]]: the nil slice when the key is absent. *)
Definition get (v : Values) (key : string) : list string := default [] (v !! key).

Definition unhex (c : ascii) : option Z :=
  let b := Str.byte_of c in
  if (48 <=? b) && (b <=? 57) then Some (b - 48)
  else if (97 <=? b) && (b <=? 102) then Some (b - 97 + 10)
  else if (65 <=? b) && (b <=? 70) then Some (b - 65 + 10)
  else None.

(** [url.QueryUnescape] *)
Fixpoint QueryUnescape (s : string) : option string :=
  match s with
  | EmptyString => Some ""
  | String c s' =>
      if Ascii.eqb c "%" then
        match s' with
        | String h (String l s'') =>
            match unhex h, unhex l, QueryUnescape s'' with
            | Some a, Some b, Some r => Some (String (ascii_of_N (Z.to_N (16 * a + b))) r)
            | _, _, _ => None
            end
        | _ => None
        end
      else if Ascii.eqb c "+" then String " " <$> QueryUnescape s'
      else String c <$> QueryUnescape s'
  end.

(** One [key=value] piece of a query, as the loop of [url.ParseQuery]
    treats it: empty pieces and pieces with a semicolon or a bad escape
    are dropped. *)
Definition parsePair (piece : string) : option (string * string) :=
  if String.eqb piece "" then None
  else if Nat.ltb 0 (count piece ";") then None
  else
    let '(k, v) := Str.Cut piece "=" in
    match QueryUnescape k, QueryUnescape (default "" v) with
    | Some k', Some v' => Some (k', v')
    | _, _ => None
    end.

(** [url.ParseQuery], errors ignored as [URL.Query] does. *)
Definition ParseQuery (query : string) : Values :=
  fold_left
    (fun m piece =>
       match parsePair piece with
       | Some (k, v) => <[k := (get m k ++ [v])%list]> m
       | None => m
       end)
    (Str.Split query "&") ∅.

Definition Query (u : URL) : Values := ParseQuery (RawQuery u).

Definition unreserved (c : ascii) : bool :=
  let b := Str.byte_of c in
  ((97 <=? b) && (b <=? 122)) || ((65 <=? b) && (b <=? 90)) ||
  ((48 <=? b) && (b <=? 57)) ||
  (b =? 45) || (b =? 95) || (b =? 46) || (b =? 126).

(** [url.QueryEscape] *)
Fixpoint QueryEscape (s : string) : string :=
  match s with
  | EmptyString => ""
  | String c s' =>
      if unreserved c then String c (QueryEscape s')
      else if Ascii.eqb c " " then String "+" (QueryEscape s')
      else
        let b := Str.byte_of c in
        String "%" (String (Str.hex_char true (b / 16))
                      (String (Str.hex_char true (b mod 16)) (QueryEscape s')))
  end.

Fixpoint insert_sorted (kv : string * list string) (l : list (string * list string))
  : list (string * list string) :=
  match l with
  | [] => [kv]
  | kv' :: l' =>
      if String.leb (fst kv) (fst kv') then kv :: l
      else kv' :: insert_sorted kv l'
  end.

Definition sorted_pairs (v : Values) : list (string * list string) :=
  foldr insert_sorted [] (map_to_list v).

(** [Values.Encode]: [key=value] pieces, keys sorted, joined by '&'. *)
Definition Encode (v : Values) : string :=
  Str.join "&"
    (concat (map (fun kv : string * list string =>
                    map (fun x => QueryEscape (fst kv) +:+ "=" +:+ QueryEscape x) (snd kv))
                 (sorted_pairs v))).

Definition withRawQuery (u : URL) (q : string) : URL :=
  mkURL (Prefix u) (ForceQuery u) q (Fragment u).

(** [URL.String] *)
Definition String_ (u : URL) : string :=
  Prefix u
  +:+ (if ForceQuery u || negb (String.eqb (RawQuery u) "") then "?" +:+ RawQuery u else "")
  +:+ (if negb (String.eqb (Fragment u) "") then "#" +:+ Fragment u else "").

End url.

(** ** strconv *)

Module strconv.

Inductive NumError := ErrSyntax | ErrRange.

Definition quote : string := String (ascii_of_nat 34) "".

(** The text of a [*strconv.NumError]; the escaping that [strconv.Quote]
    applies to unusual bytes of the input is left out. *)
Definition NumError_Error (fn num : string) (e : NumError) : string :=
  "strconv." +:+ fn +:+ ": parsing " +:+ quote +:+ num +:+ quote +:+ ": "
  +:+ match e with
      | ErrSyntax => "invalid syntax"
      | ErrRange => "value out of range"
      end.

Definition digit_val (c : ascii) : Z := Str.byte_of c - 48.

(** The digit loop of [ParseUint(s, 10, 64)]: a byte that is no digit is
    a syntax error, a value of 2^64 or more a range error, whichever
    comes first. *)
Fixpoint parse_digits (bound : Z) (s : string) (n : Z) : NumError + Z :=
  match s with
  | EmptyString => inr n
  | String c s' =>
      if Str.is_digit c then
        let n1 := n * 10 + digit_val c in
        if bound <=? n1 then inl ErrRange else parse_digits bound s' n1
      else inl ErrSyntax
  end.

Definition ParseUint (s : string) : NumError + Z :=
  if String.eqb s "" then inl ErrSyntax
  else parse_digits Uint.modulus s 0.

(** [strconv.Atoi]: the value and the error; the value is 0 after a
    syntax error and the nearest bound after a range error. *)
Definition Atoi (s : string) : Z * option NumError :=
  let '(neg, body) :=
    match s with
    | String "-" s' => (true, s')
    | String "+" s' => (false, s')
    | _ => (false, s)
    end in
  if String.eqb body "" then (0, Some ErrSyntax)
  else
    let bound := if neg then Uint.max_int + 2 else Uint.max_int + 1 in
    match parse_digits bound body 0 with
    | inr n => (if neg then - n else n, None)
    | inl ErrSyntax => (0, Some ErrSyntax)
    | inl ErrRange => (if neg then - Uint.max_int - 1 else Uint.max_int, Some ErrRange)
    end.

End strconv.

(** ** Data model of package wfs3 *)

Record Link := mkLink {
  Href : string;
  Rel : string;
  Type_ : string
}.

(** [data_provider.Feature]: a feature as the provider hands it out. *)
Record ProviderFeature (G V : Type) := mkProviderFeature {
  pf_ID : Z;
  pf_Geometry : G;
  pf_Properties : gmap string V
}.
Arguments mkProviderFeature {G V}.
Arguments pf_ID {G V}.
Arguments pf_Geometry {G V}.
Arguments pf_Properties {G V}.

(** [geojson.Feature] *)
Record GeoJSONFeature (G V : Type) := mkGeoJSONFeature {
  ID : Z;
  Geometry_ : G;
  Properties : gmap string V
}.
Arguments mkGeoJSONFeature {G V}.
Arguments ID {G V}.
Arguments Geometry_ {G V}.
Arguments Properties {G V}.

(** [wfs3.Feature]: a [geojson.Feature] with links. *)
Record Feature (G V : Type) := mkFeature {
  Feature_Feature : GeoJSONFeature G V;
  Feature_Links : list Link
}.
Arguments mkFeature {G V}.
Arguments Feature_Feature {G V}.
Arguments Feature_Links {G V}.

(** [wfs3.FeatureCollection]: a [geojson.FeatureCollection] with links
    and the two counters. *)
Record FeatureCollection (G V : Type) := mkFeatureCollection {
  Features : list (GeoJSONFeature G V);
  FeatureCollection_Links : list Link;
  NumberMatched : Z;
  NumberReturned : Z
}.
Arguments mkFeatureCollection {G V}.
Arguments Features {G V}.
Arguments FeatureCollection_Links {G V}.
Arguments NumberMatched {G V}.
Arguments NumberReturned {G V}.

Record CollectionInfo := mkCollectionInfo {
  Name : string;
  Title : string;
  CollectionInfo_Links : list Link
}.

Record CollectionsInfo := mkCollectionsInfo {
  CollectionsInfo_Links : list Link;
  Collections : list CollectionInfo
}.

Record ConformanceClasses := mkConformanceClasses {
  ConformsTo : list string
}.

Record RootContent := mkRootContent {
  RootContent_Links : list Link
}.

(** The six resource envelopes a handler serialises. *)
Inductive Envelope (G V : Type) :=
  | EnvRoot (c : RootContent)
  | EnvConformance (c : ConformanceClasses)
  | EnvCollections (c : CollectionsInfo)
  | EnvCollection (c : CollectionInfo)
  | EnvFeature (c : Feature G V)
  | EnvFeatureCollection (c : FeatureCollection G V).
Arguments EnvRoot {G V}.
Arguments EnvConformance {G V}.
Arguments EnvCollections {G V}.
Arguments EnvCollection {G V}.
Arguments EnvFeature {G V}.
Arguments EnvFeatureCollection {G V}.

(** A byte slice written to the response, kept as what it encodes. *)
Inductive Encoded (G V : Type) :=
  | NilBytes
  | JSONOf (e : Envelope G V)
  | HTMLOf (e : Envelope G V)
  | ErrorJSON (code description : string)
  | RawBytes (b : string).
Arguments NilBytes {G V}.
Arguments JSONOf {G V}.
Arguments HTMLOf {G V}.
Arguments ErrorJSON {G V}.
Arguments RawBytes {G V}.

(** Go's [error] values the handlers tell apart: the provider's
    [*data_provider.BadTimeString] and every other error. *)
Inductive error :=
  | BadTimeString (msg : string)
  | errorString (msg : string).

Definition Error (e : error) : string :=
  match e with
  | BadTimeString msg => msg
  | errorString msg => msg
  end.

Inductive JSONSchema := FeatureJSONSchema | FeatureCollectionJSONSchema.

(** ** net/http: request and response recorder *)

Record Request := mkRequest {
  Method : string;
  Header : gmap string string;
  URL : url.URL;
  (** the [httprouter] parameters of the matched route *)
  Params : gmap string string;
  (** [r.Context().Value("overrideContent")], a hook of the tests *)
  overrideContent : option string
}.

(** [Header.Get]: the empty string when the header is absent. *)
Definition Header_Get (h : gmap string string) (key : string) : string :=
  default "" (h !! key).

(** [Params.ByName]: the empty string when the parameter is absent. *)
Definition ByName (ps : gmap string string) (name : string) : string :=
  default "" (ps !! name).

(** The state of an [http.ResponseWriter], in the manner of
    [httptest.ResponseRecorder]: the first [WriteHeader] fixes the status
    and the headers that are sent; later header changes and later
    [WriteHeader] calls do not reach the client. *)
Record ResponseRecorder (G V : Type) := mkRecorder {
  wroteHeader : bool;
  Code : Z;
  HeaderMap : gmap string string;
  sentHeader : gmap string string;
  Body : list (Encoded G V)
}.
Arguments mkRecorder {G V}.
Arguments wroteHeader {G V}.
Arguments Code {G V}.
Arguments HeaderMap {G V}.
Arguments sentHeader {G V}.
Arguments Body {G V}.

Definition NewRecorder {G V : Type} : ResponseRecorder G V :=
  mkRecorder false 200 ∅ ∅ [].

(** ** The environment of the handlers

    What the handlers read and call but this development does not define:
    the configuration, the data provider, [serveSchemeHostPortBase] of
    [server.go], the parts of package [wfs3] outside the modelled files,
    and the encoders and validators. *)
Record Env := mkEnv {
  Geometry : Type;
  Value : Type;
  float64 : Type;
  (** [strconv.ParseFloat(p, 64)], [None] for an error *)
  ParseFloat : string -> option float64;
  (** [config.Configuration.Server.MaxLimit] *)
  MaxLimit : Z;
  (** [config.Configuration.Server.DefaultMimeType] *)
  DefaultMimeType : string;
  (** [Provider.CollectionNames()] *)
  CollectionNames : error + list string;
  (** [Provider.CollectionFeatures(cName, properties, bbox)] *)
  CollectionFeatures :
    string -> gmap string string -> option (list float64) ->
    error + list (ProviderFeature Geometry Value);
  (** [Provider.GetFeatures(ids)], an id being a collection name and a key *)
  GetFeatures : list (string * Z) -> error + list (ProviderFeature Geometry Value);
  (** [serveSchemeHostPortBase(r)] *)
  serveSchemeHostPortBase : Request -> string;
  (** [wfs3.Root(checkOnly)] *)
  Root : bool -> RootContent * string;
  (** [wfs3.OpenAPI3SchemaEncoded(ct)]: the document and its identifier *)
  OpenAPI3SchemaEncoded : string -> string * string;
  (** the error of [json.Marshal(e)], if any *)
  json_Marshal_error : Envelope Geometry Value -> option error;
  (** the error of [e.MarshalHTML(config.Configuration)], if any *)
  MarshalHTML_error : Envelope Geometry Value -> option error;
  (** [wfs3.ValidateJSONResponse(r, path, status, header, body)] *)
  ValidateJSONResponse :
    Request -> string -> Z -> gmap string string -> Encoded Geometry Value -> option error;
  (** [wfs3.ValidateJSONResponseAgainstJSONSchema(content, schema)] *)
  ValidateJSONResponseAgainstJSONSchema :
    Encoded Geometry Value -> JSONSchema -> option error;
  (** the method [ContentType(ct)] of [CollectionInfo] and of [CollectionsInfo] *)
  CollectionInfo_ContentType : string -> CollectionInfo -> CollectionInfo;
  CollectionsInfo_ContentType : string -> CollectionsInfo -> CollectionsInfo
}.

(** ** Package config

    Modelled from the spec: the constants of package [config], which is
    not among the sources. The specification's supported formats are JSON
    and HTML; the values and the order are the ones the handler tests
    compare against. *)
Definition JSONContentType : string := "application/json".
Definition HTMLContentType : string := "text/html".
Definition SupportedContentTypes : list string := [JSONContentType; HTMLContentType].

(** ** Package wfs3: content builders *)

Section Builders.

Variable E : Env.

Let G := Geometry E.
Let V := Value E.

Definition toGeoJSON (pf : ProviderFeature G V) : GeoJSONFeature G V :=
  mkGeoJSONFeature (pf_ID pf) (pf_Geometry pf) (pf_Properties pf).

(** [FeatureData(cname, fid, p, checkOnly)]: content, contentId, err. *)
Definition FeatureData (cname : string) (fid : Z) (checkOnly : bool)
  : option (Feature G V) * string * option error :=
  let contentId := contentIdOf (cname +:+ Str.decimal fid) in
  if checkOnly then (None, contentId, None)
  else
    match GetFeatures E [(cname, fid)] with
    | inl err => (None, "", Some err)
    | inr pfs =>
        match pfs with
        | [pf] => (Some (mkFeature (toGeoJSON pf) []), contentId, None)
        | _ =>
            (None, "",
             Some (errorString ("Invalid collection/fid: " +:+ cname +:+ "/" +:+ Str.decimal fid)))
        end
    end.

(** The slice expression [cfs[startIdx:stopIdx]], used under its bounds
    check [startIdx <= stopIdx <= len(cfs)]. *)
Definition slice {A : Type} (l : list A) (startIdx stopIdx : Z) : list A :=
  take (Z.to_nat (stopIdx - startIdx)) (drop (Z.to_nat startIdx) l).

(** [FeatureCollectionData(cName, bbox, startIdx, stopIdx, properties, p,
    checkOnly)]: content, featureTotal, contentId, err. *)
Definition FeatureCollectionData (cName : string) (bbox : option (list (float64 E)))
    (startIdx stopIdx : Z) (properties : gmap string string) (checkOnly : bool)
  : option (FeatureCollection G V) * Z * string * option error :=
  let contentId := contentIdOf cName in
  if checkOnly then (None, 0, contentId, None)
  else
    match CollectionFeatures E cName properties bbox with
    | inl err => (None, 0, "", Some err)
    | inr cfs =>
        let featureTotal := Uint.wrap (Z.of_nat (length cfs)) in
        let originalStopIdx := stopIdx in
        let stopIdx := if featureTotal <? stopIdx then featureTotal else stopIdx in
        if (featureTotal <=? startIdx) || (stopIdx <? startIdx) then
          (None, featureTotal, "",
           Some (errorString
                   ("Invalid start/stop indices [" +:+ Str.decimal startIdx +:+ ", "
                    +:+ Str.decimal originalStopIdx +:+ "] for collection of length "
                    +:+ Str.decimal featureTotal)))
        else
          let gfs := map toGeoJSON (slice cfs startIdx stopIdx) in
          (Some (mkFeatureCollection gfs [] 0 0), featureTotal, contentId, None)
    end.

(** [CollectionsMetaData(p, serveAddress, checkOnly)] *)
Definition CollectionsMetaData (serveAddress : string) (checkOnly : bool)
  : option CollectionsInfo * string * option error :=
  let contentId := contentIdOf serveAddress in
  if checkOnly then (None, contentId, None)
  else
    match CollectionNames E with
    | inl err => (None, "", Some err)
    | inr cNames =>
        let step (csInfo : CollectionsInfo) (cn : string) : CollectionsInfo :=
          let collectionUrl := serveAddress +:+ "/collections/" +:+ cn in
          let cInfo := mkCollectionInfo cn "" [mkLink collectionUrl "self" ""] in
          let cLink := mkLink collectionUrl "item" "" in
          let collectionUrlHtml := serveAddress +:+ "/collections/" +:+ cn +:+ "?f=text/html" in
          let cLinkHtml := mkLink collectionUrlHtml "item" "text/html" in
          mkCollectionsInfo
            (CollectionsInfo_Links csInfo ++ [cLink] ++ [cLinkHtml])%list
            (Collections csInfo ++ [cInfo])%list in
        (Some (fold_left step cNames (mkCollectionsInfo [] [])), contentId, None)
    end.

(** [CollectionMetaData(name, p, serveAddress, checkOnly)] *)
Definition CollectionMetaData (name : string) (serveAddress : string) (checkOnly : bool)
  : option CollectionInfo * string * option error :=
  let contentId := contentIdOf (serveAddress +:+ name) in
  if checkOnly then (None, contentId, None)
  else
    match CollectionNames E with
    | inl err => (None, "", Some err)
    | inr cNames =>
        let validName := existsb (String.eqb name) cNames in
        if negb validName then
          (None, "", Some (errorString ("Invalid collection name: " +:+ name)))
        else
          let collectionUrl := serveAddress +:+ "/collections/" +:+ name in
          (Some (mkCollectionInfo name name [mkLink collectionUrl "self" ""]), contentId, None)
    end.

(** [json.Marshal] of a [ConformanceClasses]: one field, [conformsTo],
    holding the array of the class URIs. *)
Definition ConformanceClasses_JSON (c : ConformanceClasses) : string :=
  "{" +:+ strconv.quote +:+ "conformsTo" +:+ strconv.quote +:+ ":["
  +:+ Str.join "," (map (fun u => strconv.quote +:+ u +:+ strconv.quote) (ConformsTo c))
  +:+ "]}".

(** [Conformance()]: content and contentId. *)
Definition Conformance : ConformanceClasses * string :=
  let content :=
    mkConformanceClasses
      ["http://www.opengis.net/spec/wfs-1/3.0/req/core";
       "http://www.opengis.net/spec/wfs-1/3.0/req/geojson"] in
  (content, contentIdOf (ConformanceClasses_JSON content)).

End Builders.

(** ** Package server: the handler monad

    A handler runs against the response recorder and may stop early: by a
    [return] or by a panic. *)

Inductive Flow (A : Type) :=
  | Continue (a : A)
  | Returned
  | Panicked (msg : string).
Arguments Continue {A}.
Arguments Returned {A}.
Arguments Panicked {A}.

Definition Handler (G V A : Type) : Type :=
  ResponseRecorder G V -> Flow A * ResponseRecorder G V.

#[global] Instance Handler_ret {G V : Type} : MRet (Handler G V) :=
  fun A a w => (Continue a, w).

#[global] Instance Handler_bind {G V : Type} : MBind (Handler G V) :=
  fun A B k m w =>
    match m w with
    | (Continue a, w') => k a w'
    | (Returned, w') => (Returned, w')
    | (Panicked msg, w') => (Panicked msg, w')
    end.

(** Go's [return] in the middle of a handler. *)
Definition return_ {G V A : Type} : Handler G V A := fun w => (Returned, w).

Definition panic {G V A : Type} (msg : string) : Handler G V A := fun w => (Panicked msg, w).

Fixpoint mapM {G V A B : Type} (f : A -> Handler G V B) (l : list A) : Handler G V (list B) :=
  match l with
  | [] => mret []
  | x :: l' => y ← f x; ys ← mapM f l'; mret (y :: ys)
  end.

(** The response a client sees when the handler is done. *)
Definition exec {G V A : Type} (m : Handler G V A) : ResponseRecorder G V := snd (m NewRecorder).

(** [w.WriteHeader(status)] *)
Definition WriteHeader {G V : Type} (status : Z) : Handler G V unit :=
  fun w =>
    (Continue tt,
     if wroteHeader w then w
     else mkRecorder true status (HeaderMap w) (HeaderMap w) (Body w)).

(** [w.Write(b)]: sends the header with status 200 first if none was sent. *)
Definition Write {G V : Type} (b : Encoded G V) : Handler G V unit :=
  fun w =>
    let w1 := if wroteHeader w then w
              else mkRecorder true 200 (HeaderMap w) (HeaderMap w) (Body w) in
    (Continue tt,
     mkRecorder (wroteHeader w1) (Code w1) (HeaderMap w1) (sentHeader w1) (Body w1 ++ [b])%list).

(** [w.Header().Set(key, value)] *)
Definition Header_Set {G V : Type} (key value : string) : Handler G V unit :=
  fun w =>
    (Continue tt,
     mkRecorder (wroteHeader w) (Code w) (<[key := value]> (HeaderMap w)) (sentHeader w) (Body w)).

(** [w.Header()] *)
Definition Header_ {G V : Type} : Handler G V (gmap string string) :=
  fun w => (Continue (HeaderMap w), w).

Definition DEFAULT_RESULT_LIMIT : Z := 10.

Definition HTTPStatusOk : Z := 200.
Definition HTTPStatusNotModified : Z := 304.
Definition HTTPStatusServerError : Z := 500.
Definition HTTPStatusClientError : Z := 400.

Definition HTTPMethodHEAD : string := "HEAD".

Definition supportedContentType (ct : string) : bool :=
  let supportedContentTypes := [JSONContentType; HTMLContentType] in
  existsb (String.eqb ct) supportedContentTypes.

(** [contentType(r)]: the Content-Type of the response to this request. *)
Definition contentType (r : Request) : string :=
  let defaultContentType := JSONContentType in
  let useType := "" in
  let ctType := Header_Get (Header r) "Content-Type" in
  let useType := if supportedContentType ctType then ctType else useType in
  let q := url.Query (URL r) in
  let qFormat := url.get q "f" in
  let useType :=
    match qFormat with
    | f0 :: _ => if negb (String.eqb f0 useType) then f0 else useType
    | [] => useType
    end in
  if negb (supportedContentType useType) then defaultContentType else useType.

(** [jsonError(w, code, msg, status)] *)
Definition jsonError {G V : Type} (code msg : string) (status : Z) : Handler G V unit :=
  WriteHeader status;; Write (ErrorJSON code msg).

Definition reservedQParams : list string := ["f"; "page"; "limit"; "time"; "bbox"].

(** [HandlerError]: the body of an error response. *)
Record HandlerError := mkHandlerError {
  Code_ : string;
  Description : string
}.

Section Handlers.

Variable E : Env.

Let G := Geometry E.
Let V := Value E.

(** [json.Marshal(e)]: the bytes (nil on failure) and the error. *)
Definition json_Marshal (e : Envelope G V) : Encoded G V * option error :=
  match json_Marshal_error E e with
  | None => (JSONOf e, None)
  | Some err => (NilBytes, Some err)
  end.

(** [e.MarshalHTML(config.Configuration)] *)
Definition MarshalHTML (e : Envelope G V) : Encoded G V * option error :=
  match MarshalHTML_error E e with
  | None => (HTMLOf e, None)
  | Some err => (NilBytes, Some err)
  end.

(** [ctLink(baselink, contentType)]: a link for the given content type.
    Panics on an unsupported type; gives the empty string when the base
    link does not parse. *)
Definition ctLink (baselink contentType : string) : Handler G V string :=
  if negb (supportedContentType contentType) then
    panic ("unsupported content type: " +:+ contentType)
  else
    match url.Parse baselink with
    | None => mret ""
    | Some u =>
        let q := url.Query u in
        let q := if String.eqb contentType (DefaultMimeType E) then q
                 else <["f" := [contentType]]> q in
        mret (url.String_ (url.withRawQuery u (url.Encode q)))
    end.

(** The alternates of the negotiated type, as the handlers' [switch ct]
    computes them. *)
Definition alternatesOf (ct : string) : list string :=
  if String.eqb ct JSONContentType then [HTMLContentType]
  else if String.eqb ct HTMLContentType then [JSONContentType]
  else [].

(** The block that every handler runs once it has the content
    identifier: the ETag header, and for a HEAD request the status and
    the end of the request. *)
Definition conditional (r : Request) (contentId : string) : Handler G V unit :=
  Header_Set "ETag" contentId;;
  if String.eqb (Method r) HTTPMethodHEAD then
    (if String.eqb (Header_Get (Header r) "ETag") contentId
     then WriteHeader HTTPStatusNotModified
     else WriteHeader HTTPStatusOk);;
    return_
  else mret tt.

(** The block that ends [root], [conformance], [collectionMetaData] and
    [collectionsMetaData]: the Content-Type header, the content override
    of the tests, the schema check of a JSON response, the status and
    the body. *)
Definition sendContent (r : Request) (path ct : string) (encodedContent : Encoded G V)
  : Handler G V unit :=
  Header_Set "Content-Type" ct;;
  let encodedContent :=
    match overrideContent r with Some b => RawBytes b | None => encodedContent end in
  (if String.eqb ct JSONContentType then
     hdr ← Header_;
     match ValidateJSONResponse E r path HTTPStatusOk hdr encodedContent with
     | Some _ =>
         jsonError "NoApplicableCode" "response doesn't match schema" HTTPStatusServerError;;
         return_
     | None => mret tt
     end
   else mret tt);;
  WriteHeader HTTPStatusOk;;
  Write encodedContent.

(** [root(w, r)]: serves the root content. *)
Definition root (r : Request) : Handler G V unit :=
  let ct := contentType r in
  let rPath := "/" in
  let '(rootContent, contentId) := Root E false in
  let sshpb := serveSchemeHostPortBase E r in
  let apiUrl := sshpb +:+ "/api" in
  let conformanceUrl := sshpb +:+ "/conformance" in
  let collectionsUrl := sshpb +:+ "/collections" in
  let rootUrl := sshpb +:+ "/" in
  let alttypes := alternatesOf ct in
  selfHref ← ctLink rootUrl ct;
  let links := [mkLink selfHref "self" ct] in
  alts ← mapM (fun at_ => h ← ctLink rootUrl at_; mret (mkLink h "alternate" at_)) alttypes;
  let links := (links ++ alts)%list in
  apiHref ← ctLink apiUrl ct;
  let links := (links ++ [mkLink apiHref "service" ct])%list in
  conformanceHref ← ctLink conformanceUrl ct;
  let links := (links ++ [mkLink conformanceHref "conformance" ct])%list in
  collectionsHref ← ctLink collectionsUrl ct;
  let links := (links ++ [mkLink collectionsHref "data" ct])%list in
  let rootContent := mkRootContent links in
  conditional r contentId;;
  '(encodedContent, err) ←
    (if String.eqb ct JSONContentType then mret (json_Marshal (EnvRoot rootContent))
     else if String.eqb ct HTMLContentType then mret (MarshalHTML (EnvRoot rootContent))
     else
       jsonError "InvalidParameterValue" ("Content-Type: '" +:+ ct +:+ "' not supported.")
         HTTPStatusServerError;;
       return_);
  match err with
  | Some e => jsonError "NoApplicableCode" (Error e) HTTPStatusServerError;; return_
  | None => mret tt
  end;;
  sendContent r rPath ct encodedContent.

(** [conformance(w, r)] *)
Definition conformance (r : Request) : Handler G V unit :=
  let cPath := "/conformance" in
  let ct := contentType r in
  let '(c, contentId) := Conformance in
  conditional r contentId;;
  '(encodedContent, err) ←
    (if String.eqb ct JSONContentType then mret (json_Marshal (EnvConformance c))
     else if String.eqb ct HTMLContentType then mret (MarshalHTML (EnvConformance c))
     else
       jsonError "InvalidParameterValue" ("Content-Type: ''" +:+ ct +:+ "'' not supported.")
         HTTPStatusServerError;;
       return_);
  match err with
  | Some e =>
      jsonError "NoApplicableCode"
        ("problem marshaling conformance declaration to " +:+ ct +:+ ": " +:+ Error e)
        HTTPStatusServerError;;
      return_
  | None => mret tt
  end;;
  sendContent r cPath ct encodedContent.

(** [openapi(w, r)]: the OpenAPI 3 document, JSON only and not checked
    against a schema. *)
Definition openapi (r : Request) : Handler G V unit :=
  let overrideContent := overrideContent r in
  let ct := contentType r in
  (if negb (String.eqb ct JSONContentType) then
     jsonError "InvalidParameterValue" ("Content-Type: ''" +:+ ct +:+ "'' not supported.")
       HTTPStatusServerError;;
     return_
   else mret tt);;
  let '(encodedContent, contentId) := OpenAPI3SchemaEncoded E ct in
  conditional r contentId;;
  Header_Set "Content-Type" ct;;
  let encodedContent :=
    match overrideContent with Some b => b | None => encodedContent end in
  WriteHeader HTTPStatusOk;;
  Write (RawBytes encodedContent).

(** [collectionMetaData(w, r)]: the metadata of one collection. *)
Definition collectionMetaData (r : Request) : Handler G V unit :=
  let cmdPath := "/collections/{name}" in
  let ct := contentType r in
  let ps := Params r in
  let cName := ByName ps "name" in
  (if String.eqb cName "" then
     jsonError "MissingParameterValue" "No {name} provided" HTTPStatusClientError;;
     return_
   else mret tt);;
  let '(md, contentId, err) := CollectionMetaData E cName (serveSchemeHostPortBase E r) false in
  match err with
  | Some e => jsonError "NoApplicableCode" (Error e) HTTPStatusServerError;; return_
  | None => mret tt
  end;;
  let collectionMdUrlBase := serveSchemeHostPortBase E r +:+ "/collections/" +:+ cName in
  let collectionDataUrlBase :=
    serveSchemeHostPortBase E r +:+ "/collections/" +:+ cName +:+ "/items" in
  altcts ←
    (if String.eqb ct JSONContentType then mret [HTMLContentType]
     else if String.eqb ct HTMLContentType then mret [JSONContentType]
     else
       jsonError "InvalidParamaterValue" ("Content-Type: ''" +:+ ct +:+ "'' not supported.")
         HTTPStatusServerError;;
       mret []);
  selfHref ← ctLink collectionMdUrlBase ct;
  let plinks := [mkLink selfHref "self" ct] in
  alts ← mapM (fun act => h ← ctLink collectionMdUrlBase act; mret (mkLink h "alternate" act))
         altcts;
  let plinks := (plinks ++ alts)%list in
  itemHref ← ctLink collectionDataUrlBase ct;
  let plinks := (plinks ++ [mkLink itemHref "item" ct])%list in
  items ← mapM (fun act => h ← ctLink collectionDataUrlBase act; mret (mkLink h "item" act))
          altcts;
  let plinks := (plinks ++ items)%list in
  md ← match md with
       | Some c => mret (mkCollectionInfo (Name c) (Title c) (plinks ++ CollectionInfo_Links c)%list)
       | None => panic "invalid memory address or nil pointer dereference"
       end;
  conditional r contentId;;
  '(encodedContent, err) ←
    (if String.eqb ct JSONContentType then
       mret (json_Marshal (EnvCollection (CollectionInfo_ContentType E ct md)))
     else if String.eqb ct HTMLContentType then mret (MarshalHTML (EnvCollection md))
     else
       jsonError "InvalidParamaterValue" ("Content-Type: ''" +:+ ct +:+ "'' not supported.")
         HTTPStatusServerError;;
       return_);
  match err with
  | Some e => jsonError "NoApplicableCode" (Error e) HTTPStatusServerError;; return_
  | None => mret tt
  end;;
  sendContent r cmdPath ct encodedContent.

(** One collection of the list, for [collectionsMetaData]: its own links
    extended, and the item links it contributes to the list. *)
Definition collectionEntry (selfHrefBase ct : string) (c : CollectionInfo)
  : Handler G V (CollectionInfo * list Link) :=
  let chref := selfHrefBase +:+ "/" +:+ Name c in
  selfHref ← ctLink chref ct;
  let cLinks := (CollectionInfo_Links c ++ [mkLink selfHref "self" ct])%list in
  itemHref ← ctLink chref ct;
  let ilinks := [mkLink itemHref "item" ct] in
  pairs ← mapM (fun sct =>
                  a ← ctLink chref sct;
                  i ← ctLink chref sct;
                  mret (mkLink a "alternate" sct, mkLink i "item" sct))
               (filter (fun sct => ct ≠ sct) SupportedContentTypes);
  let cLinks := (cLinks ++ map fst pairs)%list in
  let ilinks := (ilinks ++ map snd pairs)%list in
  let ihref := selfHrefBase +:+ "/" +:+ Name c +:+ "/items" in
  items ← mapM (fun sct => h ← ctLink ihref sct; mret (mkLink h "item" sct))
          SupportedContentTypes;
  mret (mkCollectionInfo (Name c) (Title c) (cLinks ++ items)%list, ilinks).

(** [collectionsMetaData(w, r)]: the list of the collections. *)
Definition collectionsMetaData (r : Request) : Handler G V unit :=
  let cmdPath := "/collections" in
  let ct := contentType r in
  let '(md, contentId, err) := CollectionsMetaData E (serveSchemeHostPortBase E r) false in
  match err with
  | Some e => jsonError "NoApplicableCode" (Error e) HTTPStatusServerError;; return_
  | None => mret tt
  end;;
  conditional r contentId;;
  md ← match md with
       | Some c => mret (CollectionsInfo_ContentType E ct c)
       | None => panic "invalid memory address or nil pointer dereference"
       end;
  let selfHrefBase := serveSchemeHostPortBase E r +:+ cmdPath in
  selfHref ← ctLink selfHrefBase ct;
  let selfLink := mkLink selfHref "self" ct in
  altLinks ← mapM (fun sct => h ← ctLink selfHrefBase sct; mret (mkLink h "alternate" sct))
             (filter (fun sct => ct ≠ sct) SupportedContentTypes);
  entries ← mapM (collectionEntry selfHrefBase ct) (Collections md);
  let ilinks := concat (map snd entries) in
  let links := ([selfLink] ++ altLinks ++ CollectionsInfo_Links md ++ ilinks)%list in
  let md := mkCollectionsInfo links (map fst entries) in
  '(encodedContent, err) ←
    (if String.eqb ct JSONContentType then mret (json_Marshal (EnvCollections md))
     else if String.eqb ct HTMLContentType then mret (MarshalHTML (EnvCollections md))
     else
       jsonError "InvalidParameterValue" ("Content-Type: ''" +:+ ct +:+ "'' not supported.")
         HTTPStatusServerError;;
       return_);
  match err with
  | Some e => jsonError "NoApplicableCode" (Error e) HTTPStatusServerError;; return_
  | None => mret tt
  end;;
  sendContent r cmdPath ct encodedContent.

(** *** [collectionData]

    The handler is given block by block, in the order of the source:
    the feature id of the route, the query parameters, the data, the
    ETag and HEAD block, the links and the encoding, the response. *)

(** The feature id: a malformed one is reported, and the handler goes on
    with the number [Atoi] left. *)
Definition featureIdParam (fidStr : string) : Handler G V Z :=
  if negb (String.eqb fidStr "") then
    let '(cid, err) := strconv.Atoi fidStr in
    match err with
    | Some _ =>
        jsonError "InvalidParameterValue" ("Invalid feature_id: " +:+ fidStr)
          HTTPStatusClientError
    | None => mret tt
    end;;
    mret (Uint.wrap cid)
  else mret 0.

(** Each block that reads a query parameter either yields its value or
    ends the request with a client error; the blocks are functions to a
    value or the error body, and [orReturn] is the [jsonError(...);
    return] of the failing branch. *)
Definition orReturn {A : Type} (x : HandlerError + A) : Handler G V A :=
  match x with
  | inl e => jsonError (Code_ e) (Description e) HTTPStatusClientError;; return_
  | inr a => mret a
  end.

(** The [limit] block: the default unless the parameter occurs exactly
    once, and then at most the configured maximum. *)
Definition limitParam (q : url.Values) : HandlerError + Z :=
  let qPageSize := url.get q "limit" in
  match qPageSize with
  | [s] =>
      match strconv.ParseUint s with
      | inl e => inl (mkHandlerError "NoApplicableCode" (strconv.NumError_Error "ParseUint" s e))
      | inr ps =>
          let maxLimit := Uint.wrap (MaxLimit E) in
          inr (if maxLimit <? ps then maxLimit else ps)
      end
  | _ => inr DEFAULT_RESULT_LIMIT
  end.

(** The [page] block. *)
Definition pageParam (q : url.Values) : HandlerError + Z :=
  let qPageNum := url.get q "page" in
  match qPageNum with
  | [s] =>
      match strconv.ParseUint s with
      | inl e => inl (mkHandlerError "NoApplicableCode" (strconv.NumError_Error "ParseUint" s e))
      | inr pn => inr pn
      end
  | _ => inr 0
  end.

(** The loop over the four items of a bounding box, [i] counting from 0. *)
Fixpoint bboxItems (raw : string) (i : Z) (items : list string)
  : HandlerError + list (float64 E) :=
  match items with
  | [] => inr []
  | p :: items' =>
      match ParseFloat E p with
      | None =>
          inl (mkHandlerError "InvalidParameterValue"
                 ("'bbox' parameter has invalid format for item " +:+ Str.decimal (i + 1)
                  +:+ "/4: '" +:+ p +:+ "' / '" +:+ raw +:+ "'"))
      | Some x =>
          match bboxItems raw (i + 1) items' with
          | inl e => inl e
          | inr xs => inr (x :: xs)
          end
      end
  end.

(** The [bbox] block. *)
Definition bboxParam (q : url.Values) : HandlerError + option (list (float64 E)) :=
  let qBBox := url.get q "bbox" in
  match qBBox with
  | [] => inr None
  | [b] =>
      let bbox_items := Str.Split b "," in
      if negb (Nat.eqb (length bbox_items) 4) then
        inl (mkHandlerError "InvalidParameterValue"
               ("'bbox' parameter has " +:+ Str.decimal (Z.of_nat (length bbox_items))
                +:+ " items, expecting 4: '" +:+ b +:+ "'"))
      else
        match bboxItems b 0 bbox_items with
        | inl e => inl e
        | inr xs => inr (Some xs)
        end
  | _ =>
      inl (mkHandlerError "InvalidParameterValue" "'bbox' parameter provided more than once")
  end.

(** The [time] block: the time properties, empty without the parameter. *)
Definition timeParam (q : url.Values) : HandlerError + gmap string string :=
  let qTime := url.get q "time" in
  match qTime with
  | [] => inr ∅
  | [t] =>
      match Str.Split t "/" with
      | [ts0] => inr {[ "timestamp" := ts0 ]}
      | [ts0; ts1] => inr (<["stop_time" := ts1]> {[ "start_time" := ts0 ]})
      | _ =>
          inl (mkHandlerError "InvalidParameterValue"
                 "'time' parameter contains more than two time values ('/' separator)")
      end
  | _ =>
      inl (mkHandlerError "InvalidParameterValue" "'time' parameter provided more than once'")
  end.

(** The property filters: the first value of every query parameter that
    is not reserved, then the time properties on top. *)
Definition propertyFilters (q : url.Values) (timeprops : gmap string string)
  : gmap string string :=
  let properties : gmap string string :=
    (fun v : list string => default "" (head v))
      <$> filter (fun kv : string * list string => kv.1 ∉ reservedQParams) q in
  timeprops ∪ properties.

(** The query parameters, in the order the handler reads them: the
    limit, the page, the bounding box and the property filters. *)
Definition queryParams (q : url.Values)
  : Handler G V (Z * Z * option (list (float64 E)) * gmap string string) :=
  limit ← orReturn (limitParam q);
  pageNum ← orReturn (pageParam q);
  bbox ← orReturn (bboxParam q);
  timeprops ← orReturn (timeParam q);
  mret (limit, pageNum, bbox, propertyFilters q timeprops).

(** The data: one feature when the route has a feature id, otherwise
    the window [[limit * page, limit * page + limit)] of the collection;
    an error of the provider or of the window ends the request. The
    result is the content, the total, the content identifier and the
    schema. *)
Definition fetchData (cName fidStr : string) (fid limit pageNum : Z)
    (bbox : option (list (float64 E))) (properties : gmap string string)
  : Handler G V (option (Envelope G V) * Z * string * JSONSchema) :=
  let '(data, featureTotal, contentId, err, jsonSchema) :=
    if negb (String.eqb fidStr "") then
      let '(d, contentId, err) := FeatureData E cName fid false in
      (EnvFeature <$> d, 0, contentId, err, FeatureJSONSchema)
    else
      let startIdx := Uint.mul limit pageNum in
      let stopIdx := Uint.add startIdx limit in
      let '(d, featureTotal, contentId, err) :=
        FeatureCollectionData E cName bbox startIdx stopIdx properties false in
      (EnvFeatureCollection <$> d, featureTotal, contentId, err, FeatureCollectionJSONSchema) in
  match err with
  | Some e =>
      let '(msg, sc) :=
        match e with
        | BadTimeString _ => (Error e, HTTPStatusClientError)
        | _ => ("Problem collecting feature data: " +:+ Error e, HTTPStatusServerError)
        end in
      jsonError "InvalidParameterValue" msg sc;;
      return_
  | None => mret (data, featureTotal, contentId, jsonSchema)
  end.

(** The case of a feature: a link per supported content type, the link
    to the collection, and the encoding. *)
Definition featureContent (r : Request) (ct cName : string) (fid : Z) (d : Feature G V)
  : Handler G V (Encoded G V * option error) :=
  let shref := serveSchemeHostPortBase E r +:+ "/collections/" +:+ cName
               +:+ "/items/" +:+ Str.decimal fid in
  links ← mapM (fun sct =>
                  let rel := if String.eqb sct ct then "self" else "alternate" in
                  h ← ctLink shref sct;
                  mret (mkLink h rel sct))
               SupportedContentTypes;
  let chref := serveSchemeHostPortBase E r +:+ "/collections/" +:+ cName in
  collectionHref ← ctLink chref ct;
  let d := mkFeature (Feature_Feature d)
             (Feature_Links d ++ links ++ [mkLink collectionHref "collection" ct])%list in
  if String.eqb ct JSONContentType then mret (json_Marshal (EnvFeature d))
  else if String.eqb ct HTMLContentType then mret (MarshalHTML (EnvFeature d))
  else
    jsonError "InvalidParameterValue" ("Content-Type: ''" +:+ ct +:+ "'' not supported.")
      HTTPStatusServerError;;
    return_.

(** The link to one page of a collection's items, before it is parsed
    and re-encoded. *)
Definition pageUrl (sshpb cName : string) (pageNum limit : Z) : string :=
  sshpb +:+ "/collections/" +:+ cName +:+ "/items?page=" +:+ Str.decimal pageNum
  +:+ "&limit=" +:+ Str.decimal limit.

(** The case of a feature collection: the self, alternate, previous and
    next links, the two counters, and the encoding. *)
Definition featureCollectionContent (r : Request) (ct cName : string)
    (pageNum limit featureTotal : Z) (d : FeatureCollection G V)
  : Handler G V (Encoded G V * option error) :=
  let altcts := alternatesOf ct in
  let self := pageUrl (serveSchemeHostPortBase E r) cName pageNum limit in
  prev ←
    (if 0 <? pageNum then
       match url.Parse
               (pageUrl (serveSchemeHostPortBase E r) cName (Uint.sub pageNum 1) limit) with
       | None =>
           jsonError "NoApplicableCode" "problem parsing generated 'prev' link" 500;;
           return_
       | Some purl =>
           mret (url.String_ (url.withRawQuery purl (url.Encode (url.Query purl))))
       end
     else mret "");
  next ←
    (if Uint.mul limit (Uint.add pageNum 1) <? featureTotal then
       match url.Parse
               (pageUrl (serveSchemeHostPortBase E r) cName (Uint.add pageNum 1) limit) with
       | None =>
           jsonError "NoApplicableCode" "problem parsing generated 'next' link" 500;;
           return_
       | Some nurl =>
           mret (url.String_ (url.withRawQuery nurl (url.Encode (url.Query nurl))))
       end
     else mret "");
  selfHref ← ctLink self ct;
  let links := (FeatureCollection_Links d ++ [mkLink selfHref "self" ct])%list in
  alts ← mapM (fun act => h ← ctLink self act; mret (mkLink h "alternate" act)) altcts;
  let links := (links ++ alts)%list in
  let links := if negb (String.eqb prev "")
               then (links ++ [mkLink prev "prev" ct])%list else links in
  let links := if negb (String.eqb next "")
               then (links ++ [mkLink next "next" ct])%list else links in
  let d := mkFeatureCollection (Features d) links featureTotal
             (Uint.wrap (Z.of_nat (length (Features d)))) in
  if String.eqb ct JSONContentType then mret (json_Marshal (EnvFeatureCollection d))
  else if String.eqb ct HTMLContentType then mret (MarshalHTML (EnvFeatureCollection d))
  else
    jsonError "InvalidParameterValue" ("Content-Type: ''" +:+ ct +:+ "'' not supported.")
      HTTPStatusServerError;;
    return_.

(** The end of [collectionData]: an encoding error is reported without
    ending the request; then the Content-Type header, the content
    override of the tests, the schema check of a JSON response, the
    status and the body. *)
Definition respond (r : Request) (ct : string) (jsonSchema : JSONSchema)
    (encodedContent : Encoded G V) (err : option error) : Handler G V unit :=
  match err with
  | Some e =>
      jsonError "oApplicableCode" ("Problem marshalling feature data: " +:+ Error e)
        HTTPStatusServerError
  | None => mret tt
  end;;
  Header_Set "Content-Type" ct;;
  let encodedContent :=
    match overrideContent r with Some b => RawBytes b | None => encodedContent end in
  (if String.eqb ct JSONContentType then
     match ValidateJSONResponseAgainstJSONSchema E encodedContent jsonSchema with
     | Some _ =>
         jsonError "NoApplicableCode" "response doesn't match schema" HTTPStatusServerError;;
         return_
     | None => mret tt
     end
   else mret tt);;
  WriteHeader HTTPStatusOk;;
  Write encodedContent.

(** [collectionData(w, r)]: paged access to the features of a collection,
    or one feature when the route carries a feature id. *)
Definition collectionData (r : Request) : Handler G V unit :=
  let ct := contentType r in
  let urlParams := Params r in
  let cName := ByName urlParams "name" in
  let fidStr := ByName urlParams "feature_id" in
  fid ← featureIdParam fidStr;
  let q := url.Query (URL r) in
  '(limit, pageNum, bbox, properties) ← queryParams q;
  '(data, featureTotal, contentId, jsonSchema) ←
    fetchData cName fidStr fid limit pageNum bbox properties;
  conditional r contentId;;
  '(encodedContent, err) ←
    match data with
    | Some (EnvFeature d) => featureContent r ct cName fid d
    | Some (EnvFeatureCollection d) =>
        featureCollectionContent r ct cName pageNum limit featureTotal d
    | _ =>
        jsonError "NoApplicableCode" "Unexpected feature data type: <nil>, <nil>"
          HTTPStatusServerError;;
        return_
    end;
  respond r ct jsonSchema encodedContent err.

End Handlers.

(** ** A test environment

    The data the handler tests run against, cut down: the collection
    [aviation_polygons] with eight features, five of them inside the
    tested bounding box and two of them helipads, and the collection
    [roads_lines] with feature 18. *)

Module Fixture.

Definition feature (id : Z) (aeroway : string) : ProviderFeature unit string :=
  mkProviderFeature id tt {[ "aeroway" := aeroway ]}.

Definition aviation_polygons : list (ProviderFeature unit string) :=
  [feature 1 "aerodrome"; feature 2 "helipad"; feature 3 "apron"; feature 4 "terminal";
   feature 5 "hangar"; feature 6 "helipad"; feature 7 "apron"; feature 8 "terminal"].

Definition road18 : ProviderFeature unit string :=
  mkProviderFeature 18 tt {[ "highway" := "secondary_link" ]}.

Definition numeric (s : string) : bool :=
  negb (String.eqb s "")
  && forallb (fun b => ((48 <=? b) && (b <=? 57)) || (b =? 46) || (b =? 45)) (Str.bytes s).

Definition collectionFeatures (cName : string) (properties : gmap string string)
    (bbox : option (list string)) : error + list (ProviderFeature unit string) :=
  match properties !! "timestamp" with
  | Some "2018-04-12_broken" =>
      inl (BadTimeString "unable to parse time string: '2018-04-12_broken'")
  | _ =>
      if String.eqb cName "aviation_polygons" then
        let inBox := match bbox with Some _ => take 5 aviation_polygons | None => aviation_polygons end in
        inr (match properties !! "aeroway" with
             | Some a => filter (fun pf => pf_Properties pf !! "aeroway" = Some a) inBox
             | None => inBox
             end)
      else if String.eqb cName "roads_lines" then inr [road18]
      else inl (errorString ("no such collection: " +:+ cName))
  end.

Definition getFeatures (ids : list (string * Z)) : error + list (ProviderFeature unit string) :=
  match ids with
  | [(c, k)] => if String.eqb c "roads_lines" && (k =? 18) then inr [road18] else inr []
  | _ => inr []
  end.

Definition env : Env :=
  {| Geometry := unit;
     Value := string;
     float64 := string;
     ParseFloat := fun s => if numeric s then Some s else None;
     MaxLimit := 1000;
     DefaultMimeType := JSONContentType;
     CollectionNames := inr ["aviation_polygons"; "roads_lines"];
     CollectionFeatures := collectionFeatures;
     GetFeatures := getFeatures;
     serveSchemeHostPortBase := fun _ => "http://test.com";
     Root := fun _ => (mkRootContent [], "temp_content_id");
     OpenAPI3SchemaEncoded := fun _ => ("{}", "d8f29989aea96bd9");
     json_Marshal_error := fun _ => None;
     MarshalHTML_error := fun _ => None;
     ValidateJSONResponse := fun _ _ _ _ _ => None;
     ValidateJSONResponseAgainstJSONSchema := fun _ _ => None;
     CollectionInfo_ContentType := fun _ c => c;
     CollectionsInfo_ContentType := fun _ c => c |}.

Definition request (method : string) (headers params : list (string * string))
    (rawQuery : string) : Request :=
  mkRequest method (list_to_map headers) (url.mkURL "http://test.com" false rawQuery "")
    (list_to_map params) None.

Definition items (method rawQuery : string) : Request :=
  request method [] [("name", "aviation_polygons")] rawQuery.

(** The requests of [TestCollectionFeatures] and some more. *)
Definition get_page1 : Request := items "GET" "page=1&limit=3".
Definition get_bbox : Request :=
  items "GET" "page=1&limit=3&bbox=23.73901,37.88372,23.74178,37.88587".
Definition get_helipad : Request := items "GET" "page=0&limit=3&aeroway=helipad".
Definition get_nothing : Request := items "GET" "aeroway=runway".
Definition get_limits : Request := items "GET" "limit=3&limit=oops&page=0".
Definition get_pages : Request := items "GET" "page=1&page=2&limit=3".
Definition head_items : Request := items "HEAD" "".
Definition head_items_match : Request :=
  request "HEAD" [("ETag", "953ff7048ec325ce")] [("name", "aviation_polygons")] "".
Definition get_feature_html : Request :=
  request "GET" [] [("name", "roads_lines"); ("feature_id", "18")] "f=text/html".
Definition get_feature : Request :=
  request "GET" [] [("name", "roads_lines"); ("feature_id", "18")] "".
Definition html_header_bad_f : Request :=
  request "GET" [("Content-Type", "text/html")] [] "f=image/png".
Definition collection_no_name : Request := request "GET" [] [] "".
Definition collection_unknown : Request := request "GET" [] [("name", "rivers")] "".
Definition collection_roads : Request := request "GET" [] [("name", "roads_lines")] "".

End Fixture.


(** ** Vocabulary of the specification *)

(** A parsed link with its query re-encoded, as the handlers do with the
    [prev] and [next] links: [u.RawQuery = u.Query().Encode()], then
    [u.String()]. *)
Definition reencode (u : url.URL) : string :=
  url.String_ (url.withRawQuery u (url.Encode (url.Query u))).

(** What [ctLink] returns when it does not panic. *)
Definition ctHref (E : Env) (baselink contentType : string) : string :=
  match url.Parse baselink with
  | None => ""
  | Some u =>
      let q := url.Query u in
      let q := if String.eqb contentType (DefaultMimeType E) then q
               else <["f" := [contentType]]> q in
      url.String_ (url.withRawQuery u (url.Encode q))
  end.

Definition rels (links : list Link) : list string := map Rel links.

Definition hasRel (rel : string) (links : list Link) : bool :=
  existsb (fun l => String.eqb (Rel l) rel) links.

Definition hrefOf (rel : string) (links : list Link) : option string :=
  Href <$> find (fun l => String.eqb (Rel l) rel) links.

Fixpoint string_forall (P : ascii -> bool) (s : string) : bool :=
  match s with
  | EmptyString => true
  | String c s' => P c && string_forall P s'
  end.

Definition lacks (sep : ascii) (s : string) : bool :=
  string_forall (fun c => negb (Ascii.eqb c sep)) s.

(** The ETag a client receives. *)
Definition sentETag {G V : Type} (w : ResponseRecorder G V) : option string :=
  sentHeader w !! "ETag".

(** The answer to a HEAD request that got as far as the fingerprint: the
    ETag, no body, and a status that tells whether the client's ETag is
    the current one. *)
Definition HeadAnswer {G V : Type} (r : Request) (contentId : string)
    (w : ResponseRecorder G V) : Prop :=
  sentETag w = Some contentId /\ Body w = [] /\
  Code w = if String.eqb (Header_Get (Header r) "ETag") contentId
           then HTTPStatusNotModified else HTTPStatusOk.

(** A request that ended in an error before any fingerprint was sent. *)
Definition ErrorAnswer {G V : Type} (w : ResponseRecorder G V) : Prop :=
  sentETag w = None /\
  (Code w = HTTPStatusClientError \/ Code w = HTTPStatusServerError) /\
  exists code msg rest, Body w = ErrorJSON code msg :: rest.

(** The response body is the encoding of the envelope [e]. *)
Definition Carries {G V : Type} (w : ResponseRecorder G V) (e : Envelope G V) : Prop :=
  Body w = [JSONOf e] \/ Body w = [HTMLOf e].

(** Content negotiation as the specification words it: [f] if present and
    supported, otherwise the Content-Type header if supported, otherwise
    JSON. *)
Definition contentType_as_specified (r : Request) : string :=
  let header := Header_Get (Header r) "Content-Type" in
  let fallback := if supportedContentType header then header else JSONContentType in
  match url.get (url.Query (URL r)) "f" with
  | f0 :: _ => if supportedContentType f0 then f0 else fallback
  | [] => fallback
  end.

(** The out-of-range test of the specification: the window starts at or
    after the end of a non-empty result, or it ends before it starts. *)
Definition outOfRange_as_specified (startIndex stopIndex totalMatched : Z) : bool :=
  ((totalMatched <=? startIndex) && (0 <? totalMatched)) || (stopIndex <? startIndex).

(** The message of the out-of-range error as the client reads it. *)
Definition outOfRangeMessage (startIdx stopIdx featureTotal : Z) : string :=
  "Problem collecting feature data: Invalid start/stop indices [" +:+ Str.decimal startIdx
  +:+ ", " +:+ Str.decimal stopIdx +:+ "] for collection of length "
  +:+ Str.decimal featureTotal.

(** The recorder after [w.Header().Set(key, value)]. *)
Definition withHeader {G V : Type} (w : ResponseRecorder G V) (key value : string)
  : ResponseRecorder G V :=
  mkRecorder (wroteHeader w) (Code w) (<[key := value]> (HeaderMap w)) (sentHeader w) (Body w).

(** The recorder after [w.WriteHeader(status)]. *)
Definition withStatus {G V : Type} (w : ResponseRecorder G V) (status : Z)
  : ResponseRecorder G V :=
  if wroteHeader w then w
  else mkRecorder true status (HeaderMap w) (HeaderMap w) (Body w).

(** The recorder after [w.WriteHeader(status); w.Write(b)]. *)
Definition written {G V : Type} (w : ResponseRecorder G V) (status : Z) (b : Encoded G V)
  : ResponseRecorder G V :=
  let w1 := withStatus w status in
  mkRecorder (wroteHeader w1) (Code w1) (HeaderMap w1) (sentHeader w1) (Body w1 ++ [b])%list.

(** The recorder after [jsonError(w, code, msg, status)]. *)
Definition withError {G V : Type} (w : ResponseRecorder G V) (status : Z) (code msg : string)
  : ResponseRecorder G V :=
  written w status (ErrorJSON code msg).

(** The recorder [w'] continues [w], whose header is sent already: the
    same status and the same sent header, and a body that extends the one
    of [w]. *)
Definition continues {G V : Type} (w w' : ResponseRecorder G V) : Prop :=
  wroteHeader w' = true /\ Code w' = Code w /\ sentHeader w' = sentHeader w /\
  exists rest, Body w' = (Body w ++ rest)%list.

(** The encoding of an envelope in the negotiated type. *)
Definition encodeAs (E : Env) (ct : string) (e : Envelope (Geometry E) (Value E))
  : Encoded (Geometry E) (Value E) * option error :=
  if String.eqb ct JSONContentType then json_Marshal E e else MarshalHTML E e.

(** The links of a feature collection: self, alternates, and the previous
    and next page when their links are not empty. *)
Definition itemsLinks (E : Env) (r : Request) (ct cName : string) (pageNum limit : Z)
    (prev next : string) : list Link :=
  let self := pageUrl (serveSchemeHostPortBase E r) cName pageNum limit in
  ([mkLink (ctHref E self ct) "self" ct]
   ++ map (fun act => mkLink (ctHref E self act) "alternate" act) (alternatesOf ct)
   ++ (if negb (String.eqb prev "") then [mkLink prev "prev" ct] else [])
   ++ (if negb (String.eqb next "") then [mkLink next "next" ct] else []))%list.

(** The link to the page [p], when one is wanted: [None] when the link
    does not parse, the empty string when no link is wanted. *)
Definition pageLink (E : Env) (r : Request) (cName : string) (wanted : bool) (p limit : Z)
  : option string :=
  if wanted
  then option_map reencode (url.Parse (pageUrl (serveSchemeHostPortBase E r) cName p limit))
  else Some "".

(** The links of a feature: one per supported content type, and the
    collection. *)
Definition featureLinks (E : Env) (r : Request) (ct cName : string) (fid : Z) : list Link :=
  let shref := serveSchemeHostPortBase E r +:+ "/collections/" +:+ cName
               +:+ "/items/" +:+ Str.decimal fid in
  let chref := serveSchemeHostPortBase E r +:+ "/collections/" +:+ cName in
  (map (fun sct => mkLink (ctHref E shref sct)
                     (if String.eqb sct ct then "self" else "alternate") sct)
     SupportedContentTypes
   ++ [mkLink (ctHref E chref ct) "collection" ct])%list.

(** The links of the root content. *)
Definition rootLinks (E : Env) (r : Request) (ct : string) : list Link :=
  let sshpb := serveSchemeHostPortBase E r in
  ([mkLink (ctHref E (sshpb +:+ "/") ct) "self" ct]
   ++ map (fun at_ => mkLink (ctHref E (sshpb +:+ "/") at_) "alternate" at_) (alternatesOf ct)
   ++ [mkLink (ctHref E (sshpb +:+ "/api") ct) "service" ct;
       mkLink (ctHref E (sshpb +:+ "/conformance") ct) "conformance" ct;
       mkLink (ctHref E (sshpb +:+ "/collections") ct) "data" ct])%list.

(** The links the handler puts in front of those of a collection's
    metadata: self, alternates, and the items in every type. *)
Definition collectionLinks (E : Env) (r : Request) (ct cName : string) : list Link :=
  let mdUrl := serveSchemeHostPortBase E r +:+ "/collections/" +:+ cName in
  let dataUrl := serveSchemeHostPortBase E r +:+ "/collections/" +:+ cName +:+ "/items" in
  ([mkLink (ctHref E mdUrl ct) "self" ct]
   ++ map (fun act => mkLink (ctHref E mdUrl act) "alternate" act) (alternatesOf ct)
   ++ [mkLink (ctHref E dataUrl ct) "item" ct]
   ++ map (fun act => mkLink (ctHref E dataUrl act) "item" act) (alternatesOf ct))%list.

(** The response of one of the handlers that serialise an envelope. *)
Definition Produced (E : Env) (r : Request)
    (w : ResponseRecorder (Geometry E) (Value E)) : Prop :=
  w = exec (root E r) \/ w = exec (conformance E r) \/
  w = exec (collectionsMetaData E r) \/ w = exec (collectionMetaData E r) \/
  w = exec (collectionData E r).


(** The fingerprint of the resource a request to [collectionData] names. *)
Definition resourceId (r : Request) : string :=
  let cName := ByName (Params r) "name" in
  let fidStr := ByName (Params r) "feature_id" in
  if String.eqb fidStr "" then contentIdOf cName
  else contentIdOf (cName +:+ Str.decimal (Uint.wrap (fst (strconv.Atoi fidStr)))).

(** The request [r] with another URL. *)
Definition withURL (r : Request) (u : url.URL) : Request :=
  mkRequest (Method r) (Header r) u (Params r) (overrideContent r).

(** The features of one page, as [collectionData] asks
    [FeatureCollectionData] for them: the window starts at
    [limit * page] and has [limit] places; no features when the builder
    reports an error. *)
Definition pageFeatures (E : Env) (cName : string) (bbox : option (list (float64 E)))
    (properties : gmap string string) (limit pageNum : Z)
  : list (GeoJSONFeature (Geometry E) (Value E)) :=
  let startIdx := Uint.mul limit pageNum in
  let stopIdx := Uint.add startIdx limit in
  match FeatureCollectionData E cName bbox startIdx stopIdx properties false with
  | (Some d, _, _, None) => Features d
  | _ => []
  end.

(** The error of the first query parameter block that fails, in the
    order in which [collectionData] reads them. *)
Definition parameterError (E : Env) (q : url.Values) : option HandlerError :=
  match limitParam E q with
  | inl e => Some e
  | inr _ =>
      match pageParam q with
      | inl e => Some e
      | inr _ =>
          match bboxParam E q with
          | inl e => Some e
          | inr _ =>
              match timeParam q with
              | inl e => Some e
              | inr _ => None
              end
          end
      end
  end.

(** A handler that does not end in a panic, whatever was written
    before it runs. *)
Definition neverPanics {G V A : Type} (m : Handler G V A) : Prop :=
  forall w msg, fst (m w) <> Panicked msg.

Module Faults.

Definition no_encoder : Env :=
  {| Geometry := unit;
     Value := string;
     float64 := string;
     ParseFloat := ParseFloat Fixture.env;
     MaxLimit := 1000;
     DefaultMimeType := JSONContentType;
     CollectionNames := CollectionNames Fixture.env;
     CollectionFeatures := Fixture.collectionFeatures;
     GetFeatures := Fixture.getFeatures;
     serveSchemeHostPortBase := fun _ => "http://test.com";
     Root := fun _ => (mkRootContent [], "temp_content_id");
     OpenAPI3SchemaEncoded := fun _ => ("{}", "d8f29989aea96bd9");
     json_Marshal_error := fun _ => Some (errorString "json: unsupported value");
     MarshalHTML_error := fun _ => Some (errorString "template: no such template");
     ValidateJSONResponse := fun _ _ _ _ _ => None;
     ValidateJSONResponseAgainstJSONSchema := fun _ _ => None;
     CollectionInfo_ContentType := fun _ c => c;
     CollectionsInfo_ContentType := fun _ c => c |}.

(** Requests for a feature with a malformed id and for a feature the
    provider does not have, and for pages with a limit of zero and with a
    bounding box of three items. *)
Definition get_feature_abc : Request :=
  Fixture.request "GET" [] [("name", "roads_lines"); ("feature_id", "abc")] "".
Definition get_feature_19 : Request :=
  Fixture.request "GET" [] [("name", "roads_lines"); ("feature_id", "19")] "".
Definition get_limit_zero : Request := Fixture.items "GET" "limit=0&page=7".
Definition get_short_bbox : Request := Fixture.items "GET" "limit=3&bbox=1,2,3".

End Faults.
(** ** [filteredFeatures]

    What the handler calls of the data provider and of [encoding/json]:
    the collection names with their error as the provider returns them,
    the two calls that make the temporary collection, the decoding of
    the extent and the encoding of the summary. *)
Record FilterProvider := mkFilterProvider {
  FeatureId : Type;
  Extent : Type;
  (** the zero value of [geom.Extent] *)
  zeroExtent : Extent;
  (** [json.Unmarshal] of the text into four numbers, made an extent *)
  Unmarshal_extent : string -> error + Extent;
  (** [Provider.CollectionNames()]: the names and the error *)
  provider_CollectionNames : list string * option error;
  (** [Provider.FilterFeatures(&extent, collectionNames, propParams)] *)
  FilterFeatures : Extent -> list string -> gmap string string -> list FeatureId * option error;
  (** [Provider.MakeCollection(name, fids)] *)
  MakeCollection : string -> list FeatureId -> string * option error;
  (** [json.Marshal] of the struct of [Collection] and [FeatureCount] *)
  Marshal_summary : string -> Z -> string * option error
}.

Section Filtered.

Context {G V : Type}.
Variable P : FilterProvider.

(** The loop over the query that collects the property filters: every
    parameter but [extent] and [collection], with its first value. *)
Definition filterProps (q : url.Values) : Handler G V (gmap string string) :=
  let others : url.Values :=
    filter (fun kv : string * list string => kv.1 <> "extent" /\ kv.1 <> "collection") q in
  if decide (map_Forall (fun _ v => v <> []) others)
  then mret ((fun v : list string => default "" (head v)) <$> others)
  else panic "index out of range [0] with length 0".

(** [filteredFeatures(w, r)]: makes a temporary collection of the
    features that pass the filters, and answers with its id and the
    number of its features. *)
Definition filteredFeatures (r : Request) : Handler G V unit :=
  let q := url.Query (URL r) in
  let extentParam := url.get q "extent" in
  let collectionParam := url.get q "collection" in
  propParams ← filterProps (url.Query (URL r));
  collectionNames ←
    (if Nat.ltb 0 (length collectionParam) then mret collectionParam
     else
       let '(names, err) := provider_CollectionNames P in
       match err with
       | Some e => jsonError "NoApplicableCode" (Error e) HTTPStatusServerError
       | None => mret tt
       end;;
       mret names);
  extent ←
    match extentParam with
    | e0 :: _ =>
        match Unmarshal_extent P e0 with
        | inl err =>
            jsonError "NoApplicableCode"
              ("unable to unmarshal extent (" +:+ e0 +:+ ") due to error: " +:+ Error err)
              HTTPStatusClientError;;
            return_
        | inr extent => mret extent
        end
    | [] => mret (zeroExtent P)
    end;
  let '(fids, _) := FilterFeatures P extent collectionNames propParams in
  let '(newCol, err) := MakeCollection P "tempcol" fids in
  match err with
  | Some e => jsonError "NoApplicableCode" (Error e) HTTPStatusServerError;; return_
  | None => mret tt
  end;;
  let '(resp, err) := Marshal_summary P newCol (Z.of_nat (length fids)) in
  match err with
  | Some e => jsonError "NoApplicableCode" (Error e) HTTPStatusServerError
  | None => mret tt
  end;;
  WriteHeader HTTPStatusOk;;
  Write (RawBytes resp).

End Filtered.

(** The property filters, the collection names and the extent that
    [filteredFeatures] hands to the provider for a query. *)
Definition filterPropsOf (q : url.Values) : gmap string string :=
  (fun v : list string => default "" (head v))
    <$> filter (fun kv : string * list string => kv.1 <> "extent" /\ kv.1 <> "collection") q.

Definition filterNamesOf (P : FilterProvider) (q : url.Values) : list string :=
  match url.get q "collection" with
  | [] => fst (provider_CollectionNames P)
  | names => names
  end.

(** ** The test helper [addQueryParams] *)

(** Whether [url.ParseQuery] reports an error: some piece of the query
    that is not empty has a semicolon or an escape that does not parse. *)
Definition ParseQuery_fails (query : string) : bool :=
  existsb (fun piece =>
             negb (String.eqb piece "")
             && match url.parsePair piece with Some _ => false | None => true end)
    (Str.Split query "&").

(** [addQueryParams(req, queryParams)]: the request with every given
    parameter set to its one value and the query encoded anew; [None]
    for the error of [url.ParseQuery], and then the request is as it
    was. *)
Definition addQueryParams (req : Request) (queryParams : gmap string string)
  : option Request :=
  if Nat.ltb 0 (size queryParams) then
    if ParseQuery_fails (url.RawQuery (URL req)) then None
    else
      let q := url.ParseQuery (url.RawQuery (URL req)) in
      let q := map_fold (fun k v (q : url.Values) => <[k := [v]]> q) q queryParams in
      Some (withURL req (url.withRawQuery (URL req) (url.Encode q)))
  else Some req.

(** ** [defaultGpkg] of the command

    The working directory and the file names that match a pattern come
    from the operating system; [path.Join] and [path.Clean] are the
    library's. *)
Record FileSystem := mkFileSystem {
  (** [os.Getwd()] *)
  Getwd : error + string;
  (** [filepath.Glob(pattern)] *)
  Glob : string -> error + list string;
  (** [path.Join(a, b)] *)
  path_Join : string -> string -> string;
  (** [path.Clean(p)] *)
  path_Clean : string -> string
}.

(** What a function returns, unless it panics. *)
Inductive Outcome (A : Type) :=
  | Done (a : A)
  | Panic (msg : string).
Arguments Done {A}.
Arguments Panic {A}.

(** [sort.Strings]: the strings in increasing order. *)
Fixpoint insert_string (s : string) (l : list string) : list string :=
  match l with
  | [] => [s]
  | x :: l' => if String.leb s x then s :: l else x :: insert_string s l'
  end.

Definition sort_Strings (l : list string) : list string := foldr insert_string [] l.

(** The loop of [defaultGpkg] over the directories. *)
Fixpoint searchDirs (fs : FileSystem) (wd : string) (dirs : list string) : Outcome string :=
  match dirs with
  | [] => Done ""
  | dir :: dirs' =>
      let searchGlob := path_Join fs dir "*.gpkg" in
      match Glob fs searchGlob with
      | inl _ => Panic "Invalid glob pattern hardcoded"
      | inr gpkgFiles =>
          if Nat.eqb (length gpkgFiles) 0 then searchDirs fs wd dirs'
          else
            match sort_Strings gpkgFiles with
            | gpkgFilename :: _ => Done (path_Clean fs (path_Join fs wd gpkgFilename))
            | [] => Panic "index out of range [0] with length 0"
            end
      end
  end.

(** [defaultGpkg()]: the path of the first [.gpkg] file, in alphabetical
    order, of the first of the working directory, [data] and [test_data]
    that has one; the empty string when there is none. *)
Definition defaultGpkg (fs : FileSystem) : Outcome string :=
  let dirs := [""; "data"; "test_data"] in
  match Getwd fs with
  | inl _ => Done ""
  | inr wd => searchDirs fs wd dirs
  end.

(** ** A provider for [filteredFeatures]

    Three features pass every filter, and [FilterFeatures] reports an
    error besides; the extent is kept as its text, and only a text in
    brackets decodes. *)

Module Samples.

Definition provider : FilterProvider :=
  {| FeatureId := Z;
     Extent := string;
     zeroExtent := "";
     Unmarshal_extent := fun s =>
       match s with
       | String "[" _ => inr s
       | _ => inl (errorString "json: cannot unmarshal string into Go value of type [4]float64")
       end;
     provider_CollectionNames := (["aviation_polygons"; "roads_lines"], None);
     FilterFeatures := fun _ _ _ => ([1; 2; 3], Some (errorString "filter failed"));
     MakeCollection := fun name fids => (name +:+ "_" +:+ Str.decimal (Z.of_nat (length fids)), None);
     Marshal_summary := fun col n => (col +:+ ":" +:+ Str.decimal n, None) |}.

Definition get_filtered : Request :=
  Fixture.request "GET" [] [] "aeroway=helipad&extent=[1,2,3,4]&extent=oops".

End Samples.

(** * Properties *)

(** ** Machine integers *)


Lemma wrap_small x : Uint.in_range x -> Uint.wrap x = x.
Proof. unfold Uint.in_range, Uint.wrap. intros H. apply Z.mod_small. exact H. Qed.

Lemma add_small x y : 0 <= x -> 0 <= y -> x + y < Uint.modulus -> Uint.add x y = x + y.
Proof. intros. unfold Uint.add. apply wrap_small. unfold Uint.in_range. lia. Qed.

Lemma mul_small x y : 0 <= x -> 0 <= y -> x * y < Uint.modulus -> Uint.mul x y = x * y.
Proof. intros. unfold Uint.mul. apply wrap_small. unfold Uint.in_range. nia. Qed.

Lemma mul_zero_l x : Uint.mul 0 x = 0.
Proof. unfold Uint.mul, Uint.wrap. now rewrite Z.mul_0_l. Qed.


Lemma wrap_length {A : Type} (l : list A) :
  Z.of_nat (length l) <= Uint.max_int -> Uint.wrap (Z.of_nat (length l)) = Z.of_nat (length l).
Proof.
  intros H. apply wrap_small. unfold Uint.in_range, Uint.max_int, Uint.modulus in *. lia.
Qed.

(** ** Strings *)

Lemma append_nil_l s : "" +:+ s = s.
Proof. reflexivity. Qed.

Lemma append_cons c s t : String c s +:+ t = String c (s +:+ t).
Proof. reflexivity. Qed.

Lemma append_empty_r s : s +:+ "" = s.
Proof.
  induction s as [|c s IH]; [reflexivity |].
  rewrite append_cons, IH. reflexivity.
Qed.

Lemma append_assoc s1 s2 s3 : (s1 +:+ s2) +:+ s3 = s1 +:+ (s2 +:+ s3).
Proof.
  induction s1 as [|c s1 IH]; [reflexivity |].
  rewrite !append_cons, IH. reflexivity.
Qed.

Lemma append_eq_empty s1 s2 : s1 +:+ s2 = "" -> s1 = "" /\ s2 = "".
Proof. destruct s1; [rewrite append_nil_l; auto | rewrite append_cons; discriminate]. Qed.

Lemma string_forall_app P s1 s2 :
  string_forall P (s1 +:+ s2) = string_forall P s1 && string_forall P s2.
Proof.
  induction s1 as [|c s1 IH]; [reflexivity |].
  rewrite append_cons. simpl. rewrite IH. now rewrite andb_assoc.
Qed.

Lemma string_forall_impl (P Q : ascii -> bool) s :
  (forall c, P c = true -> Q c = true) ->
  string_forall P s = true -> string_forall Q s = true.
Proof.
  intros HPQ. induction s as [|c s IH]; simpl; [reflexivity |].
  rewrite !andb_true_iff. intros [Hc Hs]. split; auto.
Qed.

Lemma byte_of_digit_char d : 0 <= d < 10 -> Str.byte_of (Str.digit_char d) = 48 + d.
Proof.
  intros Hd. unfold Str.byte_of, Str.digit_char.
  rewrite N_ascii_embedding by lia. lia.
Qed.

Lemma is_digit_digit_char d : 0 <= d < 10 -> Str.is_digit (Str.digit_char d) = true.
Proof.
  intros Hd. unfold Str.is_digit. rewrite byte_of_digit_char by exact Hd.
  apply andb_true_iff. split; apply Z.leb_le; lia.
Qed.

Lemma digits_forall fuel n acc :
  string_forall Str.is_digit acc = true ->
  string_forall Str.is_digit (Str.digits fuel 10 Str.digit_char n acc) = true.
Proof.
  revert n acc. induction fuel as [|fuel IH]; intros n acc Hacc; simpl; [exact Hacc |].
  assert (Hd : string_forall Str.is_digit (String (Str.digit_char (n mod 10)) acc) = true).
  { simpl. rewrite Hacc, is_digit_digit_char; [reflexivity |]. apply Z.mod_pos_bound. lia. }
  destruct (n / 10 =? 0); [exact Hd | apply IH, Hd].
Qed.

Lemma digits_nonempty fuel n acc :
  fuel <> O -> Str.digits fuel 10 Str.digit_char n acc <> "".
Proof.
  revert n acc. induction fuel as [|fuel IH]; intros n acc Hf; [congruence |].
  simpl. destruct (n / 10 =? 0); [discriminate |].
  destruct fuel as [|fuel']; [simpl; discriminate |].
  apply IH. discriminate.
Qed.

Lemma decimal_digits n : string_forall Str.is_digit (Str.decimal n) = true.
Proof. apply digits_forall. reflexivity. Qed.

Lemma decimal_nonempty n : Str.decimal n <> "".
Proof. apply digits_nonempty. discriminate. Qed.

(** A digit is none of the bytes that structure a URL. *)
Lemma digit_lacks sep s :
  Str.is_digit sep = false -> string_forall Str.is_digit s = true -> lacks sep s = true.
Proof.
  intros Hsep. apply string_forall_impl. intros c Hc.
  destruct (Ascii.eqb_spec c sep) as [->|]; [congruence | reflexivity].
Qed.

Lemma lacks_app sep s1 s2 : lacks sep (s1 +:+ s2) = lacks sep s1 && lacks sep s2.
Proof. apply string_forall_app. Qed.

Lemma Cut_lacks s sep : lacks sep s = true -> Str.Cut s sep = (s, None).
Proof.
  unfold lacks. induction s as [|c s IH]; simpl; [reflexivity |].
  rewrite andb_true_iff. intros [Hc Hs].
  apply negb_true_iff in Hc. rewrite Hc, (IH Hs). reflexivity.
Qed.

Lemma Cut_app_lacks s1 s2 sep :
  lacks sep s1 = true ->
  Str.Cut (s1 +:+ s2) sep = (s1 +:+ fst (Str.Cut s2 sep), snd (Str.Cut s2 sep)).
Proof.
  unfold lacks. induction s1 as [|c s1 IH].
  - intros _. rewrite !append_nil_l. now destruct (Str.Cut s2 sep).
  - rewrite !append_cons. simpl. rewrite andb_true_iff. intros [Hc Hs].
    apply negb_true_iff in Hc. rewrite Hc, (IH Hs). reflexivity.
Qed.

Lemma Cut_app_found s1 s2 sep before after :
  Str.Cut s1 sep = (before, Some after) ->
  Str.Cut (s1 +:+ s2) sep = (before, Some (after +:+ s2)).
Proof.
  revert before after. induction s1 as [|c s1 IH]; intros before after; [discriminate |].
  rewrite append_cons. simpl. destruct (Ascii.eqb c sep).
  - intros [= <- <-]. reflexivity.
  - destruct (Str.Cut s1 sep) as [b [a|]] eqn:Hc; intros [= <- <-].
    rewrite (IH b a eq_refl). reflexivity.
Qed.

Lemma Cut_none_lacks s sep before :
  Str.Cut s sep = (before, None) -> lacks sep s = true /\ before = s.
Proof.
  unfold lacks. revert before. induction s as [|c s IH]; simpl; intros before.
  - intros [= <-]. auto.
  - destruct (Ascii.eqb c sep) eqn:Hc; [discriminate |].
    destruct (Str.Cut s sep) as [b [a|]] eqn:Hs; intros [= <-].
    destruct (IH b eq_refl) as [Hl ->]. rewrite Hl. auto.
Qed.

Lemma Split_nonempty s sep : Str.Split s sep <> [].
Proof.
  destruct s as [|c s]; simpl; [discriminate |].
  destruct (Ascii.eqb c sep); [discriminate |].
  destruct (Str.Split s sep); discriminate.
Qed.

Lemma Split_lacks s sep : lacks sep s = true -> Str.Split s sep = [s].
Proof.
  unfold lacks. induction s as [|c s IH]; simpl; [reflexivity |].
  rewrite andb_true_iff. intros [Hc Hs].
  apply negb_true_iff in Hc. rewrite Hc, (IH Hs). reflexivity.
Qed.

Lemma Split_app_sep s1 s2 sep :
  Str.Split (s1 +:+ String sep s2) sep = (Str.Split s1 sep ++ Str.Split s2 sep)%list.
Proof.
  induction s1 as [|c s1 IH].
  - rewrite append_nil_l. simpl. rewrite Ascii.eqb_refl. reflexivity.
  - rewrite append_cons. simpl. destruct (Ascii.eqb c sep).
    + rewrite IH. reflexivity.
    + rewrite IH. pose proof (Split_nonempty s1 sep) as Hne.
      destruct (Str.Split s1 sep) as [|h t]; [congruence | reflexivity].
Qed.

Lemma count_lacks s sep : lacks sep s = true -> url.count s sep = O.
Proof.
  unfold lacks. induction s as [|c s IH]; simpl; [reflexivity |].
  rewrite andb_true_iff. intros [Hc Hs].
  apply negb_true_iff in Hc. rewrite Hc, (IH Hs). reflexivity.
Qed.

Lemma last_is_lacks s sep : lacks sep s = true -> url.last_is s sep = false.
Proof.
  unfold lacks. induction s as [|c s IH]; simpl; [reflexivity |].
  rewrite andb_true_iff. intros [Hc Hs].
  apply negb_true_iff in Hc. destruct s; [exact Hc | exact (IH Hs)].
Qed.

Lemma last_is_app s1 s2 sep : s2 <> "" -> url.last_is (s1 +:+ s2) sep = url.last_is s2 sep.
Proof.
  intros Hne. induction s1 as [|c s1 IH]; [reflexivity |].
  rewrite append_cons. simpl.
  destruct (s1 +:+ s2) eqn:Happ; [| exact IH].
  apply append_eq_empty in Happ as [_ ?]. contradiction.
Qed.

Lemma QueryUnescape_plain s :
  lacks "%" s = true -> lacks "+" s = true -> url.QueryUnescape s = Some s.
Proof.
  unfold lacks. induction s as [|c s IH]; simpl; [reflexivity |].
  rewrite !andb_true_iff. intros [Hc Hs] [Hc' Hs'].
  apply negb_true_iff in Hc, Hc'. rewrite Hc, Hc', (IH Hs Hs'). reflexivity.
Qed.

Lemma ctl_forall s :
  url.stringContainsCTLByte s = negb (string_forall (fun c => negb (url.is_ctl c)) s).
Proof.
  induction s as [|c s IH]; simpl; [reflexivity |].
  rewrite IH. now destruct (url.is_ctl c), (string_forall _ s).
Qed.

Lemma ctl_app s1 s2 :
  url.stringContainsCTLByte (s1 +:+ s2) =
  url.stringContainsCTLByte s1 || url.stringContainsCTLByte s2.
Proof.
  rewrite !ctl_forall, string_forall_app. now rewrite negb_andb.
Qed.


Lemma ctl_Cut s sep :
  url.stringContainsCTLByte s = false -> url.stringContainsCTLByte (fst (Str.Cut s sep)) = false.
Proof.
  induction s as [|c s IH]; simpl; [reflexivity |].
  rewrite orb_false_iff. intros [Hc Hs].
  destruct (Ascii.eqb c sep); [reflexivity |].
  destruct (Str.Cut s sep) as [b a] eqn:Hcut. simpl in *. rewrite Hc. exact (IH Hs).
Qed.



Lemma insert_sorted_elem x kv l :
  x ∈ url.insert_sorted kv l <-> x = kv \/ x ∈ l.
Proof.
  induction l as [|kv' l IH]; simpl.
  - apply elem_of_cons.
  - destruct (String.leb (fst kv) (fst kv')).
    + rewrite elem_of_cons. reflexivity.
    + rewrite !elem_of_cons, IH. tauto.
Qed.

Lemma sorted_pairs_elem x (v : url.Values) :
  x ∈ url.sorted_pairs v <-> x ∈ map_to_list v.
Proof.
  unfold url.sorted_pairs. induction (map_to_list v) as [|kv l IH]; simpl.
  - reflexivity.
  - rewrite insert_sorted_elem, elem_of_cons, IH. reflexivity.
Qed.

Lemma join_nonempty sep x l : x <> "" -> Str.join sep (x :: l) <> "".
Proof.
  intros Hx. simpl. destruct l; [exact Hx |].
  intros H. apply append_eq_empty in H as [? _]. contradiction.
Qed.

Lemma Encode_nonempty (v : url.Values) k x xs :
  v !! k = Some (x :: xs) -> url.Encode v <> "".
Proof.
  intros Hk. unfold url.Encode.
  assert (Hin : (k, x :: xs) ∈ url.sorted_pairs v).
  { apply sorted_pairs_elem, elem_of_map_to_list, Hk. }
  induction (url.sorted_pairs v) as [|kv l IH]; [inversion Hin |].
  simpl. destruct kv as [k' vs]. destruct vs as [|v0 vs]; simpl.
  - apply IH. apply elem_of_cons in Hin as [Heq|Hin]; [congruence | exact Hin].
  - apply join_nonempty. intros H.
    apply append_eq_empty in H as [_ H]. rewrite append_cons in H. discriminate.
Qed.

(** The last piece of a query that ends in [&limit=<digits>] is parsed
    into the key [limit]. *)
Lemma ParseQuery_limit a L :
  string_forall Str.is_digit L = true ->
  exists vs, url.ParseQuery (a +:+ "&limit=" +:+ L) !! "limit" = Some (vs ++ [L])%list.
Proof.
  intros HL. unfold url.ParseQuery.
  change (a +:+ "&limit=" +:+ L) with (a +:+ String "&" ("limit=" +:+ L)).
  assert (Hlk : forall sep, Str.is_digit sep = false -> lacks sep ("limit=" +:+ L) = lacks sep "limit=").
  { intros sep Hsep. rewrite lacks_app, (digit_lacks sep L Hsep HL). apply andb_true_r. }
  rewrite Split_app_sep, (Split_lacks ("limit=" +:+ L)) by (rewrite Hlk; reflexivity).
  rewrite fold_left_app. simpl.
  set (m := fold_left _ (Str.Split a "&") ∅).
  assert (Hp : url.parsePair ("limit=" +:+ L) = Some ("limit", L)).
  { unfold url.parsePair.
    change ("limit=" +:+ L) with (String "l" ("imit=" +:+ L)) at 1.
    cbn [String.eqb Ascii.eqb Bool.eqb].
    rewrite count_lacks by (rewrite Hlk; reflexivity). simpl Nat.ltb. cbv iota.
    change ("limit=" +:+ L) with ("limit" +:+ String "=" L).
    rewrite Cut_app_lacks by reflexivity. simpl Str.Cut. simpl fst. simpl snd.
    rewrite append_empty_r. simpl default.
    rewrite (QueryUnescape_plain L) by (apply digit_lacks; [reflexivity | exact HL]).
    reflexivity. }
  rewrite Hp. exists (url.get m "limit"). apply lookup_insert_eq.
Qed.

Lemma reencode_tail_nonempty pre P L u :
  string_forall Str.is_digit P = true ->
  string_forall Str.is_digit L = true ->
  L <> "" ->
  url.Parse (pre +:+ "/items?page=" +:+ P +:+ "&limit=" +:+ L) = Some u -> reencode u <> "".
Proof.
  intros HP HL HLne.
  set (T := "/items?page=" +:+ P +:+ "&limit=" +:+ L).
  assert (HTne : forall x, x +:+ T <> "").
  { intros x H. apply append_eq_empty in H as [_ H]. discriminate. }
  assert (HT : forall sep, Str.is_digit sep = false ->
                lacks sep T = lacks sep "/items?page=" && lacks sep "&limit=").
  { intros sep Hsep. unfold T. rewrite !lacks_app.
    rewrite (digit_lacks sep P Hsep HP), (digit_lacks sep L Hsep HL).
    now rewrite andb_true_r. }
  unfold url.Parse, reencode, url.String_.
  destruct (Str.Cut pre "#") as [b [a|]] eqn:Hcut.
  - (* a fragment: it holds the tail of the link *)
    rewrite (Cut_app_found _ T _ _ _ Hcut).
    destruct (url.stringContainsCTLByte b); [discriminate |]. simpl default.
    intros Hu H. apply append_eq_empty in H as [_ H]. apply append_eq_empty in H as [_ H].
    assert (Hf : url.Fragment (url.withRawQuery u (url.Encode (url.Query u))) = a +:+ T).
    { destruct (_ && _); [| destruct (Str.Cut b "?")]; injection Hu as <-; reflexivity. }
    rewrite Hf in H. destruct (String.eqb_spec (a +:+ T) "") as [He|_]; [exact (HTne a He) |].
    simpl in H. discriminate.
  - apply Cut_none_lacks in Hcut as [Hpre _].
    rewrite Cut_app_lacks by exact Hpre.
    rewrite (Cut_lacks T) by (rewrite HT; reflexivity). simpl fst. simpl snd.
    destruct (url.stringContainsCTLByte (pre +:+ T)); [discriminate |].
    assert (Hlast : url.last_is (pre +:+ T) "?" = false).
    { unfold T. rewrite <- !append_assoc. rewrite last_is_app by exact HLne.
      apply last_is_lacks, digit_lacks; [reflexivity | exact HL]. }
    rewrite Hlast. simpl andb. cbv iota.
    destruct (Str.Cut pre "?") as [b2 [a2|]] eqn:Hq.
    + rewrite (Cut_app_found _ T _ _ _ Hq). intros [= <-]. simpl.
      destruct (ParseQuery_limit (a2 +:+ "/items?page=" +:+ P) L HL) as [vs Hvs].
      assert (Hne : url.Encode (url.Query (url.mkURL b2 false (a2 +:+ T) "")) <> "").
      { unfold url.Query. simpl url.RawQuery. unfold T.
        rewrite <- (append_assoc a2), <- (append_assoc _ P) in *.
        destruct vs; eapply Encode_nonempty; exact Hvs. }
      intros H. apply append_eq_empty in H as [_ H]. apply append_eq_empty in H as [H _].
      destruct (String.eqb_spec (url.Encode (url.Query (url.mkURL b2 false (a2 +:+ T) ""))) "")
        as [He|_]; [exact (Hne He) |].
      simpl in H. discriminate.
    + apply Cut_none_lacks in Hq as [Hpre' _].
      rewrite Cut_app_lacks by exact Hpre'.
      unfold T. change ("/items?page=" +:+ P +:+ "&limit=" +:+ L)
        with ("/items" +:+ String "?" ("page=" +:+ P +:+ "&limit=" +:+ L)).
      rewrite Cut_app_lacks by reflexivity. simpl Str.Cut. simpl fst. simpl snd.
      intros [= <-]. simpl url.Prefix.
      intros H. apply append_eq_empty in H as [H _].
      apply append_eq_empty in H as [_ H]. discriminate.
Qed.

Lemma reencode_pageUrl_nonempty sshpb cName p l u :
  url.Parse (pageUrl sshpb cName p l) = Some u -> reencode u <> "".
Proof.
  unfold pageUrl.
  rewrite <- (append_assoc sshpb), <- (append_assoc _ cName).
  apply reencode_tail_nonempty;
    [apply decimal_digits | apply decimal_digits | apply decimal_nonempty].
Qed.

Lemma reencode_eqb sshpb cName p l u :
  url.Parse (pageUrl sshpb cName p l) = Some u -> String.eqb (reencode u) "" = false.
Proof.
  intros H. apply String.eqb_neq. exact (reencode_pageUrl_nonempty _ _ _ _ _ H).
Qed.

(** ** Parameters *)





(** *** A parameter taken out of the query *)

Lemma get_delete_ne (q : url.Values) k k' : k <> k' -> url.get (delete k q) k' = url.get q k'.
Proof. intros H. unfold url.get. now rewrite lookup_delete_ne. Qed.

Lemma get_delete_eq (q : url.Values) k : url.get (delete k q) k = [].
Proof. unfold url.get. now rewrite lookup_delete_eq. Qed.

Lemma filter_delete_reserved (q : url.Values) k :
  k ∈ reservedQParams ->
  filter (fun kv : string * list string => kv.1 ∉ reservedQParams) (delete k q)
  = filter (fun kv : string * list string => kv.1 ∉ reservedQParams) q.
Proof.
  intros Hk. rewrite map_filter_delete. apply delete_id.
  apply map_lookup_filter_None. right. intros x _ Hx. simpl in Hx. contradiction.
Qed.

Lemma propertyFilters_delete (q : url.Values) k :
  k ∈ reservedQParams -> propertyFilters (delete k q) = propertyFilters q.
Proof. intros Hk. unfold propertyFilters. rewrite filter_delete_reserved by exact Hk. reflexivity. Qed.

(** ** Content negotiation *)

Lemma supportedContentType_cases ct :
  supportedContentType ct = true <-> ct = JSONContentType \/ ct = HTMLContentType.
Proof.
  unfold supportedContentType. simpl. rewrite !orb_true_iff, !String.eqb_eq. intuition discriminate.
Qed.

Lemma contentType_supported r : supportedContentType (contentType r) = true.
Proof.
  unfold contentType.
  destruct (supportedContentType (Header_Get (Header r) "Content-Type")) eqn:Hh;
  destruct (url.get (url.Query (URL r)) "f") as [|f0 fs]; simpl.
  - rewrite Hh. simpl. exact Hh.
  - destruct (String.eqb f0 _) eqn:He; simpl.
    + rewrite Hh. simpl. exact Hh.
    + destruct (supportedContentType f0) eqn:Hf; simpl; [exact Hf | reflexivity].
  - reflexivity.
  - destruct (String.eqb f0 "") eqn:He; simpl.
    + reflexivity.
    + destruct (supportedContentType f0) eqn:Hf; simpl; [exact Hf | reflexivity].
Qed.

Lemma contentType_cases r : contentType r = JSONContentType \/ contentType r = HTMLContentType.
Proof. apply supportedContentType_cases, contentType_supported. Qed.

Lemma ctLink_supported E b ct :
  supportedContentType ct = true -> ctLink E b ct = mret (ctHref E b ct).
Proof.
  intros H. unfold ctLink, ctHref. rewrite H. simpl. destruct (url.Parse b); reflexivity.
Qed.

(** ** Pagination arithmetic *)

Lemma window_no_overflow limit pageNum total :
  Uint.in_range limit -> Uint.in_range pageNum ->
  limit * pageNum < total -> total <= Uint.max_int ->
  Uint.mul limit pageNum = limit * pageNum /\
  Uint.add (limit * pageNum) limit = limit * pageNum + limit.
Proof.
  unfold Uint.in_range, Uint.max_int, Uint.modulus. intros Hl Hp Hlt Ht.
  assert (Hmod : 2 ^ 64 = 18446744073709551616) by reflexivity.
  assert (Hmax : 2 ^ 63 = 9223372036854775808) by reflexivity.
  split.
  - apply mul_small; unfold Uint.modulus; lia.
  - apply add_small; unfold Uint.modulus; [nia | lia |].
    destruct (Z.eq_dec pageNum 0) as [->|Hne]; [lia | nia].
Qed.

Lemma slice_length {A : Type} (l : list A) startIdx stopIdx :
  0 <= startIdx <= stopIdx -> stopIdx <= Z.of_nat (length l) ->
  Z.of_nat (length (slice l startIdx stopIdx)) = stopIdx - startIdx.
Proof.
  intros H1 H2. unfold slice. rewrite length_take, length_drop. lia.
Qed.

(** ** Escaping and splitting: the round trips *)

(** What an escaped byte looks like, and that it reads back. *)
Lemma escape_byte (c : ascii) :
  let b := Str.byte_of c in
  (url.unreserved c = true -> Ascii.eqb c "%" = false /\ Ascii.eqb c "+" = false) /\
  (url.unreserved c = false ->
   url.unhex (Str.hex_char true (b / 16)) = Some (b / 16) /\
   url.unhex (Str.hex_char true (b mod 16)) = Some (b mod 16) /\
   ascii_of_N (Z.to_N (16 * (b / 16) + b mod 16)) = c).
Proof.
  destruct c as [[] [] [] [] [] [] [] []]; vm_compute; split; intros; try discriminate; auto.
Qed.

Lemma QueryUnescape_Escape s : url.QueryUnescape (url.QueryEscape s) = Some s.
Proof.
  induction s as [|c s IH]; [reflexivity |].
  destruct (escape_byte c) as [Hu He]. cbv zeta in He.
  cbn [url.QueryEscape]. destruct (url.unreserved c) eqn:Hc.
  - destruct (Hu eq_refl) as [H1 H2]. cbn [url.QueryUnescape]. rewrite H1, H2, IH. reflexivity.
  - destruct (Ascii.eqb_spec c " ") as [->|Hsp].
    + cbn [url.QueryUnescape]. cbn [Ascii.eqb Bool.eqb]. rewrite IH. reflexivity.
    + destruct (He eq_refl) as (H1 & H2 & H3).
      cbn [url.QueryUnescape]. cbn [Ascii.eqb Bool.eqb]. rewrite H1, H2, IH, H3. reflexivity.
Qed.

(** The bytes of an escaped string: unreserved ones, '+' and '%'. *)
Lemma escape_hex_unreserved (c : ascii) :
  let b := Str.byte_of c in
  url.unreserved (Str.hex_char true (b / 16)) = true /\
  url.unreserved (Str.hex_char true (b mod 16)) = true.
Proof. destruct c as [[] [] [] [] [] [] [] []]; vm_compute; auto. Qed.

Lemma QueryEscape_bytes s :
  string_forall (fun c => url.unreserved c || Ascii.eqb c "+" || Ascii.eqb c "%")
    (url.QueryEscape s) = true.
Proof.
  induction s as [|c s IH]; [reflexivity |].
  destruct (escape_hex_unreserved c) as [H1 H2]. cbv zeta in H1, H2.
  cbn [url.QueryEscape]. destruct (url.unreserved c) eqn:Hc.
  - cbn [string_forall]. rewrite Hc, IH. reflexivity.
  - destruct (Ascii.eqb c " ").
    + cbn [string_forall]. rewrite IH. reflexivity.
    + cbn [string_forall]. rewrite H1, H2, IH. reflexivity.
Qed.

(** So an escaped string has none of the bytes that structure a URL or a
    query, and no control byte. *)
Lemma QueryEscape_lacks sep s :
  url.unreserved sep = false -> sep <> "+"%char -> sep <> "%"%char ->
  lacks sep (url.QueryEscape s) = true.
Proof.
  intros Hu Hp Hc. unfold lacks.
  eapply string_forall_impl; [| apply QueryEscape_bytes].
  intros c Hc'. apply negb_true_iff. destruct (Ascii.eqb_spec c sep) as [->|]; [| reflexivity].
  rewrite Hu in Hc'. cbn [orb] in Hc'. apply orb_true_iff in Hc' as [H|H];
    apply Ascii.eqb_eq in H; contradiction.
Qed.

Lemma QueryEscape_no_ctl s : url.stringContainsCTLByte (url.QueryEscape s) = false.
Proof.
  rewrite ctl_forall. apply negb_false_iff.
  eapply string_forall_impl; [| apply QueryEscape_bytes].
  intros c. destruct c as [[] [] [] [] [] [] [] []]; vm_compute; auto.
Qed.

(** [strconv.ParseUint] reads back what ["%v"] prints. *)
Lemma parse_digits_digits bound fuel n acc :
  0 <= n < 10 ^ Z.of_nat fuel -> n < bound ->
  strconv.parse_digits bound (Str.digits fuel 10 Str.digit_char n acc) 0
  = strconv.parse_digits bound acc n.
Proof.
  revert n acc. induction fuel as [|fuel IH]; intros n acc Hn Hb.
  - simpl in Hn. assert (n = 0) as -> by lia. reflexivity.
  - rewrite Nat2Z.inj_succ, Z.pow_succ_r in Hn by lia.
    assert (Hstep : forall m, 0 <= m -> m * 10 + n mod 10 < bound ->
              strconv.parse_digits bound (String (Str.digit_char (n mod 10)) acc) m
              = strconv.parse_digits bound acc (m * 10 + n mod 10)).
    { intros m Hm Hlt. cbn [strconv.parse_digits].
      rewrite is_digit_digit_char by (apply Z.mod_pos_bound; lia).
      unfold strconv.digit_val. rewrite byte_of_digit_char by (apply Z.mod_pos_bound; lia).
      replace (48 + n mod 10 - 48) with (n mod 10) by lia.
      destruct (Z.leb_spec bound (m * 10 + n mod 10)); [lia | reflexivity]. }
    pose proof (Z.div_mod n 10 ltac:(lia)) as Hdm.
    pose proof (Z.mod_pos_bound n 10 ltac:(lia)) as Hmod.
    cbn [Str.digits]. destruct (Z.eqb_spec (n / 10) 0) as [Hz|Hnz].
    + rewrite Hstep by lia. f_equal. lia.
    + assert (Hq : 0 <= n / 10 < 10 ^ Z.of_nat fuel).
      { split; [apply Z.div_pos; lia | apply Z.div_lt_upper_bound; lia]. }
      rewrite IH by (exact Hq || lia).
      rewrite Hstep by lia. f_equal. lia.
Qed.

Lemma ParseUint_decimal n : Uint.in_range n -> strconv.ParseUint (Str.decimal n) = inr n.
Proof.
  intros Hn. unfold strconv.ParseUint.
  destruct (String.eqb_spec (Str.decimal n) "") as [He|_]; [exfalso; exact (decimal_nonempty n He) |].
  unfold Str.decimal. rewrite parse_digits_digits.
  - reflexivity.
  - unfold Uint.in_range, Uint.modulus in Hn. simpl. lia.
  - apply Hn.
Qed.

(** [strings.Split] and [strings.Join] *)
Lemma join_Split s sep : Str.join (String sep "") (Str.Split s sep) = s.
Proof.
  induction s as [|c s IH]; [reflexivity |].
  cbn [Str.Split]. destruct (Ascii.eqb_spec c sep) as [->|Hne].
  - destruct (Str.Split s sep) as [|h t] eqn:Hsp; [exfalso; exact (Split_nonempty s sep Hsp) |].
    change (Str.join (String sep "") ("" :: h :: t))
      with ("" +:+ String sep "" +:+ Str.join (String sep "") (h :: t)).
    rewrite IH, append_nil_l, append_cons, append_nil_l. reflexivity.
  - destruct (Str.Split s sep) as [|h t] eqn:Hsp; [exfalso; exact (Split_nonempty s sep Hsp) |].
    rewrite <- IH. destruct t; cbn [Str.join]; rewrite ?append_cons; reflexivity.
Qed.

Lemma Split_join sep x l :
  Forall (fun p => lacks sep p = true) (x :: l) ->
  Str.Split (Str.join (String sep "") (x :: l)) sep = x :: l.
Proof.
  revert x. induction l as [|y l IH]; intros x Hl.
  - cbn [Str.join]. apply Split_lacks. now inversion Hl.
  - inversion Hl as [|? ? Hx Hrest]; subst.
    change (Str.join (String sep "") (x :: y :: l))
      with (x +:+ String sep "" +:+ Str.join (String sep "") (y :: l)).
    rewrite append_cons, append_nil_l, Split_app_sep, (Split_lacks x) by exact Hx.
    rewrite IH by exact Hrest. reflexivity.
Qed.

(** ** [Values.Encode] and [url.ParseQuery] *)

Lemma parsePair_escaped k x :
  url.parsePair (url.QueryEscape k +:+ "=" +:+ url.QueryEscape x) = Some (k, x).
Proof.
  unfold url.parsePair.
  assert (Hne : String.eqb (url.QueryEscape k +:+ "=" +:+ url.QueryEscape x) "" = false).
  { apply String.eqb_neq. intros H. apply append_eq_empty in H as [_ H]. discriminate H. }
  rewrite Hne.
  assert (Hsemi : lacks ";" (url.QueryEscape k +:+ "=" +:+ url.QueryEscape x) = true).
  { rewrite !lacks_app, !QueryEscape_lacks by (reflexivity || discriminate). reflexivity. }
  rewrite (count_lacks _ _ Hsemi). cbn [Nat.ltb Nat.leb].
  rewrite Cut_app_lacks by (apply QueryEscape_lacks; reflexivity || discriminate).
  rewrite append_cons, append_nil_l. cbn [Str.Cut Ascii.eqb Bool.eqb fst snd].
  rewrite append_empty_r. cbn [default from_option id]. rewrite !QueryUnescape_Escape. reflexivity.
Qed.

Lemma piece_lacks_amp k x :
  lacks "&" (url.QueryEscape k +:+ "=" +:+ url.QueryEscape x) = true.
Proof. rewrite !lacks_app, !QueryEscape_lacks by (reflexivity || discriminate). reflexivity. Qed.

Lemma get_insert (m : url.Values) k k' l :
  url.get (<[k := l]> m) k' = if decide (k = k') then l else url.get m k'.
Proof.
  unfold url.get. destruct (decide (k = k')) as [->|Hne].
  - rewrite lookup_insert_eq. reflexivity.
  - rewrite lookup_insert_ne by exact Hne. reflexivity.
Qed.

(** The values [ParseQuery] collects for a key: those of the pieces with
    that key, in their order. *)
Lemma get_fold_pieces (flat : list (string * string)) (m : url.Values) k :
  url.get
    (fold_left
       (fun m piece =>
          match url.parsePair piece with
          | Some (k, v) => <[k := (url.get m k ++ [v])%list]> m
          | None => m
          end)
       (map (fun p => url.QueryEscape p.1 +:+ "=" +:+ url.QueryEscape p.2) flat) m) k
  = (url.get m k ++ map snd (filter (fun p => p.1 = k) flat))%list.
Proof.
  revert m. induction flat as [|[k' x] flat IH]; intros m.
  - cbn. rewrite app_nil_r. reflexivity.
  - cbn [map fold_left fst snd]. rewrite parsePair_escaped, IH, get_insert.
    rewrite filter_cons. cbn [fst]. destruct (decide (k' = k)) as [->|Hne].
    + cbn [map snd]. rewrite <- app_assoc. reflexivity.
    + reflexivity.
Qed.

Lemma insert_sorted_perm kv l : url.insert_sorted kv l ≡ₚ kv :: l.
Proof.
  induction l as [|kv' l IH]; [reflexivity |].
  cbn [url.insert_sorted]. destruct (String.leb _ _); [reflexivity |].
  rewrite IH. apply Permutation_swap.
Qed.

Lemma sorted_pairs_perm (v : url.Values) : url.sorted_pairs v ≡ₚ map_to_list v.
Proof.
  unfold url.sorted_pairs. induction (map_to_list v) as [|kv l IH]; [reflexivity |].
  cbn [foldr]. rewrite insert_sorted_perm, IH. reflexivity.
Qed.

Lemma filter_key_unique (l : list (string * list string)) k :
  NoDup l.*1 ->
  (filter (fun kv => kv.1 = k) l = [] /\ k ∉ l.*1) \/
  (exists vs, filter (fun kv => kv.1 = k) l = [(k, vs)] /\ (k, vs) ∈ l).
Proof.
  induction l as [|[k' vs'] l IH]; intros Hnd.
  - left. split; [reflexivity | apply not_elem_of_nil].
  - cbn [fmap list_fmap fst] in Hnd. apply NoDup_cons in Hnd as [Hk' Hnd].
    rewrite filter_cons. cbn [fst]. destruct (decide (k' = k)) as [->|Hne].
    + right. exists vs'. split; [| apply elem_of_cons; auto].
      destruct (IH Hnd) as [[-> _] | (vs & _ & Hin)]; [reflexivity |].
      exfalso. apply Hk'. apply list_elem_of_fmap. exists (k, vs). auto.
    + destruct (IH Hnd) as [[Hf Hni] | (vs & Hf & Hin)].
      * left. split; [exact Hf |]. cbn [fmap list_fmap fst]. rewrite not_elem_of_cons. auto.
      * right. exists vs. split; [exact Hf | apply elem_of_cons; auto].
Qed.

Lemma filter_key_sorted_pairs (v : url.Values) k :
  concat (map snd (filter (fun kv => kv.1 = k) (url.sorted_pairs v))) = url.get v k.
Proof.
  pose proof (sorted_pairs_perm v) as Hperm.
  assert (Hnd : NoDup (url.sorted_pairs v).*1).
  { rewrite Hperm. apply NoDup_fst_map_to_list. }
  unfold url.get.
  destruct (filter_key_unique _ k Hnd) as [[-> Hni] | (vs & -> & Hin)].
  - destruct (v !! k) as [vs|] eqn:Hk; [| reflexivity].
    exfalso. apply Hni. apply list_elem_of_fmap. exists (k, vs). split; [reflexivity |].
    apply sorted_pairs_elem, elem_of_map_to_list, Hk.
  - apply sorted_pairs_elem, elem_of_map_to_list in Hin. rewrite Hin.
    cbn. apply app_nil_r.
Qed.

Lemma filter_key_flat (pairs : list (string * list string)) k :
  map snd (filter (fun p : string * string => p.1 = k)
             (concat (map (fun kv : string * list string => map (fun x => (kv.1, x)) kv.2) pairs)))
  = concat (map snd (filter (fun kv => kv.1 = k) pairs)).
Proof.
  induction pairs as [|[k' vs] pairs IH]; [reflexivity |].
  cbn [map concat fst snd]. rewrite filter_app, map_app, IH, filter_cons. cbn [fst].
  assert (Hall : forall l : list string,
             map snd (filter (fun p : string * string => p.1 = k) (map (fun x => (k', x)) l))
             = if decide (k' = k) then l else []).
  { induction l as [|x l IHl]; [destruct (decide (k' = k)); reflexivity |].
    cbn [map]. rewrite filter_cons. cbn [fst]. destruct (decide (k' = k)).
    - cbn [map snd]. rewrite IHl. reflexivity.
    - exact IHl. }
  rewrite Hall. destruct (decide (k' = k)); reflexivity.
Qed.

Lemma Encode_pieces (v : url.Values) :
  url.Encode v =
  Str.join "&"
    (map (fun p : string * string => url.QueryEscape p.1 +:+ "=" +:+ url.QueryEscape p.2)
       (concat (map (fun kv : string * list string => map (fun x => (kv.1, x)) kv.2)
                  (url.sorted_pairs v)))).
Proof.
  unfold url.Encode. f_equal.
  induction (url.sorted_pairs v) as [|kv l IH]; [reflexivity |].
  cbn [map concat]. rewrite map_app, IH, map_map. reflexivity.
Qed.

(** What is encoded is what is parsed: key by key, the values and their
    order. *)
Lemma get_ParseQuery_Encode (v : url.Values) k :
  url.get (url.ParseQuery (url.Encode v)) k = url.get v k.
Proof.
  rewrite Encode_pieces. unfold url.ParseQuery.
  set (flat := concat _).
  assert (Hflat : map snd (filter (fun p : string * string => p.1 = k) flat) = url.get v k).
  { subst flat. rewrite filter_key_flat. apply filter_key_sorted_pairs. }
  destruct flat as [|p flat'] eqn:Hf.
  - cbn in Hflat. rewrite <- Hflat. reflexivity.
  - assert (Hsplit : forall l : list (string * string), l <> [] ->
              Str.Split (Str.join "&" (map (fun p : string * string =>
                           url.QueryEscape p.1 +:+ "=" +:+ url.QueryEscape p.2) l)) "&"
              = map (fun p : string * string =>
                       url.QueryEscape p.1 +:+ "=" +:+ url.QueryEscape p.2) l).
    { intros [|q l] Hl; [congruence |]. cbn [map]. apply Split_join.
      change (Forall (fun s => lacks "&" s = true)
                (map (fun p : string * string =>
                        url.QueryEscape p.1 +:+ "=" +:+ url.QueryEscape p.2) (q :: l))).
      apply Forall_forall. intros x Hx.
      apply list_elem_of_In, in_map_iff in Hx as (q' & <- & _). apply piece_lacks_amp. }
    rewrite Hsplit by discriminate. rewrite get_fold_pieces, Hflat. reflexivity.
Qed.

(** ** [url.Parse] and [URL.String] *)

Lemma Cut_fst_lacks s sep : lacks sep (fst (Str.Cut s sep)) = true.
Proof.
  unfold lacks. induction s as [|c s IH]; [reflexivity |].
  cbn [Str.Cut]. destruct (Ascii.eqb c sep) eqn:Hc; [reflexivity |].
  destruct (Str.Cut s sep) as [b a]. cbn [fst string_forall] in *. rewrite Hc, IH. reflexivity.
Qed.

Lemma Cut_fst_keeps s sep c :
  lacks c s = true -> lacks c (fst (Str.Cut s sep)) = true.
Proof.
  unfold lacks. induction s as [|c' s IH]; [reflexivity |].
  cbn [Str.Cut string_forall]. rewrite andb_true_iff. intros [Hc Hs].
  destruct (Ascii.eqb c' sep); [reflexivity |].
  destruct (Str.Cut s sep) as [b a]. cbn [fst string_forall] in *. rewrite Hc, (IH Hs). reflexivity.
Qed.

Lemma drop_last_app s c : url.drop_last (s +:+ String c "") = s.
Proof.
  induction s as [|c' s IH]; [reflexivity |].
  rewrite append_cons.
  destruct (s +:+ String c "") as [|a t] eqn:Happ.
  - apply append_eq_empty in Happ as [_ H]. discriminate H.
  - change (url.drop_last (String c' (String a t))) with (String c' (url.drop_last (String a t))).
    rewrite IH. reflexivity.
Qed.

Lemma count_app_last s c sep :
  url.count (s +:+ String c "") sep = (url.count s sep + (if Ascii.eqb c sep then 1 else 0))%nat.
Proof.
  induction s as [|c' s IH].
  - rewrite append_nil_l. cbn [url.count]. lia.
  - rewrite append_cons. cbn [url.count]. rewrite IH. lia.
Qed.

Lemma count_zero_lacks s sep : url.count s sep = O -> lacks sep s = true.
Proof.
  unfold lacks. induction s as [|c s IH]; [reflexivity |].
  cbn [url.count string_forall]. destruct (Ascii.eqb c sep); [discriminate |].
  intros H. rewrite (IH H). reflexivity.
Qed.

Lemma last_is_split s sep :
  url.last_is s sep = true -> exists s', s = s' +:+ String sep "".
Proof.
  induction s as [|c s IH]; [discriminate |].
  cbn [url.last_is]. destruct s as [|c' s'].
  - intros H. apply Ascii.eqb_eq in H as ->. exists "". reflexivity.
  - intros H. destruct (IH H) as [t Ht]. exists (String c t). rewrite append_cons, <- Ht. reflexivity.
Qed.

Lemma ctl_drop_last s :
  url.stringContainsCTLByte s = false -> url.stringContainsCTLByte (url.drop_last s) = false.
Proof.
  induction s as [|c s IH]; [reflexivity |].
  cbn [url.stringContainsCTLByte]. rewrite orb_false_iff. intros [Hc Hs].
  cbn [url.drop_last]. destruct s as [|c' s']; [reflexivity |].
  cbn [url.stringContainsCTLByte]. rewrite Hc. exact (IH Hs).
Qed.

(** What [Parse] leaves before the query: no '#', no '?', no control
    byte. *)
Lemma Parse_Prefix raw u :
  url.Parse raw = Some u ->
  lacks "#" (url.Prefix u) = true /\ lacks "?" (url.Prefix u) = true /\
  url.stringContainsCTLByte (url.Prefix u) = false.
Proof.
  unfold url.Parse.
  pose proof (Cut_fst_lacks raw "#") as Hhash.
  destruct (Str.Cut raw "#") as [pre frag]. cbn [fst] in Hhash.
  destruct (url.stringContainsCTLByte pre) eqn:Hctl; [discriminate |].
  destruct (url.last_is pre "?" && Nat.eqb (url.count pre "?") 1) eqn:Hforce.
  - intros [= <-]. cbn [url.Prefix].
    apply andb_true_iff in Hforce as [Hlast Hcount]. apply Nat.eqb_eq in Hcount.
    destruct (last_is_split _ _ Hlast) as [s' ->].
    rewrite drop_last_app. rewrite count_app_last in Hcount. cbn [Ascii.eqb Bool.eqb] in Hcount.
    rewrite lacks_app in Hhash. apply andb_true_iff in Hhash as [Hhash _].
    rewrite ctl_app in Hctl. apply orb_false_iff in Hctl as [Hctl _].
    split; [exact Hhash |]. split; [apply count_zero_lacks; lia | exact Hctl].
  - pose proof (Cut_fst_lacks pre "?") as Hq.
    pose proof (Cut_fst_keeps pre "?" "#" Hhash) as Hh.
    pose proof (ctl_Cut pre "?" Hctl) as Hc.
    destruct (Str.Cut pre "?") as [rest rawq]. intros [= <-]. cbn [url.Prefix fst] in *. auto.
Qed.

(** A URL whose query is replaced by an encoded one reads back from its
    text: the same text before the query, that query, the same
    fragment. *)
Lemma Parse_String_Encode u (v : url.Values) :
  lacks "#" (url.Prefix u) = true -> lacks "?" (url.Prefix u) = true ->
  url.stringContainsCTLByte (url.Prefix u) = false ->
  exists u',
    url.Parse (url.String_ (url.withRawQuery u (url.Encode v))) = Some u' /\
    url.Prefix u' = url.Prefix u /\ url.RawQuery u' = url.Encode v /\
    url.Fragment u' = url.Fragment u.
Proof.
  intros Hhash Hq Hctl.
  assert (Hpieces : forall sep, url.unreserved sep = false -> sep <> "+"%char -> sep <> "%"%char ->
                       sep <> "="%char -> sep <> "&"%char -> lacks sep (url.Encode v) = true).
  { intros sep H1 H2 H3 H4 H5. rewrite Encode_pieces.
    set (flat := concat _). clearbody flat.
    assert (Hp : forall p : string * string,
               lacks sep (url.QueryEscape p.1 +:+ "=" +:+ url.QueryEscape p.2) = true).
    { intros p. rewrite !lacks_app, !QueryEscape_lacks by assumption.
      unfold lacks. cbn [string_forall]. destruct (Ascii.eqb_spec "="%char sep); [congruence | reflexivity]. }
    induction flat as [|p [|p' flat] IH]; [reflexivity | apply Hp |].
    change (lacks sep ((url.QueryEscape p.1 +:+ "=" +:+ url.QueryEscape p.2) +:+ "&"
                       +:+ Str.join "&" (map (fun p : string * string =>
                             url.QueryEscape p.1 +:+ "=" +:+ url.QueryEscape p.2) (p' :: flat)))
            = true).
    rewrite lacks_app, Hp, lacks_app, IH. unfold lacks. cbn [string_forall].
    destruct (Ascii.eqb_spec "&"%char sep); [congruence | reflexivity]. }
  assert (Hectl : url.stringContainsCTLByte (url.Encode v) = false).
  { rewrite Encode_pieces. set (flat := concat _). clearbody flat.
    assert (Hp : forall p : string * string,
               url.stringContainsCTLByte
                 (url.QueryEscape p.1 +:+ "=" +:+ url.QueryEscape p.2) = false).
    { intros p. rewrite !ctl_app, !QueryEscape_no_ctl. reflexivity. }
    induction flat as [|p [|p' flat] IH]; [reflexivity | apply Hp |].
    change (url.stringContainsCTLByte
              ((url.QueryEscape p.1 +:+ "=" +:+ url.QueryEscape p.2) +:+ "&"
               +:+ Str.join "&" (map (fun p : string * string =>
                     url.QueryEscape p.1 +:+ "=" +:+ url.QueryEscape p.2) (p' :: flat)))
            = false).
    rewrite ctl_app, Hp, ctl_app, IH. reflexivity. }
  pose proof (Hpieces "#"%char eq_refl ltac:(discriminate) ltac:(discriminate)
                ltac:(discriminate) ltac:(discriminate)) as Heh.
  pose proof (Hpieces "?"%char eq_refl ltac:(discriminate) ltac:(discriminate)
                ltac:(discriminate) ltac:(discriminate)) as Heq.
  set (enc := url.Encode v) in *. clearbody enc.
  destruct u as [pre force rawq frag]. cbn [url.Prefix url.Fragment] in *.
  unfold url.String_, url.withRawQuery. cbn [url.Prefix url.ForceQuery url.RawQuery url.Fragment].
  set (qpart := if force || negb (String.eqb enc "") then "?" +:+ enc else "").
  assert (Hqh : lacks "#" (pre +:+ qpart) = true).
  { subst qpart. rewrite lacks_app, Hhash. destruct (force || _); [| reflexivity].
    rewrite lacks_app, Heh. reflexivity. }
  assert (Hqc : url.stringContainsCTLByte (pre +:+ qpart) = false).
  { subst qpart. rewrite ctl_app, Hctl. destruct (force || _); [| reflexivity].
    rewrite ctl_app, Hectl. reflexivity. }
  assert (Hcut : Str.Cut (pre +:+ qpart +:+ (if negb (String.eqb frag "") then "#" +:+ frag else ""))
                   "#" = (pre +:+ qpart, if negb (String.eqb frag "") then Some frag else None)).
  { rewrite <- append_assoc. rewrite Cut_app_lacks by exact Hqh.
    destruct (String.eqb_spec frag "") as [->|Hf]; cbn [negb].
    - cbn [Str.Cut fst snd]. rewrite append_empty_r. reflexivity.
    - rewrite append_cons, append_nil_l. cbn [Str.Cut Ascii.eqb Bool.eqb fst snd].
      rewrite append_empty_r. reflexivity. }
  assert (Hfrag : default "" (if negb (String.eqb frag "") then Some frag else None) = frag).
  { destruct (String.eqb_spec frag "") as [->|Hf]; reflexivity. }
  unfold url.Parse. rewrite Hcut, Hqc, Hfrag.
  subst qpart. destruct (String.eqb_spec enc "") as [->|Hne]; cbn [negb orb].
  - rewrite orb_false_r. destruct force.
    + rewrite ?append_nil_l, ?append_empty_r.
      rewrite last_is_app by discriminate. cbn [url.last_is Ascii.eqb Bool.eqb andb].
      rewrite count_app_last, (count_lacks _ _ Hq). cbn [Ascii.eqb Bool.eqb Nat.add Nat.eqb].
      rewrite drop_last_app. eexists; split; [reflexivity |]. auto.
    + rewrite ?append_nil_l, ?append_empty_r, (last_is_lacks _ _ Hq). cbn [andb].
      rewrite (Cut_lacks _ _ Hq). eexists; split; [reflexivity |]. auto.
  - rewrite orb_true_r.
    assert (Hlast : url.last_is (pre +:+ "?" +:+ enc) "?" = false).
    { rewrite last_is_app by (intros H; apply append_eq_empty in H as [H _]; discriminate H).
      rewrite last_is_app by exact Hne. apply last_is_lacks, Heq. }
    rewrite Hlast. cbn [andb].
    rewrite Cut_app_lacks by exact Hq. rewrite append_cons, append_nil_l.
    cbn [Str.Cut Ascii.eqb Bool.eqb fst snd]. rewrite append_empty_r.
    eexists; split; [reflexivity |]. auto.
Qed.

(** ** The links of [ctLink] *)

Section Links.

Variable E : Env.

Lemma ctHref_query b ct u :
  url.Parse b = Some u ->
  exists u',
    url.Parse (ctHref E b ct) = Some u' /\
    url.Prefix u' = url.Prefix u /\
    url.Fragment u' = url.Fragment u /\
    forall k,
      url.get (url.Query u') k =
      if negb (String.eqb ct (DefaultMimeType E)) && String.eqb k "f"
      then [ct] else url.get (url.Query u) k.
Proof.
  intros Hu. destruct (Parse_Prefix _ _ Hu) as (Hh & Hq & Hc).
  unfold ctHref. rewrite Hu. cbv zeta.
  destruct (Parse_String_Encode u
              (if String.eqb ct (DefaultMimeType E) then url.Query u
               else <["f" := [ct]]> (url.Query u)) Hh Hq Hc) as (u' & Hu' & Hp & Hr & Hf).
  exists u'. split; [exact Hu' |]. split; [exact Hp |]. split; [exact Hf |].
  intros k. unfold url.Query at 1. rewrite Hr, get_ParseQuery_Encode.
  destruct (String.eqb ct (DefaultMimeType E)); cbn [negb andb]; [reflexivity |].
  rewrite get_insert. destruct (String.eqb_spec k "f") as [->|Hne].
  - rewrite decide_True by reflexivity. reflexivity.
  - rewrite decide_False by congruence. reflexivity.
Qed.

End Links.

(** ** The query parameter blocks of [collectionData] *)

Lemma Split_pieces_lack s sep : Forall (fun p => lacks sep p = true) (Str.Split s sep).
Proof.
  induction s as [|c s IH]; [repeat constructor |].
  cbn [Str.Split]. destruct (Ascii.eqb c sep) eqn:Hc; [constructor; [reflexivity | exact IH] |].
  destruct (Str.Split s sep) as [|h t]; [repeat constructor; unfold lacks; cbn; now rewrite Hc |].
  inversion IH as [|? ? Hh Ht]; subst. constructor; [| exact Ht].
  unfold lacks in *. cbn [string_forall]. rewrite Hc, Hh. reflexivity.
Qed.

Section ParameterBlocks.

Variable E : Env.

(** X1: the limit block. A limit that parses is capped at the configured
    maximum; the default of 10 is used, uncapped, unless the parameter
    occurs exactly once; the only error is a single value that is no
    unsigned 64-bit number. *)
Theorem limit_block (q : url.Values) :
  (forall n, Uint.in_range n -> url.get q "limit" = [Str.decimal n] ->
             limitParam E q = inr (Z.min n (Uint.wrap (MaxLimit E)))) /\
  (forall l, limitParam E q = inr l ->
             l <= Uint.wrap (MaxLimit E) \/
             (l = DEFAULT_RESULT_LIMIT /\ length (url.get q "limit") <> 1%nat)) /\
  (forall e, limitParam E q = inl e ->
             exists s err, url.get q "limit" = [s] /\ strconv.ParseUint s = inl err /\
                           e = mkHandlerError "NoApplicableCode"
                                 (strconv.NumError_Error "ParseUint" s err)).
Proof.
  unfold limitParam. split; [| split].
  - intros n Hn ->. rewrite (ParseUint_decimal n Hn). cbv zeta. f_equal.
    destruct (Z.ltb_spec (Uint.wrap (MaxLimit E)) n); lia.
  - intros l. destruct (url.get q "limit") as [|s [|s' rest]].
    + intros [= <-]. right. split; [reflexivity | discriminate].
    + destruct (strconv.ParseUint s) as [err|ps]; [discriminate |]. cbv zeta.
      intros [= <-]. left. destruct (Z.ltb_spec (Uint.wrap (MaxLimit E)) ps); lia.
    + intros [= <-]. right. split; [reflexivity | discriminate].
  - intros e. destruct (url.get q "limit") as [|s [|s' rest]]; try discriminate.
    destruct (strconv.ParseUint s) as [err|ps] eqn:Hps; [| discriminate].
    intros [= <-]. exists s, err. auto.
Qed.

(** The items of a bounding box parse one by one. *)
Lemma bboxItems_ok raw i items xs :
  bboxItems E raw i items = inr xs <-> Forall2 (fun p x => ParseFloat E p = Some x) items xs.
Proof.
  revert i xs. induction items as [|p items IH]; intros i xs; cbn [bboxItems].
  - split; [intros [= <-]; constructor | intros H; inversion H; reflexivity].
  - destruct (ParseFloat E p) as [x|] eqn:Hp.
    + destruct (bboxItems E raw (i + 1) items) as [e|xs'] eqn:Hrest.
      * split; [discriminate |]. intros H. inversion H as [|? ? ? ? Hx Hxs]; subst.
        apply (IH (i + 1)) in Hxs. congruence.
      * split.
        -- intros [= <-]. constructor; [exact Hp | apply (IH (i + 1)), Hrest].
        -- intros H. inversion H as [|? ? ? ? Hx Hxs]; subst.
           apply (IH (i + 1)) in Hxs. congruence.
    + split; [discriminate |]. intros H. inversion H; congruence.
Qed.

(** The error of a bounding box names the first item that does not
    parse, counting from 1. *)
Lemma bboxItems_error raw i items e :
  bboxItems E raw i items = inl e ->
  exists (j : nat) p,
    items !! j = Some p /\ ParseFloat E p = None /\
    Forall (fun p' => is_Some (ParseFloat E p')) (take j items) /\
    e = mkHandlerError "InvalidParameterValue"
          ("'bbox' parameter has invalid format for item " +:+ Str.decimal (i + Z.of_nat j + 1)
           +:+ "/4: '" +:+ p +:+ "' / '" +:+ raw +:+ "'").
Proof.
  revert i. induction items as [|p items IH]; intros i; cbn [bboxItems]; [discriminate |].
  destruct (ParseFloat E p) as [x|] eqn:Hp.
  - destruct (bboxItems E raw (i + 1) items) as [e'|xs'] eqn:Hrest; [| discriminate].
    intros [= <-]. destruct (IH (i + 1) Hrest) as (j & p' & Hj & Hp' & Hbefore & ->).
    exists (S j), p'. split; [exact Hj |]. split; [exact Hp' |].
    split; [cbn [take]; constructor; [rewrite Hp; eauto | exact Hbefore] |].
    do 4 f_equal. lia.
  - intros [= <-]. exists O, p. split; [reflexivity |]. split; [exact Hp |].
    split; [constructor |]. do 4 f_equal. lia.
Qed.

(** X2: the bbox block. Without the parameter there is no bounding box; a
    bounding box is the four numbers of a single value with four
    comma-separated items, each of which parses. *)
Theorem bbox_block (q : url.Values) :
  (bboxParam E q = inr None <-> url.get q "bbox" = []) /\
  (forall xs,
      bboxParam E q = inr (Some xs) <->
      exists b, url.get q "bbox" = [b] /\ length (Str.Split b ",") = 4%nat /\
                Forall2 (fun p x => ParseFloat E p = Some x) (Str.Split b ",") xs) /\
  (forall xs, bboxParam E q = inr (Some xs) -> length xs = 4%nat).
Proof.
  assert (Hsome : forall xs,
             bboxParam E q = inr (Some xs) <->
             exists b, url.get q "bbox" = [b] /\ length (Str.Split b ",") = 4%nat /\
                       Forall2 (fun p x => ParseFloat E p = Some x) (Str.Split b ",") xs).
  { intros xs. unfold bboxParam. destruct (url.get q "bbox") as [|b [|b' rest]].
    - split; [discriminate | intros (b & H & _); discriminate].
    - cbv zeta. destruct (Nat.eqb_spec (length (Str.Split b ",")) 4) as [Hlen|Hlen]; cbn [negb].
      + destruct (bboxItems E b 0 (Str.Split b ",")) as [e|xs'] eqn:Hitems.
        * split; [discriminate |]. intros (b0 & [= <-] & _ & Hall).
          apply (bboxItems_ok b 0) in Hall. congruence.
        * split.
          -- intros [= <-]. exists b. split; [reflexivity |]. split; [exact Hlen |].
             apply (bboxItems_ok b 0), Hitems.
          -- intros (b0 & [= <-] & _ & Hall). apply (bboxItems_ok b 0) in Hall. congruence.
      + split; [discriminate |]. intros (b0 & [= <-] & Hl & _). contradiction.
    - split; [discriminate | intros (b0 & H & _); discriminate]. }
  split; [| split; [exact Hsome |]].
  - unfold bboxParam. destruct (url.get q "bbox") as [|b [|b' rest]].
    + split; reflexivity.
    + cbv zeta. split; [| discriminate].
      destruct (negb _); [discriminate |].
      destruct (bboxItems E b 0 (Str.Split b ",")); discriminate.
    + split; discriminate.
  - intros xs H. apply Hsome in H as (b & _ & Hlen & Hall).
    apply Forall2_length in Hall. congruence.
Qed.

(** X3: the time block. The time properties are empty without the
    parameter, a [timestamp] for a value without '/', and a [start_time]
    and a [stop_time] for a value with one '/'; nothing else is
    accepted. *)
Theorem time_block (q : url.Values) (tp : gmap string string) :
  timeParam q = inr tp <->
  (url.get q "time" = [] /\ tp = ∅) \/
  (exists t, url.get q "time" = [t] /\ lacks "/" t = true /\ tp = {[ "timestamp" := t ]}) \/
  (exists a b, url.get q "time" = [a +:+ "/" +:+ b] /\ lacks "/" a = true /\ lacks "/" b = true /\
               tp = <["stop_time" := b]> {[ "start_time" := a ]}).
Proof.
  unfold timeParam. destruct (url.get q "time") as [|t [|t' rest]].
  - split.
    + intros [= <-]. left. auto.
    + intros [[_ ->] | [(t & H & _) | (a & b & H & _)]]; [reflexivity | discriminate..].
  - pose proof (join_Split t "/") as Hjoin. pose proof (Split_pieces_lack t "/") as Hlack.
    destruct (Str.Split t "/") as [|ts0 [|ts1 [|ts2 more]]] eqn:Hsplit.
    + exfalso. exact (Split_nonempty t "/" Hsplit).
    + cbn [Str.join] in Hjoin. subst ts0. inversion Hlack as [|? ? Ht _]; subst. split.
      * intros [= <-]. right. left. exists t. auto.
      * intros [[H _] | [(t0 & [= <-] & _ & ->) | (a & b & [= ->] & Ha & Hb & ->)]];
          [discriminate | reflexivity |].
        exfalso. rewrite append_cons, append_nil_l, Split_app_sep in Hsplit.
        rewrite (Split_lacks a), (Split_lacks b) in Hsplit by assumption. discriminate Hsplit.
    + change (Str.join "/" [ts0; ts1]) with (ts0 +:+ "/" +:+ ts1) in Hjoin. subst t.
      inversion Hlack as [|? ? H0 Hl']; subst. inversion Hl' as [|? ? H1 _]; subst. split.
      * intros [= <-]. right. right. exists ts0, ts1. auto.
      * intros [[H _] | [(t0 & [= <-] & Ht & ->) | (a & b & [= Hab] & Ha & Hb & ->)]];
          [discriminate | |].
        -- exfalso. rewrite (Split_lacks _ _ Ht) in Hsplit. discriminate Hsplit.
        -- rewrite Hab in Hsplit. rewrite append_cons, append_nil_l, Split_app_sep in Hsplit.
           rewrite (Split_lacks a), (Split_lacks b) in Hsplit by assumption.
           injection Hsplit as -> ->. reflexivity.
    + split; [discriminate |].
      intros [[H _] | [(t0 & [= <-] & Ht & ->) | (a & b & [= Hab] & Ha & Hb & ->)]];
        [discriminate | |].
      * rewrite (Split_lacks _ _ Ht) in Hsplit. discriminate Hsplit.
      * rewrite Hab in Hsplit. rewrite append_cons, append_nil_l, Split_app_sep in Hsplit.
        rewrite (Split_lacks a), (Split_lacks b) in Hsplit by assumption. discriminate Hsplit.
  - split; [discriminate |].
    intros [[H _] | [(t0 & H & _) | (a & b & H & _)]]; discriminate.
Qed.

(** The time properties have none of the reserved names. *)
Lemma timeParam_keys (q : url.Values) (tp : gmap string string) :
  timeParam q = inr tp -> forall k, k ∈ reservedQParams -> tp !! k = None.
Proof.
  unfold timeParam. intros Ht k Hk.
  assert (Hne : k <> "timestamp" /\ k <> "start_time" /\ k <> "stop_time").
  { unfold reservedQParams in Hk.
    repeat (apply elem_of_cons in Hk as [-> | Hk]; [repeat split; discriminate |]).
    inversion Hk. }
  destruct Hne as (H1 & H2 & H3).
  destruct (url.get q "time") as [|t [|t' rest]]; [| | discriminate Ht].
  - injection Ht as <-. apply lookup_empty.
  - destruct (Str.Split t "/") as [|ts0 [|ts1 [|ts2 more]]]; try discriminate Ht.
    + injection Ht as <-. apply lookup_singleton_None. congruence.
    + injection Ht as <-. rewrite lookup_insert_None, lookup_singleton_None.
      split; congruence.
Qed.

(** X4: the property filters. No reserved parameter ([f], [page],
    [limit], [time], [bbox]) is passed on as a filter; a time property
    replaces a parameter of the same name; every other parameter is
    passed on with its first value. *)
Theorem property_filters (q : url.Values) (tp : gmap string string) :
  timeParam q = inr tp ->
  (forall k, k ∈ reservedQParams -> propertyFilters q tp !! k = None) /\
  (forall k v, tp !! k = Some v -> propertyFilters q tp !! k = Some v) /\
  (forall k, k ∉ reservedQParams -> tp !! k = None ->
             propertyFilters q tp !! k = (fun v => default "" (head v)) <$> q !! k).
Proof.
  intros Ht. pose proof (timeParam_keys q tp Ht) as Hkeys.
  unfold propertyFilters. split; [| split].
  - intros k Hk. rewrite lookup_union_r by (apply Hkeys, Hk).
    rewrite lookup_fmap, map_lookup_filter_None_2; [reflexivity |].
    right. intros x _ Hx. cbn in Hx. contradiction.
  - intros k v Hv. apply lookup_union_Some_l. exact Hv.
  - intros k Hk Hnone. rewrite lookup_union_r by exact Hnone.
    rewrite lookup_fmap. f_equal.
    destruct (q !! k) as [vs|] eqn:Hq.
    + apply map_lookup_filter_Some. split; [exact Hq | exact Hk].
    + apply map_lookup_filter_None. left. exact Hq.
Qed.

End ParameterBlocks.

(** ** The content builders *)

Section BuilderFacts.

Variable E : Env.

(** A page inside the collection is the window of the provider's list. *)
Lemma pageFeatures_window cName bbox properties limit pageNum cfs :
  CollectionFeatures E cName properties bbox = inr cfs ->
  Uint.in_range limit -> Uint.in_range pageNum ->
  Z.of_nat (length cfs) <= Uint.max_int ->
  limit * pageNum < Z.of_nat (length cfs) ->
  pageFeatures E cName bbox properties limit pageNum =
  map (toGeoJSON E)
    (take (Z.to_nat (Z.min limit (Z.of_nat (length cfs) - limit * pageNum)))
       (drop (Z.to_nat (limit * pageNum)) cfs)).
Proof.
  intros Hc Hl Hp Hlen Hwin.
  destruct (window_no_overflow _ _ _ Hl Hp Hwin Hlen) as [Hmul Hadd].
  unfold pageFeatures, FeatureCollectionData. cbv zeta.
  rewrite Hc, (wrap_length cfs Hlen), Hmul, Hadd.
  set (total := Z.of_nat (length cfs)) in *.
  unfold Uint.in_range in *.
  destruct (Z.leb_spec total (limit * pageNum)); [lia |]. cbn [orb].
  destruct (Z.ltb_spec total (limit * pageNum + limit)) as [Hlt|Hge].
  - destruct (Z.ltb_spec total (limit * pageNum)); [lia |].
    cbn [Features]. unfold slice. do 2 f_equal. lia.
  - destruct (Z.ltb_spec (limit * pageNum + limit) (limit * pageNum)); [lia |].
    cbn [Features]. unfold slice. do 2 f_equal. lia.
Qed.

Lemma pages_prefix cName bbox properties limit cfs (m : nat) :
  CollectionFeatures E cName properties bbox = inr cfs ->
  Uint.in_range limit -> 0 < limit ->
  Z.of_nat (length cfs) <= Uint.max_int ->
  limit * (Z.of_nat m - 1) < Z.of_nat (length cfs) ->
  concat (map (fun p => pageFeatures E cName bbox properties limit (Z.of_nat p)) (seq 0 m))
  = map (toGeoJSON E) (take (Z.to_nat (limit * Z.of_nat m)) cfs).
Proof.
  intros Hc Hl Hpos Hlen. induction m as [|m IH]; intros Hm.
  - replace (Z.to_nat (limit * Z.of_nat 0)) with O by lia. reflexivity.
  - rewrite seq_S, map_app, concat_app. cbn [map concat Nat.add]. rewrite app_nil_r.
    rewrite IH by lia.
    assert (Hp : Uint.in_range (Z.of_nat m)).
    { unfold Uint.in_range, Uint.max_int, Uint.modulus in *.
      assert (2 ^ 63 < 2 ^ 64) by reflexivity. nia. }
    rewrite (pageFeatures_window cName bbox properties limit (Z.of_nat m) cfs Hc Hl Hp Hlen)
      by lia.
    rewrite <- map_app. f_equal.
    set (total := Z.of_nat (length cfs)) in *.
    replace (Z.to_nat (limit * Z.of_nat (S m)))
      with (Z.to_nat (limit * Z.of_nat m) + Z.to_nat limit)%nat by lia.
    rewrite <- take_take_drop. f_equal.
    destruct (Z.le_gt_cases limit (total - limit * Z.of_nat m)) as [Hle|Hgt].
    + rewrite Z.min_l by exact Hle. reflexivity.
    + rewrite Z.min_r by lia.
      rewrite !take_ge; [reflexivity | |]; rewrite length_drop; subst total; lia.
Qed.

(** X5: paging through a collection. With a positive limit, the pages
    [0, 1, ...] up to the last one, one after the other, are the
    features of the provider, each once and in the provider's order. *)
Theorem pages_partition cName bbox properties limit cfs :
  CollectionFeatures E cName properties bbox = inr cfs ->
  Uint.in_range limit -> 0 < limit ->
  Z.of_nat (length cfs) <= Uint.max_int ->
  let pages := Z.to_nat ((Z.of_nat (length cfs) + limit - 1) / limit) in
  concat (map (fun p => pageFeatures E cName bbox properties limit (Z.of_nat p)) (seq 0 pages))
  = map (toGeoJSON E) cfs.
Proof.
  intros Hc Hl Hpos Hlen pages.
  set (total := Z.of_nat (length cfs)) in *.
  assert (Hdiv : limit * ((total + limit - 1) / limit) <= total + limit - 1
                 /\ total + limit - 1 < limit * ((total + limit - 1) / limit) + limit).
  { pose proof (Z.div_mod (total + limit - 1) limit ltac:(lia)) as Hdm.
    pose proof (Z.mod_pos_bound (total + limit - 1) limit Hpos). lia. }
  assert (Hq : 0 <= (total + limit - 1) / limit) by (apply Z.div_pos; subst total; lia).
  rewrite pages_prefix with (cfs := cfs); try assumption.
  - rewrite take_ge; [reflexivity |]. subst pages total. lia.
  - subst pages. fold total. lia.
Qed.

(** The entries and the links of the list of collections. *)
Lemma CollectionsMetaData_entries serveAddress names :
  CollectionNames E = inr names ->
  exists c,
    CollectionsMetaData E serveAddress false = (Some c, contentIdOf serveAddress, None) /\
    map Name (Collections c) = names /\
    Forall (fun ci => CollectionInfo_Links ci
                      = [mkLink (serveAddress +:+ "/collections/" +:+ Name ci) "self" ""])
      (Collections c) /\
    CollectionsInfo_Links c =
      concat (map (fun cn =>
                     [mkLink (serveAddress +:+ "/collections/" +:+ cn) "item" "";
                      mkLink (serveAddress +:+ "/collections/" +:+ cn +:+ "?f=text/html")
                        "item" "text/html"])
                names).
Proof.
  intros Hn. unfold CollectionsMetaData. rewrite Hn. cbv zeta.
  eexists. split; [reflexivity |].
  set (step := fun (csInfo : CollectionsInfo) (cn : string) => _).
  assert (Hgen : forall (l : list string) (acc : CollectionsInfo),
             let c := fold_left step l acc in
             map Name (Collections c) = (map Name (Collections acc) ++ l)%list /\
             (Forall (fun ci => CollectionInfo_Links ci
                                = [mkLink (serveAddress +:+ "/collections/" +:+ Name ci) "self" ""])
                (Collections acc) ->
              Forall (fun ci => CollectionInfo_Links ci
                                = [mkLink (serveAddress +:+ "/collections/" +:+ Name ci) "self" ""])
                (Collections c)) /\
             CollectionsInfo_Links c =
               (CollectionsInfo_Links acc ++
                concat (map (fun cn =>
                     [mkLink (serveAddress +:+ "/collections/" +:+ cn) "item" "";
                      mkLink (serveAddress +:+ "/collections/" +:+ cn +:+ "?f=text/html")
                        "item" "text/html"]) l))%list).
  { induction l as [|cn l IH]; intros acc; cbn [fold_left].
    - cbn. rewrite !app_nil_r. auto.
    - destruct (IH (step acc cn)) as (H1 & H2 & H3). cbv zeta.
      split; [| split].
      + rewrite H1. subst step. cbn [Collections]. rewrite map_app. cbn [map Name].
        rewrite <- app_assoc. reflexivity.
      + intros Hacc. apply H2. subst step. cbn [Collections].
        apply Forall_app. split; [exact Hacc |]. constructor; [reflexivity | constructor].
      + rewrite H3. subst step. cbn [CollectionsInfo_Links map concat].
        rewrite <- !app_assoc. reflexivity. }
  destruct (Hgen names (mkCollectionsInfo [] [])) as (H1 & H2 & H3).
  split; [exact H1 |]. split; [apply H2; constructor | exact H3].
Qed.

(** X6: the list of collections has an entry per name of the provider, in
    the provider's order, each with a self link; and for each name two
    item links, the second one for HTML. *)
Theorem CollectionsMetaData_listing serveAddress names :
  CollectionNames E = inr names ->
  exists c,
    CollectionsMetaData E serveAddress false = (Some c, contentIdOf serveAddress, None) /\
    map Name (Collections c) = names /\
    Forall (fun ci => CollectionInfo_Links ci
                      = [mkLink (serveAddress +:+ "/collections/" +:+ Name ci) "self" ""])
      (Collections c) /\
    CollectionsInfo_Links c =
      concat (map (fun cn =>
                     [mkLink (serveAddress +:+ "/collections/" +:+ cn) "item" "";
                      mkLink (serveAddress +:+ "/collections/" +:+ cn +:+ "?f=text/html")
                        "item" "text/html"])
                names).
Proof. exact (CollectionsMetaData_entries serveAddress names). Qed.

(** X7: a collection can be fetched by name exactly when the list of
    collections has it, and then under the same self link. *)
Theorem collection_listed_iff_found serveAddress names name :
  CollectionNames E = inr names ->
  (name ∈ names <->
   exists ci, fst (fst (CollectionMetaData E name serveAddress false)) = Some ci) /\
  (forall ci, fst (fst (CollectionMetaData E name serveAddress false)) = Some ci ->
     Name ci = name /\ Title ci = name /\
     exists c li,
       fst (fst (CollectionsMetaData E serveAddress false)) = Some c /\
       li ∈ Collections c /\ Name li = name /\
       CollectionInfo_Links li = CollectionInfo_Links ci).
Proof.
  intros Hn.
  assert (Hex : existsb (String.eqb name) names = true <-> name ∈ names).
  { rewrite existsb_exists. split.
    - intros (x & Hin & Heq). apply String.eqb_eq in Heq as <-. apply list_elem_of_In, Hin.
    - intros Hin. exists name. split; [apply list_elem_of_In, Hin | apply String.eqb_refl]. }
  unfold CollectionMetaData. rewrite Hn. cbv zeta.
  destruct (existsb (String.eqb name) names) eqn:Hv; cbn [negb fst].
  - assert (Hin : name ∈ names) by (apply Hex; reflexivity).
    split; [split; [intros _; eauto | intros _; exact Hin] |].
    intros ci [= <-]. cbn [Name Title CollectionInfo_Links]. split; [reflexivity |].
    split; [reflexivity |].
    destruct (CollectionsMetaData_entries serveAddress names Hn) as (c & Hc & Hnames & Hlinks & _).
    rewrite Hc. cbn [fst].
    assert (Hli : exists li, li ∈ Collections c /\ Name li = name).
    { rewrite <- Hnames in Hin. apply list_elem_of_In, in_map_iff in Hin as (li & Hname & Hli).
      exists li. split; [apply list_elem_of_In, Hli | exact Hname]. }
    destruct Hli as (li & Hli & Hname). exists c, li.
    split; [reflexivity |]. split; [exact Hli |]. split; [exact Hname |].
    rewrite Forall_forall in Hlinks. rewrite (Hlinks li Hli), Hname. reflexivity.
  - split; [| discriminate].
    split; [intros Hin; apply Hex in Hin; discriminate | intros [ci H]; discriminate H].
Qed.

End BuilderFacts.

(** ** The page links, read back *)




Section Follow.

Variable E : Env.


(** X8: a link of [ctLink], requested without a Content-Type header,
    negotiates the type it was made for, when the base link has no [f]
    of its own and the configured default type, if that is the type of
    the link, is JSON. *)
Theorem ctLink_negotiates b ct u (r' : Request) w :
  supportedContentType ct = true ->
  (ct = DefaultMimeType E -> ct = JSONContentType) ->
  url.Parse b = Some u ->
  url.get (url.Query u) "f" = [] ->
  supportedContentType (Header_Get (Header r') "Content-Type") = false ->
  exists href,
    ctLink E b ct w = (Continue href, w) /\
    (url.Parse href = Some (URL r') -> contentType r' = ct).
Proof.
  intros Hct Hdef Hu Hf Hh. exists (ctHref E b ct).
  split; [rewrite ctLink_supported by exact Hct; reflexivity |].
  destruct (ctHref_query E b ct u Hu) as (u' & Hu' & _ & _ & Hget).
  rewrite Hu'. intros [= Heq]. unfold contentType. rewrite <- Heq, Hh. cbv zeta.
  rewrite (Hget "f"). cbn [String.eqb Ascii.eqb Bool.eqb andb].
  destruct (String.eqb_spec ct (DefaultMimeType E)) as [He|Hne]; cbn [negb andb].
  - rewrite Hf. cbn. symmetry. exact (Hdef He).
  - destruct (String.eqb_spec ct "") as [->|Hne']; [discriminate Hct |]. cbn [negb].
    rewrite Hct. reflexivity.
Qed.


End Follow.

(** ** Further facts about the parameters and the encoders *)


(** An encoding tells its content type. *)
Lemma encodeAs_kind E ct env e :
  (fst (encodeAs E ct env) = JSONOf e -> String.eqb ct JSONContentType = true) /\
  (fst (encodeAs E ct env) = HTMLOf e -> String.eqb ct JSONContentType = false).
Proof.
  unfold encodeAs, json_Marshal, MarshalHTML.
  destruct (String.eqb ct JSONContentType);
    [destruct (json_Marshal_error E env) | destruct (MarshalHTML_error E env)];
    split; intros H; try discriminate H; reflexivity.
Qed.

(** An encoding is never an error document. *)
Lemma encodeAs_not_error E ct env c m : fst (encodeAs E ct env) <> ErrorJSON c m.
Proof.
  unfold encodeAs, json_Marshal, MarshalHTML.
  destruct (String.eqb ct JSONContentType);
    [destruct (json_Marshal_error E env) | destruct (MarshalHTML_error E env)]; discriminate.
Qed.

(** The codes of the errors of the query parameter blocks. *)
Lemma parameterError_codes E q e :
  parameterError E q = Some e ->
  Code_ e = "NoApplicableCode" \/ Code_ e = "InvalidParameterValue".
Proof.
  unfold parameterError.
  destruct (limitParam E q) as [e1|limit] eqn:Hl.
  { intros [= <-]. left. unfold limitParam in Hl.
    destruct (url.get q "limit") as [|s [|s' rest]]; try discriminate Hl.
    destruct (strconv.ParseUint s); [| discriminate Hl]. injection Hl as <-. reflexivity. }
  destruct (pageParam q) as [e2|pageNum] eqn:Hp.
  { intros [= <-]. left. unfold pageParam in Hp.
    destruct (url.get q "page") as [|s [|s' rest]]; try discriminate Hp.
    destruct (strconv.ParseUint s); [| discriminate Hp]. injection Hp as <-. reflexivity. }
  destruct (bboxParam E q) as [e3|bbox] eqn:Hb.
  { intros [= <-]. right. unfold bboxParam in Hb.
    destruct (url.get q "bbox") as [|b [|b' rest]]; try discriminate Hb.
    - cbv zeta in Hb. destruct (negb _); [injection Hb as <-; reflexivity |].
      destruct (bboxItems E b 0 (Str.Split b ",")) as [e'|xs] eqn:Hitems; [| discriminate Hb].
      injection Hb as <-.
      destruct (bboxItems_error E _ _ _ _ Hitems) as (j & p & _ & _ & _ & ->). reflexivity.
    - injection Hb as <-. reflexivity. }
  destruct (timeParam q) as [e4|tp] eqn:Ht; [| discriminate].
  intros [= <-]. right. unfold timeParam in Ht.
  destruct (url.get q "time") as [|t [|t' rest]]; try discriminate Ht.
  - destruct (Str.Split t "/") as [|ts0 [|ts1 [|ts2 more]]]; try discriminate Ht.
    all: injection Ht as <-; reflexivity.
  - injection Ht as <-. reflexivity.
Qed.

Lemma parameterError_None E q :
  parameterError E q = None ->
  exists limit pageNum bbox timeprops,
    limitParam E q = inr limit /\ pageParam q = inr pageNum /\
    bboxParam E q = inr bbox /\ timeParam q = inr timeprops.
Proof.
  unfold parameterError.
  destruct (limitParam E q) as [?|limit]; [discriminate |].
  destruct (pageParam q) as [?|pageNum]; [discriminate |].
  destruct (bboxParam E q) as [?|bbox]; [discriminate |].
  destruct (timeParam q) as [?|tp]; [discriminate |].
  intros _. exists limit, pageNum, bbox, tp. auto.
Qed.

(** ** A test environment whose encoders fail

    The environment of [Fixture] with a [json.Marshal] and a
    [MarshalHTML] that return an error for every envelope. *)

(** Every key of a parsed query has a value: [v[0]] is in range. *)
Lemma ParseQuery_values (query : string) k vs :
  url.ParseQuery query !! k = Some vs -> vs <> [].
Proof.
  unfold url.ParseQuery.
  assert (Hgen : forall (pieces : list string) (m : url.Values),
             (forall k vs, m !! k = Some vs -> vs <> []) ->
             forall k vs,
               fold_left
                 (fun m piece =>
                    match url.parsePair piece with
                    | Some (k, v) => <[k := (url.get m k ++ [v])%list]> m
                    | None => m
                    end) pieces m !! k = Some vs -> vs <> []).
  { induction pieces as [|p pieces IH]; intros m Hm; [exact Hm |].
    cbn [fold_left]. apply IH.
    destruct (url.parsePair p) as [[k' v']|]; [| exact Hm].
    intros k0 vs0. destruct (decide (k' = k0)) as [->|Hne].
    - rewrite lookup_insert_eq. intros [= <-]. destruct (url.get m k0); discriminate.
    - rewrite lookup_insert_ne by exact Hne. apply Hm. }
  apply Hgen. intros k0 vs0 H. rewrite lookup_empty in H. discriminate H.
Qed.

Lemma Query_values (u : url.URL) k vs : url.Query u !! k = Some vs -> vs <> [].
Proof. apply ParseQuery_values. Qed.

(** ** [filteredFeatures] *)

Section FilteredFacts.

Context {G V : Type}.
Variable P : FilterProvider.

Implicit Types w : ResponseRecorder G V.

(** The loop of the property filters does not panic on a parsed query. *)
Lemma filterProps_run (u : url.URL) w :
  filterProps (url.Query u) w = (Continue (filterPropsOf (url.Query u)), w).
Proof.
  unfold filterProps. cbv zeta.
  destruct (decide (map_Forall _ _)) as [_|Hno]; [reflexivity |].
  exfalso. apply Hno. intros k vs Hk.
  apply map_lookup_filter_Some in Hk as [Hk _]. exact (Query_values u k vs Hk).
Qed.

(** The response of [filteredFeatures]. *)
Lemma filteredFeatures_run (r : Request) :
  let q := url.Query (URL r) in
  let names := filterNamesOf P q in
  let namesErr :=
    match url.get q "collection" with
    | [] => snd (provider_CollectionNames P)
    | _ => None
    end in
  let w0 : ResponseRecorder G V :=
    match namesErr with
    | Some e => withError NewRecorder HTTPStatusServerError "NoApplicableCode" (Error e)
    | None => NewRecorder
    end in
  let after extent :=
    let fids := fst (FilterFeatures P extent names (filterPropsOf q)) in
    let made := MakeCollection P "tempcol" fids in
    match snd made with
    | Some e => (Returned, withError w0 HTTPStatusServerError "NoApplicableCode" (Error e))
    | None =>
        let resp := Marshal_summary P (fst made) (Z.of_nat (length fids)) in
        (Continue tt,
         written
           match snd resp with
           | Some e => withError w0 HTTPStatusServerError "NoApplicableCode" (Error e)
           | None => w0
           end HTTPStatusOk (RawBytes (fst resp)))
    end in
  filteredFeatures P r NewRecorder =
  match url.get q "extent" with
  | e0 :: _ =>
      match Unmarshal_extent P e0 with
      | inl err =>
          (Returned,
           withError w0 HTTPStatusClientError "NoApplicableCode"
             ("unable to unmarshal extent (" +:+ e0 +:+ ") due to error: " +:+ Error err))
      | inr extent => after extent
      end
  | [] => after (zeroExtent P)
  end.
Proof.
  intros q names namesErr w0 after.
  unfold filteredFeatures. fold q.
  assert (Hbind : forall {A B : Type} (m : Handler G V A) (k : A -> Handler G V B) w,
             (m ≫= k) w =
             match m w with
             | (Continue a, w') => k a w'
             | (Returned, w') => (Returned, w')
             | (Panicked msg, w') => (Panicked msg, w')
             end) by reflexivity.
  assert (Herr : forall code msg status (w : ResponseRecorder G V),
             jsonError code msg status w = (Continue tt, withError w status code msg)).
  { intros code msg status [wh c hm sh b]. destruct wh; reflexivity. }
  assert (Hwrite : forall (x : ResponseRecorder G V) b,
             (WriteHeader HTTPStatusOk;; Write b) x = (Continue tt, written x HTTPStatusOk b)).
  { intros [wh c hm sh b0] b. destruct wh; reflexivity. }
  rewrite Hbind. subst q. rewrite filterProps_run. set (q := url.Query (URL r)) in *.
  rewrite Hbind.
  assert (Hnames :
    (if Nat.ltb 0 (length (url.get q "collection")) then mret (url.get q "collection")
     else
       let '(names, err) := provider_CollectionNames P in
       match err with
       | Some e => jsonError "NoApplicableCode" (Error e) HTTPStatusServerError
       | None => mret tt
       end;;
       mret names) (NewRecorder : ResponseRecorder G V)
    = (Continue names, w0)).
  { subst names namesErr w0. unfold filterNamesOf.
    destruct (url.get q "collection") as [|c cs]; [| reflexivity].
    cbn [length Nat.ltb Nat.leb]. destruct (provider_CollectionNames P) as [ns [e|]]; cbn [fst snd].
    - rewrite Hbind, Herr. reflexivity.
    - reflexivity. }
  rewrite Hnames. rewrite Hbind.
  assert (Hafter : forall extent,
    (let '(fids, _) := FilterFeatures P extent names (filterPropsOf q) in
     let '(newCol, err) := MakeCollection P "tempcol" fids in
     match err with
     | Some e => jsonError "NoApplicableCode" (Error e) HTTPStatusServerError;; return_
     | None => mret tt
     end;;
     let '(resp, err0) := Marshal_summary P newCol (Z.of_nat (length fids)) in
     match err0 with
     | Some e => jsonError "NoApplicableCode" (Error e) HTTPStatusServerError
     | None => mret tt
     end;;
     WriteHeader HTTPStatusOk;;
     Write (RawBytes resp)) w0 = after extent).
  { intros extent. subst after. cbv beta zeta.
    destruct (FilterFeatures P extent names (filterPropsOf q)) as [fids ferr]. cbn [fst].
    destruct (MakeCollection P "tempcol" fids) as [newCol [e|]]; cbn [fst snd].
    - rewrite Hbind, Hbind, Herr. reflexivity.
    - rewrite Hbind.
      change ((mret tt : Handler G V unit) w0) with (Continue tt, w0).
      cbv beta iota.
      destruct (Marshal_summary P newCol (Z.of_nat (length fids))) as [resp [e|]]; cbn [fst snd].
      + rewrite Hbind, Herr. cbv beta iota. apply Hwrite.
      + rewrite Hbind.
        change ((mret tt : Handler G V unit) w0) with (Continue tt, w0).
        cbv beta iota. apply Hwrite. }
  destruct (url.get q "extent") as [|e0 es].
  - change ((mret (zeroExtent P) : Handler G V (Extent P)) w0) with (Continue (zeroExtent P), w0).
    cbv beta iota. apply Hafter.
  - destruct (Unmarshal_extent P e0) as [err|extent].
    + rewrite Hbind, Herr. reflexivity.
    + change ((mret extent : Handler G V (Extent P)) w0) with (Continue extent, w0).
      cbv beta iota. apply Hafter.
Qed.

(** X10: the filters, the names and the extent of a request reach the
    provider as follows: the property filters are the first values of
    every parameter but [extent] and [collection]; the collections are
    those of the request, or all of the provider's when the request
    names none; the extent is the first [extent] parameter, or the zero
    extent. Under four conditions the answer is status 200 with the id
    of the temporary collection and the number of the features that
    [FilterFeatures] returned, whether or not that call returned an
    error as well: the request names a collection or the provider
    returns its names without an error; the first [extent], if there is
    one, decodes; [MakeCollection] returns no error; the encoding of
    the summary returns no error. *)
Theorem filtered_features_summary (r : Request) (extent : Extent P) :
  let q := url.Query (URL r) in
  let w : ResponseRecorder G V := exec (filteredFeatures P r) in
  let fids := fst (FilterFeatures P extent (filterNamesOf P q) (filterPropsOf q)) in
  let made := MakeCollection P "tempcol" fids in
  let resp := Marshal_summary P (fst made) (Z.of_nat (length fids)) in
  (url.get q "collection" = [] -> snd (provider_CollectionNames P) = None) ->
  match url.get q "extent" with
  | e0 :: _ => Unmarshal_extent P e0 = inr extent
  | [] => extent = zeroExtent P
  end ->
  snd made = None ->
  snd resp = None ->
  (Code w = HTTPStatusOk /\ sentHeader w = ∅ /\ Body w = [RawBytes (fst resp)]) /\
  filterPropsOf q !! "extent" = None /\
  filterPropsOf q !! "collection" = None /\
  (forall k, k <> "extent" -> k <> "collection" ->
             filterPropsOf q !! k = (fun v => default "" (head v)) <$> q !! k) /\
  (forall names, url.get q "collection" = names -> names <> [] -> filterNamesOf P q = names).
Proof.
  intros q w fids made resp Hnames Hextent Hmade Hresp.
  split; [| split; [| split; [| split]]].
  - subst w. unfold exec. rewrite filteredFeatures_run. cbv zeta. fold q.
    assert (Hn : match url.get q "collection" with
                 | [] => snd (provider_CollectionNames P)
                 | _ => None
                 end = None).
    { destruct (url.get q "collection"); [apply Hnames; reflexivity | reflexivity]. }
    rewrite Hn.
    destruct (url.get q "extent") as [|e0 es].
    + subst extent. fold fids. fold made. rewrite Hmade. fold resp. rewrite Hresp.
      split; [reflexivity |]. split; reflexivity.
    + rewrite Hextent. fold fids. fold made. rewrite Hmade. fold resp. rewrite Hresp.
      split; [reflexivity |]. split; reflexivity.
  - unfold filterPropsOf. rewrite lookup_fmap, map_lookup_filter_None_2; [reflexivity |].
    right. intros vs _ [H _]. apply H. reflexivity.
  - unfold filterPropsOf. rewrite lookup_fmap, map_lookup_filter_None_2; [reflexivity |].
    right. intros vs _ [_ H]. apply H. reflexivity.
  - intros k He Hc. unfold filterPropsOf. rewrite lookup_fmap. f_equal.
    destruct (q !! k) as [vs|] eqn:Hq.
    + apply map_lookup_filter_Some. split; [exact Hq | split; assumption].
    + apply map_lookup_filter_None. left. exact Hq.
  - intros names Hn Hne. unfold filterNamesOf. rewrite Hn.
    destruct names; [contradiction Hne; reflexivity | reflexivity].
Qed.

(** X11: [filteredFeatures] does not panic and answers with status 200, 400
    or 500; with 400 exactly when the first [extent] does not decode and
    no error went out before. It does not stop at an error of the
    provider's collection names: that error goes out with status 500,
    and the body goes on after it. *)
Theorem filtered_features_errors (r : Request) :
  let q := url.Query (URL r) in
  let w : ResponseRecorder G V := exec (filteredFeatures P r) in
  let namesErr :=
    match url.get q "collection" with
    | [] => snd (provider_CollectionNames P)
    | _ => None
    end in
  (forall msg, fst (filteredFeatures P r (NewRecorder : ResponseRecorder G V)) <> Panicked msg) /\
  (Code w = HTTPStatusOk \/ Code w = HTTPStatusClientError \/ Code w = HTTPStatusServerError) /\
  (Code w = HTTPStatusClientError <->
   namesErr = None /\
   exists e0 es err, url.get q "extent" = e0 :: es /\ Unmarshal_extent P e0 = inl err) /\
  (forall e, namesErr = Some e ->
             Code w = HTTPStatusServerError /\
             exists second rest,
               Body w = ErrorJSON "NoApplicableCode" (Error e) :: second :: rest).
Proof.
  intros q w namesErr. subst w. unfold exec.
  rewrite (filteredFeatures_run r). cbv zeta. fold q. fold namesErr.
  destruct namesErr as [e|].
  - (* the names failed: status 500, and the body goes on *)
    assert (Hgo : forall extent,
      let x : Flow unit * ResponseRecorder G V :=
        match snd (MakeCollection P "tempcol"
                     (fst (FilterFeatures P extent (filterNamesOf P q) (filterPropsOf q)))) with
        | Some e1 =>
            (Returned,
             withError (withError NewRecorder HTTPStatusServerError "NoApplicableCode" (Error e))
               HTTPStatusServerError "NoApplicableCode" (Error e1))
        | None =>
            (Continue tt,
             written
               match snd (Marshal_summary P
                            (fst (MakeCollection P "tempcol"
                                    (fst (FilterFeatures P extent (filterNamesOf P q)
                                            (filterPropsOf q)))))
                            (Z.of_nat (length (fst (FilterFeatures P extent (filterNamesOf P q)
                                                      (filterPropsOf q)))))) with
               | Some e2 =>
                   withError
                     (withError NewRecorder HTTPStatusServerError "NoApplicableCode" (Error e))
                     HTTPStatusServerError "NoApplicableCode" (Error e2)
               | None => withError NewRecorder HTTPStatusServerError "NoApplicableCode" (Error e)
               end HTTPStatusOk
               (RawBytes
                  (fst (Marshal_summary P
                          (fst (MakeCollection P "tempcol"
                                  (fst (FilterFeatures P extent (filterNamesOf P q)
                                          (filterPropsOf q)))))
                          (Z.of_nat (length (fst (FilterFeatures P extent (filterNamesOf P q)
                                                    (filterPropsOf q)))))))))
        end in
      (forall msg, fst x <> Panicked msg) /\
      Code (snd x) = HTTPStatusServerError /\
      exists second rest,
        Body (snd x) = ErrorJSON "NoApplicableCode" (Error e) :: second :: rest).
    { intros extent. cbv zeta.
      destruct (snd (MakeCollection P "tempcol" _)) as [e1|].
      - split; [discriminate |]. split; [reflexivity |]. eexists. eexists. reflexivity.
      - destruct (snd (Marshal_summary P _ _)) as [e2|].
        + split; [discriminate |]. split; [reflexivity |]. eexists. eexists. reflexivity.
        + split; [discriminate |]. split; [reflexivity |]. eexists. eexists. reflexivity. }
    assert (Hall :
      forall x : Flow unit * ResponseRecorder G V,
        ((forall msg, fst x <> Panicked msg) /\
         Code (snd x) = HTTPStatusServerError /\
         exists second rest,
           Body (snd x) = ErrorJSON "NoApplicableCode" (Error e) :: second :: rest) ->
        (forall msg, fst x <> Panicked msg) /\
        (Code (snd x) = HTTPStatusOk \/ Code (snd x) = HTTPStatusClientError \/
         Code (snd x) = HTTPStatusServerError) /\
        (Code (snd x) = HTTPStatusClientError <->
         Some e = None /\
         exists e0 es err, url.get q "extent" = e0 :: es /\ Unmarshal_extent P e0 = inl err) /\
        (forall e', Some e = Some e' ->
                    Code (snd x) = HTTPStatusServerError /\
                    exists second rest,
                      Body (snd x) = ErrorJSON "NoApplicableCode" (Error e') :: second :: rest)).
    { intros x (Hp & Hc & Hb). split; [exact Hp |]. split; [auto |]. split.
      - split; [intros H; rewrite Hc in H; discriminate H | intros [H _]; discriminate H].
      - intros e' [= <-]. split; [exact Hc | exact Hb]. }
    destruct (url.get q "extent") as [|e0 es]; [apply Hall, Hgo |].
    destruct (Unmarshal_extent P e0) as [err|extent]; [| apply Hall, Hgo].
    apply Hall. split; [discriminate |]. split; [reflexivity |].
    eexists. eexists. reflexivity.
  - assert (Hgo : forall extent,
      let x : Flow unit * ResponseRecorder G V :=
        match snd (MakeCollection P "tempcol"
                     (fst (FilterFeatures P extent (filterNamesOf P q) (filterPropsOf q)))) with
        | Some e1 =>
            (Returned,
             withError NewRecorder HTTPStatusServerError "NoApplicableCode" (Error e1))
        | None =>
            (Continue tt,
             written
               match snd (Marshal_summary P
                            (fst (MakeCollection P "tempcol"
                                    (fst (FilterFeatures P extent (filterNamesOf P q)
                                            (filterPropsOf q)))))
                            (Z.of_nat (length (fst (FilterFeatures P extent (filterNamesOf P q)
                                                      (filterPropsOf q)))))) with
               | Some e2 =>
                   withError NewRecorder HTTPStatusServerError "NoApplicableCode" (Error e2)
               | None => NewRecorder
               end HTTPStatusOk
               (RawBytes
                  (fst (Marshal_summary P
                          (fst (MakeCollection P "tempcol"
                                  (fst (FilterFeatures P extent (filterNamesOf P q)
                                          (filterPropsOf q)))))
                          (Z.of_nat (length (fst (FilterFeatures P extent (filterNamesOf P q)
                                                    (filterPropsOf q)))))))))
        end in
      (forall msg, fst x <> Panicked msg) /\
      (Code (snd x) = HTTPStatusOk \/ Code (snd x) = HTTPStatusServerError)).
    { intros extent. cbv zeta.
      destruct (snd (MakeCollection P "tempcol" _)) as [e1|].
      - split; [discriminate | right; reflexivity].
      - destruct (snd (Marshal_summary P _ _)) as [e2|].
        + split; [discriminate | right; reflexivity].
        + split; [discriminate | left; reflexivity]. }
    destruct (url.get q "extent") as [|e0 es].
    + destruct (Hgo (zeroExtent P)) as [Hp Hc]. cbv zeta in Hp, Hc.
      split; [exact Hp |]. split; [tauto |]. split; [| discriminate].
      split.
      * intros H. rewrite H in Hc. destruct Hc as [Hc|Hc]; discriminate Hc.
      * intros (_ & e0 & es & err & H & _). discriminate H.
    + destruct (Unmarshal_extent P e0) as [err|extent] eqn:Hu.
      * split; [discriminate |]. split; [right; left; reflexivity |]. split; [| discriminate].
        split; [intros _; split; [reflexivity | eauto] | reflexivity].
      * destruct (Hgo extent) as [Hp Hc]. cbv zeta in Hp, Hc.
        split; [exact Hp |]. split; [tauto |]. split; [| discriminate].
        split.
        -- intros H. rewrite H in Hc. destruct Hc as [Hc|Hc]; discriminate Hc.
        -- intros (_ & e0' & es' & err & [= <- <-] & H). rewrite Hu in H. discriminate H.
Qed.

End FilteredFacts.

(** ** The test helper [addQueryParams] *)

Lemma set_params_lookup (qp : gmap string string) (q : url.Values) k :
  map_fold (fun k v (q : url.Values) => <[k := [v]]> q) q qp !! k
  = match qp !! k with Some v => Some [v] | None => q !! k end.
Proof.
  apply (map_fold_weak_ind
           (fun (r : url.Values) (m : gmap string string) =>
              r !! k = match m !! k with Some v => Some [v] | None => q !! k end)).
  - rewrite lookup_empty. reflexivity.
  - intros i x m r Hi IH. destruct (decide (i = k)) as [->|Hne].
    + rewrite !lookup_insert_eq. reflexivity.
    + rewrite !lookup_insert_ne by exact Hne. exact IH.
Qed.

(** X12: a request that [addQueryParams] returns has each of the given
    parameters with its one value, whatever values it had before, and
    every other parameter as before; the rest of the request is as it
    was. *)
Theorem addQueryParams_sets (req req' : Request) (queryParams : gmap string string) :
  addQueryParams req queryParams = Some req' ->
  (forall k v, queryParams !! k = Some v -> url.get (url.Query (URL req')) k = [v]) /\
  (forall k, queryParams !! k = None ->
             url.get (url.Query (URL req')) k = url.get (url.Query (URL req)) k) /\
  url.Prefix (URL req') = url.Prefix (URL req) /\
  Method req' = Method req /\ Header req' = Header req /\ Params req' = Params req.
Proof.
  unfold addQueryParams. destruct (Nat.ltb 0 (size queryParams)) eqn:Hsize.
  - destruct (ParseQuery_fails _); [discriminate |]. cbv zeta. intros [= <-].
    unfold url.Query at 1 2.
    cbn [withURL URL Method Header Params url.withRawQuery url.Prefix url.RawQuery].
    split; [| split; [| auto]].
    + intros k v Hk. rewrite get_ParseQuery_Encode. unfold url.get.
      rewrite set_params_lookup, Hk. reflexivity.
    + intros k Hk. rewrite get_ParseQuery_Encode. unfold url.get.
      rewrite set_params_lookup, Hk. reflexivity.
  - intros [= <-]. apply Nat.ltb_ge in Hsize.
    assert (Hempty : queryParams = ∅) by (apply map_size_empty_inv; lia).
    split; [| split; [| auto]].
    + intros k v Hk. rewrite Hempty, lookup_empty in Hk. discriminate Hk.
    + reflexivity.
Qed.

(** ** [defaultGpkg] *)

Lemma ascii_compare_trans a b c :
  Ascii.compare a b = Lt -> Ascii.compare b c = Lt -> Ascii.compare a c = Lt.
Proof.
  unfold Ascii.compare. rewrite !N.compare_lt_iff. lia.
Qed.

Lemma string_compare_trans s1 : forall s2 s3,
  String.compare s1 s2 <> Gt -> String.compare s2 s3 <> Gt -> String.compare s1 s3 <> Gt.
Proof.
  induction s1 as [|a s1 IH]; intros [|b s2] [|c s3]; cbn [String.compare];
    try congruence.
  destruct (Ascii.compare a b) eqn:Hab; [| | congruence].
  - apply Ascii.compare_eq_iff in Hab. subst b.
    destruct (Ascii.compare a c); [apply IH | congruence | congruence].
  - destruct (Ascii.compare b c) eqn:Hbc; [| | congruence].
    + apply Ascii.compare_eq_iff in Hbc. subst c. rewrite Hab. congruence.
    + rewrite (ascii_compare_trans a b c Hab Hbc). congruence.
Qed.

Lemma leb_trans s1 s2 s3 :
  String.leb s1 s2 = true -> String.leb s2 s3 = true -> String.leb s1 s3 = true.
Proof.
  unfold String.leb. intros H12 H23.
  pose proof (string_compare_trans s1 s2 s3) as H.
  destruct (String.compare s1 s2); try discriminate H12;
    destruct (String.compare s2 s3); try discriminate H23;
    destruct (String.compare s1 s3); try reflexivity;
    exfalso; apply H; congruence.
Qed.

Lemma leb_refl s : String.leb s s = true.
Proof. destruct (String.leb_total s s); assumption. Qed.

Lemma insert_string_elem x s l : x ∈ insert_string s l <-> x = s \/ x ∈ l.
Proof.
  induction l as [|y l IH]; cbn [insert_string].
  - rewrite list_elem_of_singleton, elem_of_nil. tauto.
  - destruct (String.leb s y).
    + rewrite elem_of_cons. tauto.
    + rewrite !elem_of_cons, IH. tauto.
Qed.

Lemma sort_Strings_elem x l : x ∈ sort_Strings l <-> x ∈ l.
Proof.
  induction l as [|y l IH]; cbn [sort_Strings foldr]; [tauto |].
  fold (sort_Strings l). rewrite insert_string_elem, elem_of_cons, IH. tauto.
Qed.

(** The first string after sorting is the least. *)
Lemma insert_string_head s l f rest :
  (forall h t, l = h :: t -> forall g, g ∈ l -> String.leb h g = true) ->
  insert_string s l = f :: rest ->
  forall g, g ∈ insert_string s l -> String.leb f g = true.
Proof.
  intros Hl. destruct l as [|h t]; cbn [insert_string].
  - intros [= <- <-] g Hg. apply list_elem_of_singleton in Hg. subst g. apply leb_refl.
  - specialize (Hl h t eq_refl). destruct (String.leb s h) eqn:Hsh.
    + intros [= <- <-] g Hg. apply elem_of_cons in Hg as [->|Hg]; [apply leb_refl |].
      apply (leb_trans s h g Hsh), Hl, Hg.
    + intros [= <- <-] g Hg. apply elem_of_cons in Hg as [->|Hg]; [apply leb_refl |].
      apply insert_string_elem in Hg as [->|Hg].
      * destruct (String.leb_total s h) as [H|H]; [congruence | exact H].
      * apply Hl. apply elem_of_cons. right. exact Hg.
Qed.

Lemma sort_Strings_head l f rest :
  sort_Strings l = f :: rest -> forall g, g ∈ l -> String.leb f g = true.
Proof.
  revert f rest. induction l as [|x l IH]; intros f rest; cbn [sort_Strings foldr];
    [discriminate |].
  fold (sort_Strings l). intros Hs g Hg.
  apply (insert_string_head x (sort_Strings l) f rest).
  - intros h t Hl g' Hg'. apply (IH h t Hl). apply sort_Strings_elem. exact Hg'.
  - exact Hs.
  - rewrite insert_string_elem, sort_Strings_elem. apply elem_of_cons in Hg. exact Hg.
Qed.

Lemma sort_Strings_nonempty l : l <> [] -> sort_Strings l <> [].
Proof.
  destruct l as [|x l]; [congruence |]. intros _ H.
  assert (Hx : x ∈ sort_Strings (x :: l)) by (apply sort_Strings_elem; left).
  rewrite H in Hx. inversion Hx.
Qed.

Section DefaultGpkg.

Variable fs : FileSystem.

Lemma searchDirs_skip wd (before : list string) dir after :
  Forall (fun d => Glob fs (path_Join fs d "*.gpkg") = inr []) before ->
  searchDirs fs wd (before ++ dir :: after) = searchDirs fs wd (dir :: after).
Proof.
  induction 1 as [|d before Hd _ IH]; [reflexivity |].
  cbn [app searchDirs]. rewrite Hd. cbn [length Nat.eqb]. exact IH.
Qed.

(** X13: [defaultGpkg] returns the empty string when the working directory
    is not known or none of the three directories has a [.gpkg] file;
    otherwise the cleaned path, under the working directory, of the
    least file name of the first of the working directory, [data] and
    [test_data] that has such a file. It panics only when a pattern is
    refused. *)
Theorem defaultGpkg_choice :
  (forall e, Getwd fs = inl e -> defaultGpkg fs = Done "") /\
  (forall wd before dir after files,
      Getwd fs = inr wd ->
      [""; "data"; "test_data"] = (before ++ dir :: after)%list ->
      Forall (fun d => Glob fs (path_Join fs d "*.gpkg") = inr []) before ->
      Glob fs (path_Join fs dir "*.gpkg") = inr files ->
      files <> [] ->
      exists f,
        f ∈ files /\ (forall g, g ∈ files -> String.leb f g = true) /\
        defaultGpkg fs = Done (path_Clean fs (path_Join fs wd f))) /\
  (Forall (fun d => Glob fs (path_Join fs d "*.gpkg") = inr []) [""; "data"; "test_data"] ->
   defaultGpkg fs = Done "") /\
  (forall msg, defaultGpkg fs = Panic msg ->
               exists d e, d ∈ [""; "data"; "test_data"] /\
                           Glob fs (path_Join fs d "*.gpkg") = inl e).
Proof.
  split; [| split; [| split]].
  - intros e He. unfold defaultGpkg. rewrite He. reflexivity.
  - intros wd before dir after files Hwd Hdirs Hbefore Hfiles Hne.
    unfold defaultGpkg. rewrite Hwd. cbv zeta. rewrite Hdirs.
    rewrite (searchDirs_skip wd before dir after Hbefore).
    cbn [searchDirs]. rewrite Hfiles.
    destruct files as [|x files]; [contradiction Hne; reflexivity |].
    cbn [length Nat.eqb].
    destruct (sort_Strings (x :: files)) as [|f rest] eqn:Hsort.
    { exfalso. exact (sort_Strings_nonempty (x :: files) Hne Hsort). }
    exists f. split; [| split; [| reflexivity]].
    + apply sort_Strings_elem. rewrite Hsort. left.
    + exact (sort_Strings_head (x :: files) f rest Hsort).
  - intros Hall. unfold defaultGpkg. destruct (Getwd fs) as [e|wd]; [reflexivity |].
    cbv zeta. inversion Hall as [|? ? H0 Hall1]; subst.
    inversion Hall1 as [|? ? H1 Hall2]; subst. inversion Hall2 as [|? ? H2 _]; subst.
    cbn [searchDirs]. rewrite H0, H1, H2. reflexivity.
  - intros msg. unfold defaultGpkg. destruct (Getwd fs) as [e|wd]; [discriminate |].
    cbv zeta.
    assert (Hgen : forall dirs,
               searchDirs fs wd dirs = Panic msg ->
               exists d e, d ∈ dirs /\ Glob fs (path_Join fs d "*.gpkg") = inl e).
    { induction dirs as [|d dirs IH]; cbn [searchDirs]; [discriminate |].
      destruct (Glob fs (path_Join fs d "*.gpkg")) as [e|files] eqn:Hg.
      - intros _. exists d, e. split; [left | exact Hg].
      - destruct files as [|x files]; cbn [length Nat.eqb].
        + intros H. destruct (IH H) as (d' & e & Hd & He). exists d', e.
          split; [right; exact Hd | exact He].
        + destruct (sort_Strings (x :: files)) as [|f rest] eqn:Hsort; [| discriminate].
          exfalso. apply (sort_Strings_nonempty (x :: files)); [discriminate | exact Hsort]. }
    apply Hgen.
Qed.

End DefaultGpkg.

(** ** Running a handler

    The response of a handler is computed block by block: each block has a
    lemma that gives the flow and the recorder it leaves. *)

Opaque url.Parse url.Query url.Encode url.String_ contentIdOf Str.decimal pageUrl
  Uint.mul Uint.add Uint.sub Uint.wrap propertyFilters ctLink ctHref slice.

Ltac handler_steps :=
  repeat (unfold mbind, mret, Handler_bind, Handler_ret; cbn).

Ltac step := cbv beta iota zeta.

Lemma run_bind {G V A B : Type} (m : Handler G V A) (k : A -> Handler G V B) w :
  (m ≫= k) w =
  match m w with
  | (Continue a, w') => k a w'
  | (Returned, w') => (Returned, w')
  | (Panicked msg, w') => (Panicked msg, w')
  end.
Proof. reflexivity. Qed.

Lemma run_ret {G V A : Type} (a : A) (w : ResponseRecorder G V) :
  (mret a : Handler G V A) w = (Continue a, w).
Proof. reflexivity. Qed.

Lemma jsonError_run {G V : Type} code msg status (w : ResponseRecorder G V) :
  jsonError code msg status w = (Continue tt, withError w status code msg).
Proof. destruct w as [wh c hm sh b]. destruct wh; reflexivity. Qed.

Lemma mapM_ret {G V A B : Type} (f : A -> Handler G V B) (g : A -> B) l :
  (forall x, f x = mret (g x)) -> mapM f l = mret (map g l).
Proof.
  intros Hf. induction l as [|x l IH]; [reflexivity |].
  simpl. rewrite Hf, IH. reflexivity.
Qed.

Ltac finish_links :=
  rewrite ?ctLink_supported by reflexivity;
  cbn [alternatesOf String.eqb Ascii.eqb Bool.eqb JSONContentType HTMLContentType mapM];
  rewrite ?ctLink_supported by reflexivity;
  handler_steps;
  repeat match goal with
         | |- context [negb (String.eqb ?s "")] => destruct (negb (String.eqb s ""))
         end;
  cbn; rewrite <- ?app_assoc; reflexivity.

Section Blocks.

Variable E : Env.

Lemma orReturn_run {A : Type} (x : HandlerError + A) w :
  orReturn E x w =
  match x with
  | inl e => (Returned, withError w HTTPStatusClientError (Code_ e) (Description e))
  | inr a => (Continue a, w)
  end.
Proof. destruct x; [| reflexivity]. unfold orReturn. rewrite run_bind, jsonError_run. reflexivity. Qed.

Lemma queryParams_run q w :
  queryParams E q w =
  match limitParam E q with
  | inl e => (Returned, withError w HTTPStatusClientError (Code_ e) (Description e))
  | inr limit =>
      match pageParam q with
      | inl e => (Returned, withError w HTTPStatusClientError (Code_ e) (Description e))
      | inr pageNum =>
          match bboxParam E q with
          | inl e => (Returned, withError w HTTPStatusClientError (Code_ e) (Description e))
          | inr bbox =>
              match timeParam q with
              | inl e => (Returned, withError w HTTPStatusClientError (Code_ e) (Description e))
              | inr timeprops =>
                  (Continue (limit, pageNum, bbox, propertyFilters q timeprops), w)
              end
          end
      end
  end.
Proof.
  unfold queryParams.
  rewrite run_bind, orReturn_run. destruct (limitParam E q); [reflexivity |].
  rewrite run_bind, orReturn_run. destruct (pageParam q); [reflexivity |].
  rewrite run_bind, orReturn_run. destruct (bboxParam E q); [reflexivity |].
  rewrite run_bind, orReturn_run. destruct (timeParam q); reflexivity.
Qed.

Lemma featureIdParam_run fidStr w :
  featureIdParam E fidStr w =
  if String.eqb fidStr "" then (Continue 0, w)
  else
    (Continue (Uint.wrap (fst (strconv.Atoi fidStr))),
     match snd (strconv.Atoi fidStr) with
     | Some _ =>
         withError w HTTPStatusClientError "InvalidParameterValue"
           ("Invalid feature_id: " +:+ fidStr)
     | None => w
     end).
Proof.
  unfold featureIdParam. destruct (String.eqb fidStr ""); [reflexivity |]. cbn [negb].
  destruct (strconv.Atoi fidStr) as [cid [e|]]; [| reflexivity].
  rewrite run_bind, jsonError_run. reflexivity.
Qed.

Lemma conditional_run r contentId w :
  conditional E r contentId w =
  if String.eqb (Method r) HTTPMethodHEAD then
    (Returned,
     withStatus (withHeader w "ETag" contentId)
       (if String.eqb (Header_Get (Header r) "ETag") contentId
        then HTTPStatusNotModified else HTTPStatusOk))
  else (Continue tt, withHeader w "ETag" contentId).
Proof.
  unfold conditional. rewrite run_bind. cbn [Header_Set].
  destruct (String.eqb (Method r) HTTPMethodHEAD); [| reflexivity].
  rewrite run_bind. destruct (String.eqb _ contentId); reflexivity.
Qed.

(** The data of a collection's items. *)
Lemma fetchData_items_run cName fid limit pageNum bbox properties w :
  fetchData E cName "" fid limit pageNum bbox properties w =
  match CollectionFeatures E cName properties bbox with
  | inl e =>
      (Returned,
       match e with
       | BadTimeString _ =>
           withError w HTTPStatusClientError "InvalidParameterValue" (Error e)
       | _ =>
           withError w HTTPStatusServerError "InvalidParameterValue"
             ("Problem collecting feature data: " +:+ Error e)
       end)
  | inr cfs =>
      let total := Uint.wrap (Z.of_nat (length cfs)) in
      let startIdx := Uint.mul limit pageNum in
      let stopIdx := Uint.add startIdx limit in
      if (total <=? startIdx) || (Z.min stopIdx total <? startIdx) then
        (Returned,
         withError w HTTPStatusServerError "InvalidParameterValue"
           (outOfRangeMessage startIdx stopIdx total))
      else
        (Continue
           (Some (EnvFeatureCollection
                    (mkFeatureCollection
                       (map (toGeoJSON E) (slice cfs startIdx (Z.min stopIdx total))) [] 0 0)),
            total, contentIdOf cName, FeatureCollectionJSONSchema),
         w)
  end.
Proof.
  unfold fetchData, FeatureCollectionData. cbn [String.eqb negb].
  destruct (CollectionFeatures E cName properties bbox) as [e|cfs].
  - cbn [fmap option_fmap option_map]. destruct e; rewrite run_bind, jsonError_run; reflexivity.
  - cbv zeta.
    assert (Hmin : (if Uint.wrap (Z.of_nat (length cfs)) <? Uint.add (Uint.mul limit pageNum) limit
                    then Uint.wrap (Z.of_nat (length cfs))
                    else Uint.add (Uint.mul limit pageNum) limit)
                   = Z.min (Uint.add (Uint.mul limit pageNum) limit)
                       (Uint.wrap (Z.of_nat (length cfs)))).
    { destruct (Z.ltb_spec (Uint.wrap (Z.of_nat (length cfs)))
                  (Uint.add (Uint.mul limit pageNum) limit)); lia. }
    rewrite Hmin. destruct (_ || _).
    + cbn [fmap option_fmap option_map]. rewrite run_bind, jsonError_run. reflexivity.
    + reflexivity.
Qed.

(** The data of one feature. *)
Lemma fetchData_feature_run cName fidStr fid limit pageNum bbox properties w :
  String.eqb fidStr "" = false ->
  fetchData E cName fidStr fid limit pageNum bbox properties w =
  match GetFeatures E [(cName, fid)] with
  | inl e =>
      (Returned,
       match e with
       | BadTimeString _ =>
           withError w HTTPStatusClientError "InvalidParameterValue" (Error e)
       | _ =>
           withError w HTTPStatusServerError "InvalidParameterValue"
             ("Problem collecting feature data: " +:+ Error e)
       end)
  | inr [pf] =>
      (Continue
         (Some (EnvFeature (mkFeature (toGeoJSON E pf) [])), 0,
          contentIdOf (cName +:+ Str.decimal fid), FeatureJSONSchema),
       w)
  | inr _ =>
      (Returned,
       withError w HTTPStatusServerError "InvalidParameterValue"
         ("Problem collecting feature data: Invalid collection/fid: " +:+ cName +:+ "/"
          +:+ Str.decimal fid))
  end.
Proof.
  intros Hf. unfold fetchData, FeatureData. rewrite Hf. cbn [negb].
  destruct (GetFeatures E [(cName, fid)]) as [e|[|pf [|pf' pfs]]].
  - cbn [fmap option_fmap option_map]. destruct e; rewrite run_bind, jsonError_run; reflexivity.
  - cbn [fmap option_fmap option_map]. rewrite run_bind, jsonError_run. reflexivity.
  - reflexivity.
  - cbn [fmap option_fmap option_map]. rewrite run_bind, jsonError_run. reflexivity.
Qed.

Lemma ctLink_run b ct w :
  supportedContentType ct = true -> ctLink E b ct w = (Continue (ctHref E b ct), w).
Proof. intros H. rewrite ctLink_supported by exact H. reflexivity. Qed.

Lemma featureCollectionContent_run r ct cName pageNum limit featureTotal d w :
  supportedContentType ct = true ->
  featureCollectionContent E r ct cName pageNum limit featureTotal d w =
  match pageLink E r cName (0 <? pageNum) (Uint.sub pageNum 1) limit with
  | None =>
      (Returned,
       withError w 500 "NoApplicableCode" "problem parsing generated 'prev' link")
  | Some prev =>
      match pageLink E r cName (Uint.mul limit (Uint.add pageNum 1) <? featureTotal)
              (Uint.add pageNum 1) limit with
      | None =>
          (Returned,
           withError w 500 "NoApplicableCode" "problem parsing generated 'next' link")
      | Some next =>
          (Continue
             (encodeAs E ct
                (EnvFeatureCollection
                   (mkFeatureCollection (Features d)
                      (FeatureCollection_Links d
                       ++ itemsLinks E r ct cName pageNum limit prev next)
                      featureTotal (Uint.wrap (Z.of_nat (length (Features d))))))),
           w)
      end
  end.
Proof.
  intros Hct. apply supportedContentType_cases in Hct.
  unfold featureCollectionContent, pageLink, itemsLinks, encodeAs, reencode.
  rewrite run_bind.
  destruct (0 <? pageNum).
  - destruct (url.Parse (pageUrl _ _ (Uint.sub _ _) _)) as [pu|]; cbn [option_map].
    2: { rewrite run_bind, jsonError_run. reflexivity. }
    rewrite run_ret, run_bind.
    destruct (Uint.mul limit (Uint.add pageNum 1) <? featureTotal).
    + destruct (url.Parse (pageUrl _ _ (Uint.add _ _) _)) as [nu|]; cbn [option_map].
      2: { rewrite run_bind, jsonError_run. reflexivity. }
      rewrite run_ret. destruct Hct as [-> | ->]; finish_links.
    + rewrite run_ret. destruct Hct as [-> | ->]; finish_links.
  - rewrite run_ret, run_bind.
    destruct (Uint.mul limit (Uint.add pageNum 1) <? featureTotal).
    + destruct (url.Parse (pageUrl _ _ (Uint.add _ _) _)) as [nu|]; cbn [option_map].
      2: { rewrite run_bind, jsonError_run. reflexivity. }
      rewrite run_ret. destruct Hct as [-> | ->]; finish_links.
    + rewrite run_ret. destruct Hct as [-> | ->]; finish_links.
Qed.

Lemma featureContent_run r ct cName fid d w :
  supportedContentType ct = true ->
  featureContent E r ct cName fid d w =
  (Continue
     (encodeAs E ct
        (EnvFeature (mkFeature (Feature_Feature d)
                       (Feature_Links d ++ featureLinks E r ct cName fid)))),
   w).
Proof.
  intros Hct. apply supportedContentType_cases in Hct.
  unfold featureContent, featureLinks, encodeAs.
  destruct Hct as [-> | ->].
  all: cbn [SupportedContentTypes mapM map].
  all: rewrite !ctLink_supported by reflexivity.
  all: handler_steps; reflexivity.
Qed.

Lemma respond_run r ct jsonSchema encodedContent err w :
  respond E r ct jsonSchema encodedContent err w =
  let w1 := match err with
            | Some e =>
                withError w HTTPStatusServerError "oApplicableCode"
                  ("Problem marshalling feature data: " +:+ Error e)
            | None => w
            end in
  let w2 := withHeader w1 "Content-Type" ct in
  let content := match overrideContent r with Some b => RawBytes b | None => encodedContent end in
  match (if String.eqb ct JSONContentType
         then ValidateJSONResponseAgainstJSONSchema E content jsonSchema else None) with
  | Some _ =>
      (Returned,
       withError w2 HTTPStatusServerError "NoApplicableCode" "response doesn't match schema")
  | None => (Continue tt, written w2 HTTPStatusOk content)
  end.
Proof.
  unfold respond. rewrite run_bind.
  assert (Hfirst :
    match err with
    | Some e =>
        jsonError "oApplicableCode" ("Problem marshalling feature data: " +:+ Error e)
          HTTPStatusServerError
    | None => mret ()
    end w
    = (Continue tt,
       match err with
       | Some e =>
           withError w HTTPStatusServerError "oApplicableCode"
             ("Problem marshalling feature data: " +:+ Error e)
       | None => w
       end)).
  { destruct err; [apply jsonError_run | reflexivity]. }
  rewrite Hfirst. cbv zeta. set (w1 := match err with Some _ => _ | None => w end).
  rewrite run_bind. cbn [Header_Set]. fold (withHeader w1 "Content-Type" ct).
  set (w2 := withHeader w1 "Content-Type" ct).
  set (content := match overrideContent r with Some b => RawBytes b | None => encodedContent end).
  rewrite run_bind.
  destruct (String.eqb ct JSONContentType).
  - destruct (ValidateJSONResponseAgainstJSONSchema E content jsonSchema) as [verr|].
    + rewrite run_bind, jsonError_run. reflexivity.
    + rewrite run_ret. destruct w2 as [wh c hm sh b]. destruct wh; reflexivity.
  - rewrite run_ret. destruct w2 as [wh c hm sh b]. destruct wh; reflexivity.
Qed.

Lemma sendContent_run r path ct encodedContent w :
  sendContent E r path ct encodedContent w =
  let w2 := withHeader w "Content-Type" ct in
  let content := match overrideContent r with Some b => RawBytes b | None => encodedContent end in
  match (if String.eqb ct JSONContentType
         then ValidateJSONResponse E r path HTTPStatusOk (HeaderMap w2) content else None) with
  | Some _ =>
      (Returned,
       withError w2 HTTPStatusServerError "NoApplicableCode" "response doesn't match schema")
  | None => (Continue tt, written w2 HTTPStatusOk content)
  end.
Proof.
  unfold sendContent. rewrite run_bind. cbn [Header_Set]. fold (withHeader w "Content-Type" ct).
  set (w2 := withHeader w "Content-Type" ct).
  set (content := match overrideContent r with Some b => RawBytes b | None => encodedContent end).
  cbv zeta. rewrite run_bind.
  destruct (String.eqb ct JSONContentType).
  - rewrite run_bind. cbn [Header_].
    destruct (ValidateJSONResponse E r path HTTPStatusOk (HeaderMap w2) content) as [verr|].
    + rewrite run_bind, jsonError_run. reflexivity.
    + rewrite run_ret. destruct w2 as [wh c hm sh b]. destruct wh; reflexivity.
  - rewrite run_ret. destruct w2 as [wh c hm sh b]. destruct wh; reflexivity.
Qed.

(** An envelope is read off its encoding. *)
Lemma encodeAs_carries ct env enc err e :
  encodeAs E ct env = (enc, err) -> enc = JSONOf e \/ enc = HTMLOf e -> e = env /\ err = None.
Proof.
  unfold encodeAs, json_Marshal, MarshalHTML.
  destruct (String.eqb ct JSONContentType);
    [destruct (json_Marshal_error E env) | destruct (MarshalHTML_error E env)];
    intros [= <- <-] [H|H]; inversion H; auto.
Qed.

End Blocks.

(** ** The response recorder *)

Section Recorder.

Context {G V : Type}.
Implicit Types w : ResponseRecorder G V.

Lemma withHeader_Body w k v : Body (withHeader w k v) = Body w.
Proof. reflexivity. Qed.

Lemma withHeader_sentETag w k v : sentETag (withHeader w k v) = sentETag w.
Proof. reflexivity. Qed.

Lemma withHeader_wroteHeader w k v : wroteHeader (withHeader w k v) = wroteHeader w.
Proof. reflexivity. Qed.

Lemma withStatus_Body w s : Body (withStatus w s) = Body w.
Proof. unfold withStatus. destruct (wroteHeader w); reflexivity. Qed.

Lemma withStatus_fresh w s :
  wroteHeader w = false ->
  Code (withStatus w s) = s /\ sentHeader (withStatus w s) = HeaderMap w.
Proof. unfold withStatus. intros ->. split; reflexivity. Qed.

Lemma written_Body w s b : Body (written w s b) = (Body w ++ [b])%list.
Proof. unfold written. cbn [Body]. rewrite withStatus_Body. reflexivity. Qed.

Lemma written_fresh w s b :
  wroteHeader w = false ->
  Code (written w s b) = s /\ sentHeader (written w s b) = HeaderMap w.
Proof. unfold written. cbn [Code sentHeader]. apply withStatus_fresh. Qed.

Lemma written_sent w s b :
  wroteHeader w = true ->
  Code (written w s b) = Code w /\ sentHeader (written w s b) = sentHeader w.
Proof. unfold written, withStatus. intros ->. split; reflexivity. Qed.

Lemma withError_wroteHeader w s c m : wroteHeader (withError w s c m) = true.
Proof. unfold withError, written, withStatus. destruct (wroteHeader w) eqn:H; cbn; auto. Qed.

(** A body that ends in an error is not the encoding of an envelope. *)
Lemma error_not_carried w s c m e : ~ Carries (withError w s c m) e.
Proof.
  unfold Carries, withError. rewrite written_Body.
  destruct (Body w) as [|b [|b' bs]]; cbn; intros [H|H]; try discriminate H.
  all: destruct bs; discriminate H.
Qed.

Lemma after_error_not_carried w s c m s' b e :
  ~ Carries (written (withError w s c m) s' b) e.
Proof.
  unfold Carries, withError. rewrite !written_Body.
  destruct (Body w) as [|b0 bs]; cbn; intros [H|H]; try discriminate H.
  all: destruct bs; discriminate H.
Qed.

Lemma NewRecorder_ErrorAnswer s c m :
  s = HTTPStatusClientError \/ s = HTTPStatusServerError ->
  ErrorAnswer (withError (NewRecorder : ResponseRecorder G V) s c m).
Proof.
  intros Hs. unfold ErrorAnswer. split; [reflexivity |]. split; [exact Hs |].
  exists c, m, []. reflexivity.
Qed.

End Recorder.

Section Continues.

Context {G V : Type}.
Implicit Types w : ResponseRecorder G V.

Lemma continues_refl w : wroteHeader w = true -> continues w w.
Proof. intros H. repeat split; auto. exists []. rewrite app_nil_r. reflexivity. Qed.

Lemma continues_withHeader w w1 k v : continues w w1 -> continues w (withHeader w1 k v).
Proof. intros H. exact H. Qed.

Lemma continues_withStatus w w1 s : continues w w1 -> continues w (withStatus w1 s).
Proof.
  intros H. unfold withStatus. destruct H as [Hw H]. rewrite Hw. split; [exact Hw | exact H].
Qed.

Lemma continues_written w w1 s b : continues w w1 -> continues w (written w1 s b).
Proof.
  intros (Hw & Hc & Hs & rest & Hb).
  destruct (written_sent w1 s b Hw) as [Hc' Hs'].
  split; [unfold written, withStatus; rewrite Hw; exact Hw |].
  split; [congruence |]. split; [congruence |].
  exists (rest ++ [b])%list. rewrite written_Body, Hb, app_assoc. reflexivity.
Qed.

Lemma continues_withError w w1 s c m : continues w w1 -> continues w (withError w1 s c m).
Proof. apply continues_written. Qed.

Lemma continues_ErrorAnswer w w' : ErrorAnswer w -> continues w w' -> ErrorAnswer w'.
Proof.
  intros (He & Hc & code & msg & rest & Hb) (_ & Hc' & Hs' & rest' & Hb').
  split; [unfold sentETag in *; congruence |]. split; [congruence |].
  exists code, msg, (rest ++ rest')%list. rewrite Hb', Hb. reflexivity.
Qed.

Lemma ErrorAnswer_not_carried w e : ErrorAnswer w -> ~ Carries w e.
Proof. intros (_ & _ & code & msg & rest & Hb) [H|H]; rewrite Hb in H; discriminate H. Qed.

Lemma ErrorAnswer_no_ETag w e : ErrorAnswer w -> sentETag w <> Some e.
Proof. intros (He & _). congruence. Qed.

(** The answer to HEAD once the ETag is in the header. *)
Lemma HeadAnswer_fresh r contentId :
  HeadAnswer r contentId
    (withStatus (withHeader (NewRecorder : ResponseRecorder G V) "ETag" contentId)
       (if String.eqb (Header_Get (Header r) "ETag") contentId
        then HTTPStatusNotModified else HTTPStatusOk)).
Proof.
  unfold HeadAnswer, sentETag. cbn. rewrite lookup_insert_eq. auto.
Qed.

(** The ETag set before the header goes out is sent. *)
Lemma withStatus_ETag contentId s :
  sentETag (withStatus (withHeader (NewRecorder : ResponseRecorder G V) "ETag" contentId) s)
  = Some contentId.
Proof. unfold sentETag. cbn. apply lookup_insert_eq. Qed.

Lemma withError_ETag contentId s c m :
  sentETag (withError (withHeader (NewRecorder : ResponseRecorder G V) "ETag" contentId) s c m)
  = Some contentId.
Proof. unfold sentETag. cbn. apply lookup_insert_eq. Qed.

End Continues.

(** ** The items of a collection *)

Section Items.

Variable E : Env.

(** A page link is the empty string exactly when none is wanted. *)
Lemma pageLink_wanted r cName wanted p l x :
  pageLink E r cName wanted p l = Some x -> negb (String.eqb x "") = wanted.
Proof.
  unfold pageLink. destruct wanted.
  - destruct (url.Parse _) as [u|] eqn:Hu; [| discriminate].
    cbn [option_map]. intros [= <-]. rewrite (reencode_eqb _ _ _ _ _ Hu). reflexivity.
  - intros [= <-]. reflexivity.
Qed.


Lemma itemsLinks_rels r ct cName p l prev next :
  supportedContentType ct = true ->
  rels (itemsLinks E r ct cName p l prev next) =
  "self" :: "alternate"
  :: ((if negb (String.eqb prev "") then ["prev"] else [])
      ++ (if negb (String.eqb next "") then ["next"] else []))%list.
Proof.
  intros Hct. apply supportedContentType_cases in Hct.
  unfold itemsLinks, rels. destruct Hct as [-> | ->].
  all: destruct (negb (String.eqb prev "")); destruct (negb (String.eqb next "")); reflexivity.
Qed.

Lemma itemsLinks_self r ct cName p l prev next :
  Type_ <$> head (itemsLinks E r ct cName p l prev next) = Some ct.
Proof. reflexivity. Qed.


Lemma itemsLinks_next r ct cName p l prev next :
  supportedContentType ct = true ->
  hrefOf "next" (itemsLinks E r ct cName p l prev next) =
  if negb (String.eqb next "") then Some next else None.
Proof.
  intros Hct. apply supportedContentType_cases in Hct.
  unfold itemsLinks, hrefOf. destruct Hct as [-> | ->].
  all: destruct (negb (String.eqb prev "")); destruct (negb (String.eqb next "")); reflexivity.
Qed.

Lemma hasRel_hrefOf rel links : hasRel rel links = bool_decide (is_Some (hrefOf rel links)).
Proof.
  unfold hasRel, hrefOf. induction links as [|l links IH]; [reflexivity |].
  cbn [existsb find]. destruct (String.eqb (Rel l) rel); [reflexivity | exact IH].
Qed.

(** The response to a request for the items of a collection whose
    parameters parse and whose collection the provider knows: the
    out-of-range error, the answer to HEAD, the error of a page link that
    does not parse, or the encoded feature collection. *)
Lemma items_run (r : Request) limit pageNum bbox timeprops cfs :
  let q := url.Query (URL r) in
  let cName := ByName (Params r) "name" in
  let ct := contentType r in
  ByName (Params r) "feature_id" = "" ->
  limitParam E q = inr limit ->
  pageParam q = inr pageNum ->
  bboxParam E q = inr bbox ->
  timeParam q = inr timeprops ->
  CollectionFeatures E cName (propertyFilters q timeprops) bbox = inr cfs ->
  exec (collectionData E r) =
  let total := Uint.wrap (Z.of_nat (length cfs)) in
  let startIdx := Uint.mul limit pageNum in
  let stopIdx := Uint.add startIdx limit in
  let w := withHeader NewRecorder "ETag" (contentIdOf cName) in
  if (total <=? startIdx) || (Z.min stopIdx total <? startIdx) then
    withError NewRecorder HTTPStatusServerError "InvalidParameterValue"
      (outOfRangeMessage startIdx stopIdx total)
  else if String.eqb (Method r) HTTPMethodHEAD then
    withStatus w (if String.eqb (Header_Get (Header r) "ETag") (contentIdOf cName)
                  then HTTPStatusNotModified else HTTPStatusOk)
  else
    match pageLink E r cName (0 <? pageNum) (Uint.sub pageNum 1) limit with
    | None => withError w 500 "NoApplicableCode" "problem parsing generated 'prev' link"
    | Some prev =>
        match pageLink E r cName (Uint.mul limit (Uint.add pageNum 1) <? total)
                (Uint.add pageNum 1) limit with
        | None => withError w 500 "NoApplicableCode" "problem parsing generated 'next' link"
        | Some next =>
            let features := map (toGeoJSON E) (slice cfs startIdx (Z.min stopIdx total)) in
            let content :=
              encodeAs E ct
                (EnvFeatureCollection
                   (mkFeatureCollection features
                      (itemsLinks E r ct cName pageNum limit prev next)
                      total (Uint.wrap (Z.of_nat (length features))))) in
            snd (respond E r ct FeatureCollectionJSONSchema (fst content) (snd content) w)
        end
    end.
Proof.
  intros q cName ct Hf Hl Hp Hb Ht Hc.
  unfold exec, collectionData. fold cName q ct.
  rewrite run_bind, featureIdParam_run, Hf. cbn [String.eqb]. step.
  rewrite run_bind, queryParams_run, Hl, Hp, Hb, Ht. step.
  rewrite run_bind, fetchData_items_run, Hc. step.
  destruct (_ || _); [reflexivity |]. step.
  rewrite run_bind, conditional_run.
  destruct (String.eqb (Method r) HTTPMethodHEAD); [reflexivity |]. step.
  rewrite run_bind, featureCollectionContent_run by apply contentType_supported.
  destruct (pageLink E r cName (0 <? pageNum) _ _) as [prev|]; [| reflexivity].
  destruct (pageLink E r cName (_ <? _) _ _) as [next|]; [| reflexivity].
  step. cbn [Features FeatureCollection_Links app].
  destruct (encodeAs E ct _) as [enc err]. reflexivity.
Qed.

(** What a response that carries an envelope was made from. *)
Lemma respond_carried r ct schema enc err (w : ResponseRecorder (Geometry E) (Value E)) e :
  Body w = [] ->
  Carries (snd (respond E r ct schema enc err w)) e ->
  enc = JSONOf e \/ enc = HTMLOf e.
Proof.
  intros Hw. rewrite respond_run. step.
  destruct (if String.eqb ct JSONContentType then _ else None).
  { cbn [snd]. intros H. exfalso. exact (error_not_carried _ _ _ _ _ H). }
  cbn [snd]. destruct err as [err|].
  { intros H. exfalso. revert H. unfold withError, Carries. rewrite !written_Body.
    rewrite withHeader_Body, written_Body, Hw. cbn. intros [H|H]; discriminate H. }
  unfold Carries. rewrite written_Body, withHeader_Body, Hw. cbn [app].
  destruct (overrideContent r); intros [H|H]; inversion H; auto.
Qed.

End Items.

Section Pagination.

Variable E : Env.

(** The envelope of a response with the items of a collection. *)
Lemma items_carried (r : Request) limit pageNum bbox timeprops cfs e :
  let q := url.Query (URL r) in
  let cName := ByName (Params r) "name" in
  let total := Uint.wrap (Z.of_nat (length cfs)) in
  let startIdx := Uint.mul limit pageNum in
  let stopIdx := Z.min (Uint.add startIdx limit) total in
  ByName (Params r) "feature_id" = "" ->
  limitParam E q = inr limit ->
  pageParam q = inr pageNum ->
  bboxParam E q = inr bbox ->
  timeParam q = inr timeprops ->
  CollectionFeatures E cName (propertyFilters q timeprops) bbox = inr cfs ->
  Carries (exec (collectionData E r)) e ->
  exists prev next,
    pageLink E r cName (0 <? pageNum) (Uint.sub pageNum 1) limit = Some prev /\
    pageLink E r cName (Uint.mul limit (Uint.add pageNum 1) <? total) (Uint.add pageNum 1) limit
    = Some next /\
    e = EnvFeatureCollection
          (mkFeatureCollection (map (toGeoJSON E) (slice cfs startIdx stopIdx))
             (itemsLinks E r (contentType r) cName pageNum limit prev next)
             total
             (Uint.wrap (Z.of_nat (length (map (toGeoJSON E) (slice cfs startIdx stopIdx)))))).
Proof.
  intros q cName total startIdx stopIdx Hf Hl Hp Hb Ht Hc.
  rewrite (items_run E r limit pageNum bbox timeprops cfs Hf Hl Hp Hb Ht Hc). step.
  fold q cName total startIdx. fold stopIdx.
  destruct (_ || _).
  { intros H. exfalso. exact (error_not_carried _ _ _ _ _ H). }
  destruct (String.eqb (Method r) HTTPMethodHEAD).
  { unfold Carries. rewrite withStatus_Body. cbn. intros [H|H]; discriminate H. }
  destruct (pageLink E r cName (0 <? pageNum) _ _) as [prev|].
  2: { intros H. exfalso. exact (error_not_carried _ _ _ _ _ H). }
  destruct (pageLink E r cName (_ <? _) _ _) as [next|].
  2: { intros H. exfalso. exact (error_not_carried _ _ _ _ _ H). }
  destruct (encodeAs E _ _) as [enc err] eqn:Henc. cbn [fst snd].
  intros H. apply respond_carried in H; [| reflexivity].
  destruct (encodeAs_carries E _ _ _ _ _ Henc H) as [-> _].
  exists prev, next. auto.
Qed.



(** C3, as amended: the request fails with the out-of-range error, which
    names the requested window and the total, if and only if the window
    starts at or after the total (an empty result included) or ends
    before it starts; the indices are the handler's unsigned 64-bit
    values, the end clamped to the total. *)
Theorem items_out_of_range (r : Request) limit pageNum bbox timeprops cfs :
  let q := url.Query (URL r) in
  let cName := ByName (Params r) "name" in
  let total := Z.of_nat (length cfs) in
  let startIdx := Uint.mul limit pageNum in
  let stopIdx := Uint.add startIdx limit in
  ByName (Params r) "feature_id" = "" ->
  limitParam E q = inr limit ->
  pageParam q = inr pageNum ->
  bboxParam E q = inr bbox ->
  timeParam q = inr timeprops ->
  CollectionFeatures E cName (propertyFilters q timeprops) bbox = inr cfs ->
  total <= Uint.max_int ->
  (Code (exec (collectionData E r)) = HTTPStatusServerError /\
   Body (exec (collectionData E r)) =
     [ErrorJSON "InvalidParameterValue" (outOfRangeMessage startIdx stopIdx total)])
  <-> (total <= startIdx \/ Z.min stopIdx total < startIdx).
Proof.
  intros q cName total startIdx stopIdx Hf Hl Hp Hb Ht Hc Hlen.
  pose proof (wrap_length cfs Hlen) as Hw.
  rewrite (items_run E r limit pageNum bbox timeprops cfs Hf Hl Hp Hb Ht Hc). step.
  fold q cName. rewrite Hw. fold total startIdx. fold stopIdx.
  destruct (_ || _) eqn:Hoor.
  { split; [intros _ | intros _; split; reflexivity].
    apply orb_true_iff in Hoor as [Hoor|Hoor];
      [left; apply Z.leb_le, Hoor | right; apply Z.ltb_lt, Hoor]. }
  assert (Hno : ~ (total <= startIdx \/ Z.min stopIdx total < startIdx)).
  { apply orb_false_iff in Hoor as [H1 H2]. apply Z.leb_gt in H1. apply Z.ltb_ge in H2. lia. }
  split; [| intros; contradiction]. intros [_ HB]. exfalso. revert HB.
  destruct (String.eqb (Method r) HTTPMethodHEAD).
  { rewrite withStatus_Body. discriminate. }
  destruct (pageLink E r cName (0 <? pageNum) _ _) as [prev|]; [| discriminate].
  destruct (pageLink E r cName (_ <? _) _ _) as [next|]; [| discriminate].
  rewrite respond_run. step.
  destruct (if String.eqb (contentType r) JSONContentType then _ else None).
  { cbn [snd]. unfold withError. rewrite written_Body, withHeader_Body.
    destruct (snd (encodeAs E _ _)); [| discriminate].
    unfold withError. rewrite written_Body. discriminate. }
  cbn [snd]. rewrite written_Body, withHeader_Body.
  destruct (snd (encodeAs E _ _)) eqn:Herr.
  { unfold withError. rewrite written_Body. discriminate. }
  cbn. unfold encodeAs, json_Marshal, MarshalHTML in *.
  destruct (overrideContent r); [discriminate |].
  destruct (String.eqb (contentType r) JSONContentType);
    [destruct (json_Marshal_error E _) | destruct (MarshalHTML_error E _)]; discriminate.
Qed.


End Pagination.

Section CollectionData.

Variable E : Env.

Implicit Types w : ResponseRecorder (Geometry E) (Value E).

Lemma respond_continues r ct schema enc err w w1 :
  continues w w1 -> continues w (snd (respond E r ct schema enc err w1)).
Proof.
  intros H. rewrite respond_run. step.
  destruct (if String.eqb ct JSONContentType then _ else None); cbn [snd].
  - apply continues_withError, continues_withHeader.
    destruct err; [apply continues_withError |]; exact H.
  - apply continues_written, continues_withHeader.
    destruct err; [apply continues_withError |]; exact H.
Qed.

(** The ETag of a response that is sent after the ETag block. *)
Lemma respond_sentETag r ct schema enc err w contentId :
  wroteHeader w = false ->
  HeaderMap w !! "ETag" = Some contentId ->
  sentETag (snd (respond E r ct schema enc err w)) = Some contentId.
Proof.
  intros Hw Hid. rewrite respond_run. step. unfold sentETag.
  assert (Hfirst : forall s c m, sentHeader (withError w s c m) !! "ETag" = Some contentId).
  { intros s c m. unfold withError. rewrite (proj2 (written_fresh w s _ Hw)). exact Hid. }
  assert (Hnext : forall w' s b,
             wroteHeader w' = true -> sentHeader (written (withHeader w' "Content-Type" ct) s b)
                                      = sentHeader w').
  { intros w' s b H.
    rewrite (proj2 (written_sent (withHeader w' "Content-Type" ct) s b H)). reflexivity. }
  assert (Hct : forall s b, sentHeader (written (withHeader w "Content-Type" ct) s b) !! "ETag"
                            = Some contentId).
  { intros s b. rewrite (proj2 (written_fresh (withHeader w "Content-Type" ct) s b Hw)).
    cbn [withHeader HeaderMap].
    rewrite lookup_insert_ne by discriminate. exact Hid. }
  destruct (if String.eqb ct JSONContentType then _ else None); cbn [snd].
  - unfold withError at 1. destruct err.
    + rewrite Hnext by apply withError_wroteHeader. apply Hfirst.
    + apply Hct.
  - destruct err.
    + rewrite Hnext by apply withError_wroteHeader. apply Hfirst.
    + apply Hct.
Qed.

(** A request for the items of a collection ends in an error, without an
    ETag, unless its parameters parse and the provider has the
    collection. *)
Lemma items_params (r : Request) :
  let q := url.Query (URL r) in
  let cName := ByName (Params r) "name" in
  ByName (Params r) "feature_id" = "" ->
  ErrorAnswer (exec (collectionData E r)) \/
  exists limit pageNum bbox timeprops cfs,
    limitParam E q = inr limit /\ pageParam q = inr pageNum /\
    bboxParam E q = inr bbox /\ timeParam q = inr timeprops /\
    CollectionFeatures E cName (propertyFilters q timeprops) bbox = inr cfs.
Proof.
  intros q cName Hf.
  destruct (limitParam E q) as [e|limit] eqn:Hl;
    [| destruct (pageParam q) as [e|pageNum] eqn:Hp;
       [| destruct (bboxParam E q) as [e|bbox] eqn:Hb;
          [| destruct (timeParam q) as [e|timeprops] eqn:Ht;
             [| destruct (CollectionFeatures E cName (propertyFilters q timeprops) bbox)
                  as [e|cfs] eqn:Hc]]]].
  6: { right. exists limit, pageNum, bbox, timeprops, cfs. auto. }
  all: left; unfold exec, collectionData; fold q cName.
  all: rewrite run_bind, featureIdParam_run, Hf; cbn [String.eqb]; step.
  all: rewrite run_bind, queryParams_run, Hl, ?Hp, ?Hb, ?Ht; step.
  1-4: apply NewRecorder_ErrorAnswer; left; reflexivity.
  rewrite run_bind, fetchData_items_run, Hc. step. cbn [snd].
  destruct e; apply NewRecorder_ErrorAnswer; [left | right]; reflexivity.
Qed.

(** The same for a request for one feature: the feature id is a number,
    the query parameters parse. *)
Lemma feature_params (r : Request) :
  let q := url.Query (URL r) in
  let fidStr := ByName (Params r) "feature_id" in
  fidStr <> "" ->
  ErrorAnswer (exec (collectionData E r)) \/
  exists cid limit pageNum bbox timeprops,
    strconv.Atoi fidStr = (cid, None) /\
    limitParam E q = inr limit /\ pageParam q = inr pageNum /\
    bboxParam E q = inr bbox /\ timeParam q = inr timeprops.
Proof.
  intros q fidStr Hf. apply String.eqb_neq in Hf.
  destruct (strconv.Atoi fidStr) as [cid [aerr|]] eqn:Ha.
  - (* the error is reported, and whatever follows comes after it *)
    left. unfold exec, collectionData. fold q fidStr.
    rewrite run_bind, featureIdParam_run, Hf, Ha. cbn [fst snd]. step.
    set (w0 := withError NewRecorder HTTPStatusClientError _ _).
    assert (H0 : ErrorAnswer w0) by (apply NewRecorder_ErrorAnswer; left; reflexivity).
    apply (continues_ErrorAnswer w0); [exact H0 |].
    assert (Hw0 : continues w0 w0) by (apply continues_refl, withError_wroteHeader).
    rewrite run_bind, queryParams_run.
    destruct (limitParam E q); [apply continues_withError, Hw0 |].
    destruct (pageParam q); [apply continues_withError, Hw0 |].
    destruct (bboxParam E q); [apply continues_withError, Hw0 |].
    destruct (timeParam q); [apply continues_withError, Hw0 |].
    step. rewrite run_bind, fetchData_feature_run by exact Hf.
    destruct (GetFeatures E _) as [e|[|pf [|pf' pfs]]].
    1: destruct e; apply continues_withError, Hw0.
    1, 3: apply continues_withError, Hw0.
    step. rewrite run_bind, conditional_run.
    destruct (String.eqb (Method r) HTTPMethodHEAD).
    { apply continues_withStatus, continues_withHeader, Hw0. }
    step. rewrite run_bind, featureContent_run by apply contentType_supported.
    step. destruct (encodeAs E _ _) as [enc err].
    apply respond_continues, continues_withHeader, Hw0.
  - destruct (limitParam E q) as [e|limit] eqn:Hl;
      [| destruct (pageParam q) as [e|pageNum] eqn:Hp;
         [| destruct (bboxParam E q) as [e|bbox] eqn:Hb;
            [| destruct (timeParam q) as [e|timeprops] eqn:Ht]]].
    5: { right. exists cid, limit, pageNum, bbox, timeprops. auto. }
    all: left; unfold exec, collectionData; fold q fidStr.
    all: rewrite run_bind, featureIdParam_run, Hf, Ha; cbn [fst snd]; step.
    all: rewrite run_bind, queryParams_run, Hl, ?Hp, ?Hb, ?Ht; step.
    all: apply NewRecorder_ErrorAnswer; left; reflexivity.
Qed.

(** The response to a request for one feature whose feature id and
    parameters parse. *)
Lemma feature_run (r : Request) cid limit pageNum bbox timeprops :
  let q := url.Query (URL r) in
  let cName := ByName (Params r) "name" in
  let fidStr := ByName (Params r) "feature_id" in
  let ct := contentType r in
  fidStr <> "" ->
  strconv.Atoi fidStr = (cid, None) ->
  limitParam E q = inr limit ->
  pageParam q = inr pageNum ->
  bboxParam E q = inr bbox ->
  timeParam q = inr timeprops ->
  exec (collectionData E r) =
  let fid := Uint.wrap cid in
  match GetFeatures E [(cName, fid)] with
  | inl e =>
      match e with
      | BadTimeString _ =>
          withError NewRecorder HTTPStatusClientError "InvalidParameterValue" (Error e)
      | _ =>
          withError NewRecorder HTTPStatusServerError "InvalidParameterValue"
            ("Problem collecting feature data: " +:+ Error e)
      end
  | inr [pf] =>
      let w := withHeader NewRecorder "ETag" (contentIdOf (cName +:+ Str.decimal fid)) in
      if String.eqb (Method r) HTTPMethodHEAD then
        withStatus w
          (if String.eqb (Header_Get (Header r) "ETag")
                (contentIdOf (cName +:+ Str.decimal fid))
           then HTTPStatusNotModified else HTTPStatusOk)
      else
        let content :=
          encodeAs E ct
            (EnvFeature (mkFeature (toGeoJSON E pf) (featureLinks E r ct cName fid))) in
        snd (respond E r ct FeatureJSONSchema (fst content) (snd content) w)
  | inr _ =>
      withError NewRecorder HTTPStatusServerError "InvalidParameterValue"
        ("Problem collecting feature data: Invalid collection/fid: " +:+ cName +:+ "/"
         +:+ Str.decimal fid)
  end.
Proof.
  intros q cName fidStr ct Hf Ha Hl Hp Hb Ht. apply String.eqb_neq in Hf.
  unfold exec, collectionData. fold q cName fidStr ct.
  rewrite run_bind, featureIdParam_run, Hf, Ha. cbn [fst snd]. step.
  rewrite run_bind, queryParams_run, Hl, Hp, Hb, Ht. step.
  rewrite run_bind, fetchData_feature_run by exact Hf.
  destruct (GetFeatures E _) as [e|[|pf [|pf' pfs]]]; try reflexivity.
  step. rewrite run_bind, conditional_run.
  destruct (String.eqb (Method r) HTTPMethodHEAD); [reflexivity |].
  step. rewrite run_bind, featureContent_run by apply contentType_supported.
  step. cbn [Feature_Feature Feature_Links app].
  destruct (encodeAs E ct _) as [enc err]. reflexivity.
Qed.

(** The answer of [collectionData] to HEAD. *)
Lemma collectionData_head (r : Request) :
  Method r = HTTPMethodHEAD ->
  HeadAnswer r (resourceId r) (exec (collectionData E r)) \/
  ErrorAnswer (exec (collectionData E r)).
Proof.
  intros Hm. unfold resourceId.
  destruct (String.eqb (ByName (Params r) "feature_id") "") eqn:Hf.
  - apply String.eqb_eq in Hf.
    destruct (items_params r Hf)
      as [Herr | (limit & pageNum & bbox & timeprops & cfs & Hl & Hp & Hb & Ht & Hc)];
      [right; exact Herr |].
    rewrite (items_run E r limit pageNum bbox timeprops cfs Hf Hl Hp Hb Ht Hc). step.
    destruct (_ || _); [right; apply NewRecorder_ErrorAnswer; right; reflexivity |].
    rewrite Hm. cbn [String.eqb Ascii.eqb Bool.eqb HTTPMethodHEAD].
    left. apply HeadAnswer_fresh.
  - apply String.eqb_neq in Hf.
    destruct (feature_params r Hf)
      as [Herr | (cid & limit & pageNum & bbox & timeprops & Ha & Hl & Hp & Hb & Ht)];
      [right; exact Herr |].
    rewrite (feature_run r cid limit pageNum bbox timeprops Hf Ha Hl Hp Hb Ht). step.
    rewrite Ha. cbn [fst].
    destruct (GetFeatures E _) as [e|[|pf [|pf' pfs]]].
    1: destruct e; right; apply NewRecorder_ErrorAnswer; [left | right]; reflexivity.
    1, 3: right; apply NewRecorder_ErrorAnswer; right; reflexivity.
    rewrite Hm. cbn [String.eqb Ascii.eqb Bool.eqb HTTPMethodHEAD].
    left. apply HeadAnswer_fresh.
Qed.

(** Whatever the parameters, an ETag sent for the items of a collection is
    the fingerprint of the collection name. *)
Lemma items_etag (r : Request) e :
  ByName (Params r) "feature_id" = "" ->
  sentETag (exec (collectionData E r)) = Some e ->
  e = contentIdOf (ByName (Params r) "name").
Proof.
  intros Hf.
  destruct (items_params r Hf)
    as [Herr | (limit & pageNum & bbox & timeprops & cfs & Hl & Hp & Hb & Ht & Hc)].
  { intros H. exfalso. exact (ErrorAnswer_no_ETag _ _ Herr H). }
  rewrite (items_run E r limit pageNum bbox timeprops cfs Hf Hl Hp Hb Ht Hc). step.
  destruct (_ || _); [discriminate |].
  destruct (String.eqb (Method r) HTTPMethodHEAD).
  { rewrite withStatus_ETag. congruence. }
  destruct (pageLink E r _ (0 <? pageNum) _ _) as [prev|].
  2: { rewrite withError_ETag. congruence. }
  destruct (pageLink E r _ (_ <? _) _ _) as [next|].
  2: { rewrite withError_ETag. congruence. }
  rewrite (respond_sentETag _ _ _ _ _ _ (contentIdOf (ByName (Params r) "name")));
    [congruence | reflexivity | apply lookup_insert_eq].
Qed.

(** The links of a feature collection in a response. *)
Lemma items_links (r : Request) e :
  ByName (Params r) "feature_id" = "" ->
  Carries (exec (collectionData E r)) e ->
  exists d tail,
    e = EnvFeatureCollection d /\
    rels (FeatureCollection_Links d) = "self" :: "alternate" :: tail /\
    Type_ <$> head (FeatureCollection_Links d) = Some (contentType r) /\
    (tail = [] \/ tail = ["prev"] \/ tail = ["next"] \/ tail = ["prev"; "next"]).
Proof.
  intros Hf HC.
  destruct (items_params r Hf)
    as [Herr | (limit & pageNum & bbox & timeprops & cfs & Hl & Hp & Hb & Ht & Hc)].
  { exfalso. exact (ErrorAnswer_not_carried _ _ Herr HC). }
  destruct (items_carried E r limit pageNum bbox timeprops cfs _ Hf Hl Hp Hb Ht Hc HC)
    as (prev & next & _ & _ & ->).
  eexists. eexists. split; [reflexivity |]. cbn [FeatureCollection_Links].
  rewrite itemsLinks_rels by apply contentType_supported.
  split; [reflexivity |]. split; [reflexivity |].
  destruct (negb (String.eqb prev "")); destruct (negb (String.eqb next "")); cbn; tauto.
Qed.

Lemma featureLinks_rels r ct cName fid :
  supportedContentType ct = true ->
  rels (featureLinks E r ct cName fid) =
  if String.eqb ct JSONContentType
  then ["self"; "alternate"; "collection"]
  else ["alternate"; "self"; "collection"].
Proof.
  intros Hct. apply supportedContentType_cases in Hct.
  destruct Hct as [-> | ->]; reflexivity.
Qed.

(** The links of a single feature in a response. *)
Lemma feature_links (r : Request) e :
  ByName (Params r) "feature_id" <> "" ->
  Carries (exec (collectionData E r)) e ->
  exists f,
    e = EnvFeature f /\
    rels (Feature_Links f) =
      if String.eqb (contentType r) JSONContentType
      then ["self"; "alternate"; "collection"]
      else ["alternate"; "self"; "collection"].
Proof.
  intros Hf HC.
  destruct (feature_params r Hf)
    as [Herr | (cid & limit & pageNum & bbox & timeprops & Ha & Hl & Hp & Hb & Ht)].
  { exfalso. exact (ErrorAnswer_not_carried _ _ Herr HC). }
  revert HC. rewrite (feature_run r cid limit pageNum bbox timeprops Hf Ha Hl Hp Hb Ht). step.
  destruct (GetFeatures E _) as [err|[|pf [|pf' pfs]]].
  1: destruct err; intros H; exfalso; exact (error_not_carried _ _ _ _ _ H).
  1, 3: intros H; exfalso; exact (error_not_carried _ _ _ _ _ H).
  destruct (String.eqb (Method r) HTTPMethodHEAD).
  { unfold Carries. rewrite withStatus_Body. cbn. intros [H|H]; discriminate H. }
  destruct (encodeAs E _ _) as [enc err] eqn:Henc. cbn [fst snd].
  intros H. apply respond_carried in H; [| reflexivity].
  destruct (encodeAs_carries E _ _ _ _ _ Henc H) as [-> _].
  eexists. split; [reflexivity |]. cbn [Feature_Links].
  apply featureLinks_rels, contentType_supported.
Qed.

End CollectionData.

(** ** Content negotiation: the precedence *)

(** C5, as amended: the negotiated content type is the first value of
    [f] when the request has that parameter and the value is supported,
    and JSON when the request has it and the value is not supported,
    whatever the Content-Type header says; without [f] it is the
    Content-Type header if that is a supported type, and JSON otherwise.
    The result is always a supported type: no request fails on it. *)
Theorem contentType_precedence (r : Request) :
  contentType r =
    match url.get (url.Query (URL r)) "f" with
    | f0 :: _ => if supportedContentType f0 then f0 else JSONContentType
    | [] =>
        let header := Header_Get (Header r) "Content-Type" in
        if supportedContentType header then header else JSONContentType
    end
  /\ supportedContentType (contentType r) = true.
Proof.
  split; [| apply contentType_supported].
  unfold contentType.
  destruct (url.get (url.Query (URL r)) "f") as [|f0 fs];
    destruct (supportedContentType (Header_Get (Header r) "Content-Type")) eqn:Hh; cbn zeta.
  - rewrite Hh. reflexivity.
  - reflexivity.
  - destruct (String.eqb_spec f0 (Header_Get (Header r) "Content-Type")) as [->|Hne]; simpl.
    + rewrite Hh. reflexivity.
    + destruct (supportedContentType f0); reflexivity.
  - destruct (String.eqb_spec f0 "") as [->|Hne]; simpl.
    + reflexivity.
    + destruct (supportedContentType f0); reflexivity.
Qed.

(** ** Fingerprints *)

Lemma FeatureCollectionData_id E cName bbox startIdx stopIdx properties checkOnly c total id :
  FeatureCollectionData E cName bbox startIdx stopIdx properties checkOnly = (c, total, id, None) ->
  id = contentIdOf cName.
Proof.
  unfold FeatureCollectionData. destruct checkOnly; [congruence |].
  destruct (CollectionFeatures E _ _ _); [congruence |].
  destruct (_ || _); congruence.
Qed.

Lemma FeatureData_id E cname fid checkOnly c id :
  FeatureData E cname fid checkOnly = (c, id, None) ->
  id = contentIdOf (cname +:+ Str.decimal fid).
Proof.
  unfold FeatureData. destruct checkOnly; [congruence |].
  destruct (GetFeatures E _) as [|[|pf [|? ?]]]; congruence.
Qed.

Lemma CollectionsMetaData_id E serveAddress checkOnly c id :
  CollectionsMetaData E serveAddress checkOnly = (c, id, None) ->
  id = contentIdOf serveAddress.
Proof.
  unfold CollectionsMetaData. destruct checkOnly; [congruence |].
  destruct (CollectionNames E); congruence.
Qed.

Lemma CollectionMetaData_id E name serveAddress checkOnly c id :
  CollectionMetaData E name serveAddress checkOnly = (c, id, None) ->
  id = contentIdOf (serveAddress +:+ name).
Proof.
  unfold CollectionMetaData. destruct checkOnly; [congruence |].
  destruct (CollectionNames E); [congruence |].
  destruct (negb _); congruence.
Qed.

(** C7: the ETags of two requests for the items of collections of the
    same name are the same, whatever the page, the limit, the bounding
    box, the time and the property filters of the two requests, and
    whatever the data: the ETag is the fingerprint of the name. The
    builders compute the fingerprint from the decisive inputs alone: the
    name for the items, the serve address for the list of collections,
    the serve address and the name for a collection, the name and the id
    for a feature. *)
Theorem fingerprint_decisive_inputs (E1 E2 : Env) (r1 r2 : Request) (e1 e2 : string) :
  ByName (Params r1) "feature_id" = "" ->
  ByName (Params r2) "feature_id" = "" ->
  ByName (Params r1) "name" = ByName (Params r2) "name" ->
  sentETag (exec (collectionData E1 r1)) = Some e1 ->
  sentETag (exec (collectionData E2 r2)) = Some e2 ->
  e1 = e2 /\
  e1 = contentIdOf (ByName (Params r1) "name") /\
  (forall cName bbox startIdx stopIdx properties checkOnly c total id,
      FeatureCollectionData E1 cName bbox startIdx stopIdx properties checkOnly
      = (c, total, id, None) ->
      id = contentIdOf cName) /\
  (forall serveAddress checkOnly c id,
      CollectionsMetaData E1 serveAddress checkOnly = (c, id, None) ->
      id = contentIdOf serveAddress) /\
  (forall name serveAddress checkOnly c id,
      CollectionMetaData E1 name serveAddress checkOnly = (c, id, None) ->
      id = contentIdOf (serveAddress +:+ name)) /\
  (forall cname fid checkOnly c id,
      FeatureData E1 cname fid checkOnly = (c, id, None) ->
      id = contentIdOf (cname +:+ Str.decimal fid)).
Proof.
  intros Hf1 Hf2 Hname H1 H2.
  apply (items_etag E1 r1 e1 Hf1) in H1. apply (items_etag E2 r2 e2 Hf2) in H2.
  split; [congruence |]. split; [exact H1 |].
  split; [intros *; apply FeatureCollectionData_id |].
  split; [intros *; apply CollectionsMetaData_id |].
  split; [intros *; apply CollectionMetaData_id | intros *; apply FeatureData_id].
Qed.

(** ** Repeated parameters *)

Section Repeated.

Variable E : Env.

Lemma repeated_limit q :
  (1 < length (url.get q "limit"))%nat -> limitParam E q = inr DEFAULT_RESULT_LIMIT.
Proof.
  unfold limitParam. destruct (url.get q "limit") as [|s [|s' l]]; simpl; [lia | lia | reflexivity].
Qed.

Lemma repeated_page q : (1 < length (url.get q "page"))%nat -> pageParam q = inr 0.
Proof.
  unfold pageParam. destruct (url.get q "page") as [|s [|s' l]]; simpl; [lia | lia | reflexivity].
Qed.

(** A repeated [limit] or [page] can be taken out of the query: the
    handler does the same. *)
Lemma collectionData_without key (r : Request) (u : url.URL) :
  key = "limit" \/ key = "page" ->
  (1 < length (url.get (url.Query (URL r)) key))%nat ->
  url.Query u = delete key (url.Query (URL r)) ->
  serveSchemeHostPortBase E (withURL r u) = serveSchemeHostPortBase E r ->
  collectionData E (withURL r u) = collectionData E r.
Proof.
  intros Hkey Hrep Hq Hs.
  assert (Hne : forall k, k = "f" \/ k = "bbox" \/ k = "time" -> key <> k).
  { intros k Hk. destruct Hkey as [-> | ->]; destruct Hk as [-> | [-> | ->]]; discriminate. }
  assert (Hct : contentType (withURL r u) = contentType r).
  { unfold contentType. cbn [withURL Header URL]. rewrite Hq, get_delete_ne by auto. reflexivity. }
  assert (Hl : limitParam E (delete key (url.Query (URL r))) = limitParam E (url.Query (URL r))).
  { destruct Hkey as [-> | ->].
    - rewrite (repeated_limit _ Hrep). unfold limitParam. now rewrite get_delete_eq.
    - unfold limitParam. now rewrite get_delete_ne. }
  assert (Hp : pageParam (delete key (url.Query (URL r))) = pageParam (url.Query (URL r))).
  { destruct Hkey as [-> | ->].
    - unfold pageParam. now rewrite get_delete_ne.
    - rewrite (repeated_page _ Hrep). unfold pageParam. now rewrite get_delete_eq. }
  assert (Hb : bboxParam E (delete key (url.Query (URL r))) = bboxParam E (url.Query (URL r))).
  { unfold bboxParam. rewrite get_delete_ne by auto. reflexivity. }
  assert (Ht : timeParam (delete key (url.Query (URL r))) = timeParam (url.Query (URL r))).
  { unfold timeParam. rewrite get_delete_ne by auto. reflexivity. }
  assert (Hpf : propertyFilters (delete key (url.Query (URL r)))
                = propertyFilters (url.Query (URL r))).
  { apply propertyFilters_delete.
    destruct Hkey as [-> | ->]; unfold reservedQParams; set_solver. }
  assert (Hqp : queryParams E (delete key (url.Query (URL r))) = queryParams E (url.Query (URL r))).
  { unfold queryParams. rewrite Hl, Hp, Hb, Ht, Hpf. reflexivity. }
  unfold collectionData, conditional, featureContent, featureCollectionContent, respond.
  rewrite Hct, Hs. cbn [Method Header URL Params overrideContent withURL].
  rewrite Hq, Hqp. reflexivity.
Qed.

(** C10: a [limit] that occurs more than once in the query is not an
    error and none of its values is used: the limit is the default, 10,
    and the response is the one to the request without any [limit]; in
    the same way a [page] that occurs more than once is page 0. *)
Theorem repeated_limit_page_default (r : Request) (u : url.URL) (key : string) :
  let q := url.Query (URL r) in
  key = "limit" \/ key = "page" ->
  (1 < length (url.get q key))%nat ->
  url.Query u = delete key q ->
  serveSchemeHostPortBase E (withURL r u) = serveSchemeHostPortBase E r ->
  (if String.eqb key "limit" then limitParam E q = inr DEFAULT_RESULT_LIMIT
   else pageParam q = inr 0) /\
  exec (collectionData E r) = exec (collectionData E (withURL r u)).
Proof.
  intros q Hkey Hrep Hq Hs. split.
  - destruct Hkey as [-> | ->]; cbn [String.eqb Ascii.eqb Bool.eqb].
    + apply repeated_limit, Hrep.
    + apply repeated_page, Hrep.
  - rewrite (collectionData_without key r u Hkey Hrep Hq Hs). reflexivity.
Qed.

End Repeated.

(** ** The other resources *)

Opaque conditional sendContent jsonError json_Marshal MarshalHTML.

Section Resources.

Variable E : Env.

Implicit Types w : ResponseRecorder (Geometry E) (Value E).

Lemma sendContent_carried r path ct enc w e :
  Body w = [] ->
  Carries (snd (sendContent E r path ct enc w)) e ->
  enc = JSONOf e \/ enc = HTMLOf e.
Proof.
  intros Hw. rewrite sendContent_run. step.
  destruct (if String.eqb ct JSONContentType then _ else None).
  { cbn [snd]. intros H. exfalso. exact (error_not_carried _ _ _ _ _ H). }
  cbn [snd]. unfold Carries. rewrite written_Body, withHeader_Body, Hw. cbn [app].
  destruct (overrideContent r); intros [H|H]; inversion H; auto.
Qed.

(** The response of [root]. *)
Lemma root_run (r : Request) :
  exec (root E r) =
  let ct := contentType r in
  let contentId := snd (Root E false) in
  let w := withHeader NewRecorder "ETag" contentId in
  if String.eqb (Method r) HTTPMethodHEAD then
    withStatus w (if String.eqb (Header_Get (Header r) "ETag") contentId
                  then HTTPStatusNotModified else HTTPStatusOk)
  else
    let content := encodeAs E ct (EnvRoot (mkRootContent (rootLinks E r ct))) in
    match snd content with
    | Some e => withError w HTTPStatusServerError "NoApplicableCode" (Error e)
    | None => snd (sendContent E r "/" ct (fst content) w)
    end.
Proof.
  unfold exec, root, rootLinks, encodeAs. destruct (Root E false) as [rootContent contentId].
  step. cbn [snd].
  destruct (contentType_cases r) as [Hct|Hct]; rewrite Hct.
  all: rewrite !ctLink_supported by reflexivity.
  all: cbn [alternatesOf String.eqb Ascii.eqb Bool.eqb JSONContentType HTMLContentType mapM map].
  all: rewrite !ctLink_supported by reflexivity.
  all: handler_steps.
  all: rewrite conditional_run.
  all: destruct (String.eqb (Method r) HTTPMethodHEAD); [reflexivity |]; step.
  all: match goal with |- context [json_Marshal E ?e] => destruct (json_Marshal E e) as [enc [err|]]
                  | |- context [MarshalHTML E ?e] => destruct (MarshalHTML E e) as [enc [err|]] end.
  all: cbn [fst snd]; rewrite ?jsonError_run; reflexivity.
Qed.

(** The response of [conformance]. *)
Lemma conformance_run (r : Request) :
  exec (conformance E r) =
  let ct := contentType r in
  let contentId := snd Conformance in
  let w := withHeader NewRecorder "ETag" contentId in
  if String.eqb (Method r) HTTPMethodHEAD then
    withStatus w (if String.eqb (Header_Get (Header r) "ETag") contentId
                  then HTTPStatusNotModified else HTTPStatusOk)
  else
    let content := encodeAs E ct (EnvConformance (fst Conformance)) in
    match snd content with
    | Some e =>
        withError w HTTPStatusServerError "NoApplicableCode"
          ("problem marshaling conformance declaration to " +:+ ct +:+ ": " +:+ Error e)
    | None => snd (sendContent E r "/conformance" ct (fst content) w)
    end.
Proof.
  unfold exec, conformance, encodeAs. destruct Conformance as [c contentId].
  step. cbn [fst snd].
  rewrite run_bind, conditional_run.
  destruct (String.eqb (Method r) HTTPMethodHEAD); [reflexivity |]. step.
  destruct (contentType_cases r) as [Hct|Hct]; rewrite Hct.
  all: cbn [String.eqb Ascii.eqb Bool.eqb JSONContentType HTMLContentType].
  all: handler_steps.
  all: match goal with |- context [json_Marshal E ?e] => destruct (json_Marshal E e) as [enc [err|]]
                  | |- context [MarshalHTML E ?e] => destruct (MarshalHTML E e) as [enc [err|]] end.
  all: cbn [fst snd]; rewrite ?jsonError_run; reflexivity.
Qed.

(** The response of [openapi]. *)
Lemma openapi_run (r : Request) :
  exec (openapi E r) =
  let ct := contentType r in
  if negb (String.eqb ct JSONContentType) then
    withError NewRecorder HTTPStatusServerError "InvalidParameterValue"
      ("Content-Type: ''" +:+ ct +:+ "'' not supported.")
  else
    let contentId := snd (OpenAPI3SchemaEncoded E ct) in
    let w := withHeader NewRecorder "ETag" contentId in
    if String.eqb (Method r) HTTPMethodHEAD then
      withStatus w (if String.eqb (Header_Get (Header r) "ETag") contentId
                    then HTTPStatusNotModified else HTTPStatusOk)
    else
      written (withHeader w "Content-Type" ct) HTTPStatusOk
        (RawBytes (match overrideContent r with
                   | Some b => b
                   | None => fst (OpenAPI3SchemaEncoded E ct)
                   end)).
Proof.
  unfold exec, openapi. step.
  rewrite run_bind.
  destruct (negb (String.eqb (contentType r) JSONContentType)).
  { rewrite run_bind, jsonError_run. reflexivity. }
  rewrite run_ret. destruct (OpenAPI3SchemaEncoded E _) as [doc contentId]. cbn [fst snd].
  rewrite run_bind, conditional_run.
  destruct (String.eqb (Method r) HTTPMethodHEAD); [reflexivity |]. step.
  reflexivity.
Qed.

(** The response of [collectionMetaData]. *)
Lemma collectionMetaData_run (r : Request) :
  exec (collectionMetaData E r) =
  let ct := contentType r in
  let cName := ByName (Params r) "name" in
  let sshpb := serveSchemeHostPortBase E r in
  if String.eqb cName "" then
    withError NewRecorder HTTPStatusClientError "MissingParameterValue" "No {name} provided"
  else
    match CollectionNames E with
    | inl e => withError NewRecorder HTTPStatusServerError "NoApplicableCode" (Error e)
    | inr cNames =>
        if negb (existsb (String.eqb cName) cNames) then
          withError NewRecorder HTTPStatusServerError "NoApplicableCode"
            ("Invalid collection name: " +:+ cName)
        else
          let contentId := contentIdOf (sshpb +:+ cName) in
          let w := withHeader NewRecorder "ETag" contentId in
          if String.eqb (Method r) HTTPMethodHEAD then
            withStatus w (if String.eqb (Header_Get (Header r) "ETag") contentId
                          then HTTPStatusNotModified else HTTPStatusOk)
          else
            let md :=
              mkCollectionInfo cName cName
                (collectionLinks E r ct cName
                 ++ [mkLink (sshpb +:+ "/collections/" +:+ cName) "self" ""]) in
            let content :=
              if String.eqb ct JSONContentType
              then json_Marshal E (EnvCollection (CollectionInfo_ContentType E ct md))
              else MarshalHTML E (EnvCollection md) in
            match snd content with
            | Some e => withError w HTTPStatusServerError "NoApplicableCode" (Error e)
            | None => snd (sendContent E r "/collections/{name}" ct (fst content) w)
            end
    end.
Proof.
  unfold exec, collectionMetaData, collectionLinks, CollectionMetaData. step.
  rewrite run_bind.
  destruct (String.eqb (ByName (Params r) "name") "").
  { rewrite run_bind, jsonError_run. reflexivity. }
  rewrite run_ret.
  destruct (CollectionNames E) as [e|cNames].
  { rewrite run_bind, run_bind, jsonError_run. reflexivity. }
  destruct (negb (existsb _ cNames)).
  { rewrite run_bind, run_bind, jsonError_run. reflexivity. }
  rewrite run_bind, run_ret.
  destruct (contentType_cases r) as [Hct|Hct]; rewrite Hct.
  all: cbn [String.eqb Ascii.eqb Bool.eqb JSONContentType HTMLContentType].
  all: rewrite !ctLink_supported by reflexivity.
  all: cbn [alternatesOf String.eqb Ascii.eqb Bool.eqb JSONContentType HTMLContentType mapM map].
  all: handler_steps.
  all: rewrite !ctLink_supported by reflexivity.
  all: handler_steps.
  all: rewrite conditional_run.
  all: destruct (String.eqb (Method r) HTTPMethodHEAD); [reflexivity |]; step.
  all: match goal with |- context [json_Marshal E ?e] => destruct (json_Marshal E e) as [enc [err|]]
                  | |- context [MarshalHTML E ?e] => destruct (MarshalHTML E e) as [enc [err|]] end.
  all: cbn [fst snd]; rewrite ?jsonError_run; reflexivity.
Qed.

Lemma other_types ct :
  supportedContentType ct = true ->
  filter (fun sct => ct <> sct) SupportedContentTypes = alternatesOf ct.
Proof.
  intros Hct. apply supportedContentType_cases in Hct. destruct Hct as [-> | ->]; reflexivity.
Qed.

(** With a supported content type, the entry of a collection in the list
    is a value: no link panics. *)
Lemma collectionEntry_pure base ct :
  supportedContentType ct = true ->
  exists g, forall c, collectionEntry E base ct c = mret (g c).
Proof.
  intros Hct. unfold collectionEntry. rewrite (other_types ct Hct).
  apply supportedContentType_cases in Hct. destruct Hct as [-> | ->].
  all: eexists (fun c => _); intros c.
  all: cbn [alternatesOf String.eqb Ascii.eqb Bool.eqb JSONContentType HTMLContentType
            SupportedContentTypes mapM map].
  all: rewrite !ctLink_supported by reflexivity.
  all: handler_steps; reflexivity.
Qed.

(** The response of [collectionsMetaData]. *)
Lemma collectionsMetaData_run (r : Request) :
  let ct := contentType r in
  let sshpb := serveSchemeHostPortBase E r in
  match CollectionNames E with
  | inl e =>
      exec (collectionsMetaData E r)
      = withError NewRecorder HTTPStatusServerError "NoApplicableCode" (Error e)
  | inr _ =>
      let contentId := contentIdOf sshpb in
      let w := withHeader NewRecorder "ETag" contentId in
      if String.eqb (Method r) HTTPMethodHEAD then
        exec (collectionsMetaData E r)
        = withStatus w (if String.eqb (Header_Get (Header r) "ETag") contentId
                        then HTTPStatusNotModified else HTTPStatusOk)
      else
        exists alt rest cols,
          Rel alt = "alternate" /\
          exec (collectionsMetaData E r) =
          let links := mkLink (ctHref E (sshpb +:+ "/collections") ct) "self" ct :: alt :: rest in
          let content := encodeAs E ct (EnvCollections (mkCollectionsInfo links cols)) in
          match snd content with
          | Some e => withError w HTTPStatusServerError "NoApplicableCode" (Error e)
          | None => snd (sendContent E r "/collections" ct (fst content) w)
          end
  end.
Proof.
  intros ct sshpb. unfold exec, collectionsMetaData, CollectionsMetaData. fold ct sshpb. step.
  destruct (CollectionNames E) as [e|cNames].
  { rewrite run_bind, run_bind, jsonError_run. reflexivity. }
  step. rewrite run_bind, run_ret, run_bind, conditional_run.
  destruct (String.eqb (Method r) HTTPMethodHEAD); [reflexivity |]. step.
  rewrite run_bind, run_ret.
  destruct (collectionEntry_pure (sshpb +:+ "/collections") ct (contentType_supported r))
    as [g Hg].
  rewrite (other_types ct (contentType_supported r)).
  rewrite (mapM_ret _ g _ Hg).
  unfold encodeAs.
  destruct (contentType_cases r) as [Hct|Hct]; fold ct in Hct; rewrite Hct.
  all: cbn [alternatesOf String.eqb Ascii.eqb Bool.eqb JSONContentType HTMLContentType mapM map].
  all: rewrite !ctLink_supported by reflexivity.
  all: handler_steps.
  all: match goal with
       | |- context [EnvCollections (mkCollectionsInfo (_ :: ?a :: ?rest) ?cols)] =>
           exists a, rest, cols
       end.
  all: split; [reflexivity |].
  all: match goal with |- context [json_Marshal E ?e] => destruct (json_Marshal E e) as [enc [err|]]
                  | |- context [MarshalHTML E ?e] => destruct (MarshalHTML E e) as [enc [err|]] end.
  all: cbn [fst snd]; rewrite ?jsonError_run; reflexivity.
Qed.

End Resources.

Section Envelopes.

Variable E : Env.

Implicit Types w : ResponseRecorder (Geometry E) (Value E).

(** The envelope of a response that goes out through [sendContent]. *)
Lemma sent_carried r path ct env w e (msg : error -> string) :
  Body w = [] ->
  Carries
    (match snd (encodeAs E ct env) with
     | Some err => withError w HTTPStatusServerError "NoApplicableCode" (msg err)
     | None => snd (sendContent E r path ct (fst (encodeAs E ct env)) w)
     end) e ->
  e = env.
Proof.
  intros Hw. destruct (encodeAs E ct env) as [enc [err|]] eqn:Henc; cbn [fst snd].
  { intros H. exfalso. exact (error_not_carried _ _ _ _ _ H). }
  intros H. apply sendContent_carried in H; [| exact Hw].
  exact (proj1 (encodeAs_carries E _ _ _ _ _ Henc H)).
Qed.

Lemma head_not_carried w s e : Body w = [] -> ~ Carries (withStatus w s) e.
Proof. intros Hw. unfold Carries. rewrite withStatus_Body, Hw. intros [H|H]; discriminate H. Qed.

Lemma rootLinks_rels r ct :
  supportedContentType ct = true ->
  rels (rootLinks E r ct) = ["self"; "alternate"; "service"; "conformance"; "data"].
Proof.
  intros Hct. apply supportedContentType_cases in Hct. destruct Hct as [-> | ->]; reflexivity.
Qed.

Lemma collectionLinks_rels r ct cName :
  supportedContentType ct = true ->
  rels (collectionLinks E r ct cName) = ["self"; "alternate"; "item"; "item"].
Proof.
  intros Hct. apply supportedContentType_cases in Hct. destruct Hct as [-> | ->]; reflexivity.
Qed.

(** *** HEAD *)

Lemma root_head r :
  Method r = HTTPMethodHEAD -> HeadAnswer r (snd (Root E false)) (exec (root E r)).
Proof.
  intros Hm. rewrite root_run. step. rewrite Hm.
  cbn [String.eqb Ascii.eqb Bool.eqb HTTPMethodHEAD]. apply HeadAnswer_fresh.
Qed.

Lemma conformance_head r :
  Method r = HTTPMethodHEAD -> HeadAnswer r (snd Conformance) (exec (conformance E r)).
Proof.
  intros Hm. rewrite conformance_run. step. rewrite Hm.
  cbn [String.eqb Ascii.eqb Bool.eqb HTTPMethodHEAD]. apply HeadAnswer_fresh.
Qed.

Lemma openapi_head r :
  Method r = HTTPMethodHEAD ->
  HeadAnswer r (snd (OpenAPI3SchemaEncoded E (contentType r))) (exec (openapi E r)) \/
  ErrorAnswer (exec (openapi E r)).
Proof.
  intros Hm. rewrite openapi_run. step.
  destruct (negb _); [right; apply NewRecorder_ErrorAnswer; right; reflexivity |].
  rewrite Hm. cbn [String.eqb Ascii.eqb Bool.eqb HTTPMethodHEAD]. left. apply HeadAnswer_fresh.
Qed.

Lemma collectionMetaData_head r :
  Method r = HTTPMethodHEAD ->
  HeadAnswer r (contentIdOf (serveSchemeHostPortBase E r +:+ ByName (Params r) "name"))
    (exec (collectionMetaData E r)) \/
  ErrorAnswer (exec (collectionMetaData E r)).
Proof.
  intros Hm. rewrite collectionMetaData_run. step.
  destruct (String.eqb _ ""); [right; apply NewRecorder_ErrorAnswer; left; reflexivity |].
  destruct (CollectionNames E); [right; apply NewRecorder_ErrorAnswer; right; reflexivity |].
  destruct (negb _); [right; apply NewRecorder_ErrorAnswer; right; reflexivity |].
  rewrite Hm. cbn [String.eqb Ascii.eqb Bool.eqb HTTPMethodHEAD]. left. apply HeadAnswer_fresh.
Qed.

Lemma collectionsMetaData_head r :
  Method r = HTTPMethodHEAD ->
  HeadAnswer r (contentIdOf (serveSchemeHostPortBase E r)) (exec (collectionsMetaData E r)) \/
  ErrorAnswer (exec (collectionsMetaData E r)).
Proof.
  intros Hm. pose proof (collectionsMetaData_run E r) as Hrun. cbv zeta in Hrun.
  destruct (CollectionNames E).
  { rewrite Hrun. right; apply NewRecorder_ErrorAnswer; right; reflexivity. }
  rewrite Hm in Hrun. cbn [String.eqb Ascii.eqb Bool.eqb HTTPMethodHEAD] in Hrun.
  rewrite Hrun. left. apply HeadAnswer_fresh.
Qed.

(** HEAD for the items of a collection is answered with the fingerprint
    whenever a GET would get as far as the page links. *)
Lemma items_head r limit pageNum bbox timeprops cfs :
  let q := url.Query (URL r) in
  let cName := ByName (Params r) "name" in
  let total := Uint.wrap (Z.of_nat (length cfs)) in
  let startIdx := Uint.mul limit pageNum in
  let stopIdx := Uint.add startIdx limit in
  Method r = HTTPMethodHEAD ->
  ByName (Params r) "feature_id" = "" ->
  limitParam E q = inr limit ->
  pageParam q = inr pageNum ->
  bboxParam E q = inr bbox ->
  timeParam q = inr timeprops ->
  CollectionFeatures E cName (propertyFilters q timeprops) bbox = inr cfs ->
  (total <=? startIdx) || (Z.min stopIdx total <? startIdx) = false ->
  HeadAnswer r (contentIdOf cName) (exec (collectionData E r)).
Proof.
  intros q cName total startIdx stopIdx Hm Hf Hl Hp Hb Ht Hc Hoor.
  rewrite (items_run E r limit pageNum bbox timeprops cfs Hf Hl Hp Hb Ht Hc). step.
  fold q cName total startIdx. fold stopIdx. rewrite Hoor, Hm.
  cbn [String.eqb Ascii.eqb Bool.eqb HTTPMethodHEAD]. apply HeadAnswer_fresh.
Qed.

(** C4, as amended: the answer to a HEAD request carries the fingerprint
    of the resource as ETag and no body, with status 304 when the ETag of
    the request is that fingerprint and status 200 otherwise; unless the
    request fails before the fingerprint is known, and then the answer is
    an error without ETag. The root and the conformance declaration
    always answer with the fingerprint, and so do the items of a
    collection when the parameters parse, the provider has the collection
    and the page is in range. *)
Theorem head_answers (r : Request) :
  Method r = HTTPMethodHEAD ->
  HeadAnswer r (snd (Root E false)) (exec (root E r)) /\
  HeadAnswer r (snd Conformance) (exec (conformance E r)) /\
  (HeadAnswer r (snd (OpenAPI3SchemaEncoded E (contentType r))) (exec (openapi E r)) \/
   ErrorAnswer (exec (openapi E r))) /\
  (HeadAnswer r (contentIdOf (serveSchemeHostPortBase E r)) (exec (collectionsMetaData E r)) \/
   ErrorAnswer (exec (collectionsMetaData E r))) /\
  (HeadAnswer r (contentIdOf (serveSchemeHostPortBase E r +:+ ByName (Params r) "name"))
     (exec (collectionMetaData E r)) \/
   ErrorAnswer (exec (collectionMetaData E r))) /\
  (HeadAnswer r (resourceId r) (exec (collectionData E r)) \/
   ErrorAnswer (exec (collectionData E r))) /\
  (forall limit pageNum bbox timeprops cfs,
      let q := url.Query (URL r) in
      let cName := ByName (Params r) "name" in
      let total := Uint.wrap (Z.of_nat (length cfs)) in
      let startIdx := Uint.mul limit pageNum in
      let stopIdx := Uint.add startIdx limit in
      ByName (Params r) "feature_id" = "" ->
      limitParam E q = inr limit ->
      pageParam q = inr pageNum ->
      bboxParam E q = inr bbox ->
      timeParam q = inr timeprops ->
      CollectionFeatures E cName (propertyFilters q timeprops) bbox = inr cfs ->
      (total <=? startIdx) || (Z.min stopIdx total <? startIdx) = false ->
      HeadAnswer r (contentIdOf cName) (exec (collectionData E r))).
Proof.
  intros Hm.
  split; [apply root_head, Hm |].
  split; [apply conformance_head, Hm |].
  split; [apply openapi_head, Hm |].
  split; [apply collectionsMetaData_head, Hm |].
  split; [apply collectionMetaData_head, Hm |].
  split; [apply collectionData_head, Hm |].
  intros limit pageNum bbox timeprops cfs q cName total startIdx stopIdx. apply items_head, Hm.
Qed.

(** C9, as amended: a request for the metadata of a collection without a
    name is a client error, status 400 with code [MissingParameterValue];
    with a name that is not the name of a collection it is a server
    error, status 500. *)
Theorem collection_name_errors (r : Request) :
  let name := ByName (Params r) "name" in
  let w := exec (collectionMetaData E r) in
  (name = "" ->
     Code w = HTTPStatusClientError /\
     Body w = [ErrorJSON "MissingParameterValue" "No {name} provided"]) /\
  (forall names, name <> "" -> CollectionNames E = inr names -> name ∉ names ->
     Code w = HTTPStatusServerError /\
     Body w = [ErrorJSON "NoApplicableCode" ("Invalid collection name: " +:+ name)]).
Proof.
  intros name w. subst w. rewrite collectionMetaData_run. step. fold name. split.
  - intros ->. split; reflexivity.
  - intros names H Hn Hni. apply String.eqb_neq in H. rewrite H, Hn.
    assert (existsb (String.eqb name) names = false) as ->.
    { apply not_true_is_false. intros Hex. apply existsb_exists in Hex as (x & Hin & Heq).
      apply String.eqb_eq in Heq. subst x. apply Hni. apply list_elem_of_In. exact Hin. }
    split; reflexivity.
Qed.

End Envelopes.

(** ** Further properties of the handlers *)

Section Further.

Variable E : Env.

Implicit Types w : ResponseRecorder (Geometry E) (Value E).


End Further.

Section Success.

Variable E : Env.

Implicit Types w : ResponseRecorder (Geometry E) (Value E).

(** What went out when [sendContent] sent an envelope. *)
Lemma sendContent_ok r path ct enc contentId e :
  let w := snd (sendContent E r path ct enc (withHeader NewRecorder "ETag" contentId)) in
  Carries w e ->
  Code w = HTTPStatusOk /\
  sentHeader w = <["Content-Type" := ct]> (<["ETag" := contentId]> ∅) /\
  (enc = JSONOf e \/ enc = HTMLOf e) /\
  (String.eqb ct JSONContentType = true ->
   ValidateJSONResponse E r path HTTPStatusOk
     (<["Content-Type" := ct]> (<["ETag" := contentId]> ∅)) enc = None).
Proof.
  intros w. subst w. rewrite sendContent_run. step.
  change (HeaderMap (withHeader (withHeader NewRecorder "ETag" contentId) "Content-Type" ct))
    with (<["Content-Type" := ct]> (<["ETag" := contentId]> (∅ : gmap string string))).
  destruct (String.eqb ct JSONContentType).
  - destruct (ValidateJSONResponse E r path _ _ _) as [verr|] eqn:Hv.
    { cbn [snd]. intros H. exfalso. exact (error_not_carried _ _ _ _ _ H). }
    cbn [snd]. intros H. split; [reflexivity |]. split; [reflexivity |].
    unfold Carries in H. rewrite written_Body in H. cbn in H.
    destruct (overrideContent r); [destruct H as [H|H]; discriminate H |].
    split; [destruct H as [H|H]; injection H as ->; auto | intros _; exact Hv].
  - cbn [snd]. intros H. split; [reflexivity |]. split; [reflexivity |].
    unfold Carries in H. rewrite written_Body in H. cbn in H.
    destruct (overrideContent r); [destruct H as [H|H]; discriminate H |].
    split; [destruct H as [H|H]; injection H as ->; auto | discriminate].
Qed.

(** The same for the end of [collectionData]. *)
Lemma respond_ok r ct schema enc err contentId e :
  let w := snd (respond E r ct schema enc err (withHeader NewRecorder "ETag" contentId)) in
  Carries w e ->
  Code w = HTTPStatusOk /\
  sentHeader w = <["Content-Type" := ct]> (<["ETag" := contentId]> ∅) /\
  (enc = JSONOf e \/ enc = HTMLOf e) /\ err = None /\
  (String.eqb ct JSONContentType = true ->
   ValidateJSONResponseAgainstJSONSchema E enc schema = None).
Proof.
  intros w. subst w. rewrite respond_run. step.
  destruct err as [err|].
  { intros H. exfalso. revert H.
    destruct (if String.eqb ct JSONContentType then _ else None); cbn [snd].
    - apply error_not_carried.
    - unfold Carries. rewrite written_Body. cbn. intros [H|H]; discriminate H. }
  destruct (String.eqb ct JSONContentType).
  - destruct (ValidateJSONResponseAgainstJSONSchema E _ schema) as [verr|] eqn:Hv.
    { cbn [snd]. intros H. exfalso. exact (error_not_carried _ _ _ _ _ H). }
    cbn [snd]. intros H. split; [reflexivity |]. split; [reflexivity |].
    unfold Carries in H. rewrite written_Body in H. cbn in H.
    destruct (overrideContent r); [destruct H as [H|H]; discriminate H |].
    split; [destruct H as [H|H]; injection H as ->; auto |]. split; [reflexivity |].
    intros _. exact Hv.
  - cbn [snd]. intros H. split; [reflexivity |]. split; [reflexivity |].
    unfold Carries in H. rewrite written_Body in H. cbn in H.
    destruct (overrideContent r); [destruct H as [H|H]; discriminate H |].
    split; [destruct H as [H|H]; injection H as ->; auto |]. split; [reflexivity | discriminate].
Qed.

(** The response of a handler that ends with [sendContent]. *)
Lemma sent_ok r path ct env contentId e (msg : error -> string) :
  let w0 := withHeader (NewRecorder : ResponseRecorder (Geometry E) (Value E)) "ETag" contentId in
  let w := match snd (encodeAs E ct env) with
           | Some err => withError w0 HTTPStatusServerError "NoApplicableCode" (msg err)
           | None => snd (sendContent E r path ct (fst (encodeAs E ct env)) w0)
           end in
  Carries w e ->
  e = env /\
  Code w = HTTPStatusOk /\
  sentHeader w = <["Content-Type" := ct]> (<["ETag" := contentId]> ∅) /\
  (String.eqb ct JSONContentType = true ->
   ValidateJSONResponse E r path HTTPStatusOk
     (<["Content-Type" := ct]> (<["ETag" := contentId]> ∅)) (JSONOf e) = None).
Proof.
  intros w0 w. subst w w0.
  destruct (encodeAs E ct env) as [enc [err|]] eqn:Henc; cbn [fst snd].
  { intros H. exfalso. exact (error_not_carried _ _ _ _ _ H). }
  intros H. destruct (sendContent_ok r path ct enc contentId e H) as (Hcode & Hhdr & Hkind & Hval).
  destruct (encodeAs_carries E _ _ _ _ _ Henc Hkind) as [-> _].
  split; [reflexivity |]. split; [exact Hcode |]. split; [exact Hhdr |].
  intros Hct. specialize (Hval Hct).
  destruct Hkind as [-> | ->]; [exact Hval |].
  exfalso. pose proof (proj2 (encodeAs_kind E ct env env)) as Hk.
  rewrite Henc in Hk. cbn [fst] in Hk. rewrite (Hk eq_refl) in Hct. discriminate Hct.
Qed.

(** The path under which a handler has its JSON checked. *)
Lemma collectionData_ok r e :
  let w := exec (collectionData E r) in
  Carries w e ->
  Code w = HTTPStatusOk /\
  sentHeader w = <["Content-Type" := contentType r]> (<["ETag" := resourceId r]> ∅) /\
  (String.eqb (contentType r) JSONContentType = true ->
   ValidateJSONResponseAgainstJSONSchema E (JSONOf e)
     (if String.eqb (ByName (Params r) "feature_id") ""
      then FeatureCollectionJSONSchema else FeatureJSONSchema) = None).
Proof.
  intros w HC. subst w. unfold resourceId.
  destruct (String.eqb (ByName (Params r) "feature_id") "") eqn:Hf.
  - apply String.eqb_eq in Hf.
    destruct (items_params E r Hf)
      as [Herr | (limit & pageNum & bbox & timeprops & cfs & Hl & Hp & Hb & Ht & Hc)].
    { exfalso. exact (ErrorAnswer_not_carried _ _ Herr HC). }
    revert HC. rewrite (items_run E r limit pageNum bbox timeprops cfs Hf Hl Hp Hb Ht Hc). step.
    destruct (_ || _).
    { intros H. exfalso. exact (error_not_carried _ _ _ _ _ H). }
    destruct (String.eqb (Method r) HTTPMethodHEAD).
    { intros H. exfalso. refine (head_not_carried E _ _ _ _ H); reflexivity. }
    destruct (pageLink E r _ (0 <? pageNum) _ _) as [prev|].
    2: { intros H. exfalso. exact (error_not_carried _ _ _ _ _ H). }
    destruct (pageLink E r _ (_ <? _) _ _) as [next|].
    2: { intros H. exfalso. exact (error_not_carried _ _ _ _ _ H). }
    set (env := EnvFeatureCollection _).
    intros H. destruct (respond_ok _ _ _ _ _ _ _ H) as (Hcode & Hhdr & Hkind & Herr & Hval).
    split; [exact Hcode |]. split; [exact Hhdr |].
    intros Hct. specialize (Hval Hct).
    destruct Hkind as [Hk | Hk]; [rewrite Hk in Hval; exact Hval |].
    exfalso. apply (proj2 (encodeAs_kind E _ _ _)) in Hk. rewrite Hk in Hct. discriminate Hct.
  - apply String.eqb_neq in Hf.
    destruct (feature_params E r Hf)
      as [Herr | (cid & limit & pageNum & bbox & timeprops & Ha & Hl & Hp & Hb & Ht)].
    { exfalso. exact (ErrorAnswer_not_carried _ _ Herr HC). }
    revert HC. rewrite (feature_run E r cid limit pageNum bbox timeprops Hf Ha Hl Hp Hb Ht). step.
    rewrite Ha. cbn [fst].
    destruct (GetFeatures E _) as [err|[|pf [|pf' pfs]]].
    1: destruct err; intros H; exfalso; exact (error_not_carried _ _ _ _ _ H).
    1, 3: intros H; exfalso; exact (error_not_carried _ _ _ _ _ H).
    destruct (String.eqb (Method r) HTTPMethodHEAD).
    { intros H. exfalso. refine (head_not_carried E _ _ _ _ H); reflexivity. }
    intros H. destruct (respond_ok _ _ _ _ _ _ _ H) as (Hcode & Hhdr & Hkind & Herr & Hval).
    split; [exact Hcode |]. split; [exact Hhdr |].
    intros Hct. specialize (Hval Hct).
    destruct Hkind as [Hk | Hk]; [rewrite Hk in Hval; exact Hval |].
    exfalso. apply (proj2 (encodeAs_kind E _ _ _)) in Hk. rewrite Hk in Hct. discriminate Hct.
Qed.

(** X15: a response that carries an envelope has status 200 and, in its
    header, the negotiated Content-Type and the ETag, and nothing else. *)
Theorem success_headers (r : Request) w e :
  Produced E r w -> Carries w e ->
  Code w = HTTPStatusOk /\
  exists contentId,
    sentHeader w = <["Content-Type" := contentType r]> (<["ETag" := contentId]> ∅).
Proof.
  intros [-> | [-> | [-> | [-> | ->]]]].
  - rewrite root_run. step.
    destruct (String.eqb (Method r) HTTPMethodHEAD).
    { intros H. exfalso. refine (head_not_carried E _ _ _ _ H); reflexivity. }
    intros H. destruct (sent_ok _ _ _ _ _ _ Error H) as (_ & Hc & Hh & _). eauto.
  - rewrite conformance_run. step.
    destruct (String.eqb (Method r) HTTPMethodHEAD).
    { intros H. exfalso. refine (head_not_carried E _ _ _ _ H); reflexivity. }
    intros H.
    destruct (sent_ok _ _ _ _ _ _
                (fun e => "problem marshaling conformance declaration to " +:+ contentType r
                          +:+ ": " +:+ Error e) H) as (_ & Hc & Hh & _). eauto.
  - pose proof (collectionsMetaData_run E r) as Hrun. cbv zeta in Hrun.
    destruct (CollectionNames E) as [err|cNames].
    { rewrite Hrun. intros H. exfalso. exact (error_not_carried _ _ _ _ _ H). }
    destruct (String.eqb (Method r) HTTPMethodHEAD).
    { rewrite Hrun. intros H. exfalso. refine (head_not_carried E _ _ _ _ H); reflexivity. }
    destruct Hrun as (alt & rest & cols & Halt & ->).
    intros H. destruct (sent_ok _ _ _ _ _ _ Error H) as (_ & Hc & Hh & _). eauto.
  - rewrite collectionMetaData_run. step.
    destruct (String.eqb (ByName (Params r) "name") "").
    { intros H. exfalso. exact (error_not_carried _ _ _ _ _ H). }
    destruct (CollectionNames E) as [err|cNames].
    { intros H. exfalso. exact (error_not_carried _ _ _ _ _ H). }
    destruct (negb _).
    { intros H. exfalso. exact (error_not_carried _ _ _ _ _ H). }
    destruct (String.eqb (Method r) HTTPMethodHEAD).
    { intros H. exfalso. refine (head_not_carried E _ _ _ _ H); reflexivity. }
    set (md := mkCollectionInfo _ _ _).
    assert (Henc : (if String.eqb (contentType r) JSONContentType
                    then json_Marshal E (EnvCollection (CollectionInfo_ContentType E (contentType r) md))
                    else MarshalHTML E (EnvCollection md))
                   = encodeAs E (contentType r)
                       (EnvCollection (if String.eqb (contentType r) JSONContentType
                                       then CollectionInfo_ContentType E (contentType r) md
                                       else md))).
    { unfold encodeAs. destruct (String.eqb (contentType r) JSONContentType); reflexivity. }
    rewrite Henc. intros H. destruct (sent_ok _ _ _ _ _ _ Error H) as (_ & Hc & Hh & _). eauto.
  - intros H. destruct (collectionData_ok r e H) as (Hc & Hh & _). eauto.
Qed.

(** X16: a JSON envelope that [collectionData] sends has passed the check
    against the schema of its kind: the feature collection schema for
    the items, the feature schema for a single feature. *)
Theorem sent_json_is_checked (r : Request) e :
  String.eqb (contentType r) JSONContentType = true ->
  Carries (exec (collectionData E r)) e ->
  ValidateJSONResponseAgainstJSONSchema E (JSONOf e)
    (if String.eqb (ByName (Params r) "feature_id") ""
     then FeatureCollectionJSONSchema else FeatureJSONSchema) = None.
Proof.
  intros Hct HC. destruct (collectionData_ok r e HC) as (_ & _ & Hval).
  exact (Hval Hct).
Qed.

End Success.

(** ** One feature *)

Section OneFeature.

Variable E : Env.

Implicit Types w : ResponseRecorder (Geometry E) (Value E).

(** After the report of a malformed feature id the handler goes on, and
    everything it does comes after the error that went out. *)
Lemma feature_id_error_continues (r : Request) :
  let fidStr := ByName (Params r) "feature_id" in
  fidStr <> "" ->
  snd (strconv.Atoi fidStr) <> None ->
  continues
    (withError (NewRecorder : ResponseRecorder (Geometry E) (Value E))
       HTTPStatusClientError "InvalidParameterValue" ("Invalid feature_id: " +:+ fidStr))
    (exec (collectionData E r)).
Proof.
  intros fidStr Hf Ha.
  set (w0 := withError (NewRecorder : ResponseRecorder (Geometry E) (Value E))
               HTTPStatusClientError "InvalidParameterValue"
               ("Invalid feature_id: " +:+ fidStr)).
  apply String.eqb_neq in Hf.
  destruct (strconv.Atoi fidStr) as [cid [aerr|]] eqn:Hatoi; [| contradiction Ha; reflexivity].
  unfold exec, collectionData. fold fidStr.
  rewrite run_bind, featureIdParam_run, Hf, Hatoi. cbn [fst snd]. step. fold w0.
  assert (Hw0 : continues w0 w0) by (apply continues_refl, withError_wroteHeader).
  rewrite run_bind, queryParams_run.
  destruct (limitParam E _); [apply continues_withError, Hw0 |].
  destruct (pageParam _); [apply continues_withError, Hw0 |].
  destruct (bboxParam E _); [apply continues_withError, Hw0 |].
  destruct (timeParam _); [apply continues_withError, Hw0 |].
  step. rewrite run_bind, fetchData_feature_run by exact Hf.
  destruct (GetFeatures E _) as [e|[|pf [|pf' pfs]]].
  1: destruct e; apply continues_withError, Hw0.
  1, 3: apply continues_withError, Hw0.
  step. rewrite run_bind, conditional_run.
  destruct (String.eqb (Method r) HTTPMethodHEAD).
  { apply continues_withStatus, continues_withHeader, Hw0. }
  step. rewrite run_bind, featureContent_run by apply contentType_supported.
  step. destruct (encodeAs E _ _) as [enc err].
  apply respond_continues, continues_withHeader, Hw0.
Qed.

(** X17: a feature id that is not a number is reported with status 400 and
    the error [Invalid feature_id], and no header of the handler goes
    out, so no ETag; the handler does not stop there, and whatever it
    writes afterwards follows the error in the body. *)
Theorem bad_feature_id (r : Request) :
  let fidStr := ByName (Params r) "feature_id" in
  let w := exec (collectionData E r) in
  fidStr <> "" ->
  snd (strconv.Atoi fidStr) <> None ->
  Code w = HTTPStatusClientError /\
  sentHeader w = ∅ /\
  exists rest,
    Body w = ErrorJSON "InvalidParameterValue" ("Invalid feature_id: " +:+ fidStr) :: rest.
Proof.
  intros fidStr w Hf Ha. subst w.
  destruct (feature_id_error_continues r Hf Ha) as (_ & Hc & Hs & rest & Hb).
  split; [exact Hc |]. split; [exact Hs |]. exists rest. exact Hb.
Qed.

(** X18: every ETag that [collectionData] sends is the fingerprint of the
    resource the route names: of the collection name for the items, of
    the collection name followed by the feature id, read as an unsigned
    number, for a feature. *)
Theorem collectionData_etag (r : Request) e :
  sentETag (exec (collectionData E r)) = Some e -> e = resourceId r.
Proof.
  unfold resourceId.
  destruct (String.eqb (ByName (Params r) "feature_id") "") eqn:Hf.
  { apply String.eqb_eq in Hf. apply items_etag, Hf. }
  apply String.eqb_neq in Hf.
  destruct (feature_params E r Hf)
    as [Herr | (cid & limit & pageNum & bbox & timeprops & Ha & Hl & Hp & Hb & Ht)].
  { intros H. exfalso. exact (ErrorAnswer_no_ETag _ _ Herr H). }
  rewrite (feature_run E r cid limit pageNum bbox timeprops Hf Ha Hl Hp Hb Ht). step.
  rewrite Ha. cbn [fst].
  destruct (GetFeatures E _) as [err|[|pf [|pf' pfs]]].
  1: destruct err; discriminate.
  1, 3: discriminate.
  destruct (String.eqb (Method r) HTTPMethodHEAD).
  { rewrite withStatus_ETag. congruence. }
  rewrite (respond_sentETag _ _ _ _ _ _ _
             (contentIdOf (ByName (Params r) "name"
                           +:+ Str.decimal (Uint.wrap cid))));
    [congruence | reflexivity | apply lookup_insert_eq].
Qed.

(** X19: a request for a feature whose id is a number and whose query
    parameters parse, for which the provider does not find exactly one
    feature, is answered with status 500 and the error
    [Invalid collection/fid]; the id in the message is the one of the
    route read as an unsigned number. *)
Theorem unknown_feature (r : Request) cid limit pageNum bbox timeprops pfs :
  let q := url.Query (URL r) in
  let cName := ByName (Params r) "name" in
  let fidStr := ByName (Params r) "feature_id" in
  let w := exec (collectionData E r) in
  fidStr <> "" ->
  strconv.Atoi fidStr = (cid, None) ->
  limitParam E q = inr limit ->
  pageParam q = inr pageNum ->
  bboxParam E q = inr bbox ->
  timeParam q = inr timeprops ->
  GetFeatures E [(cName, Uint.wrap cid)] = inr pfs ->
  length pfs <> 1%nat ->
  Code w = HTTPStatusServerError /\
  sentHeader w = ∅ /\
  Body w = [ErrorJSON "InvalidParameterValue"
              ("Problem collecting feature data: Invalid collection/fid: " +:+ cName +:+ "/"
               +:+ Str.decimal (Uint.wrap cid))].
Proof.
  intros q cName fidStr w Hf Ha Hl Hp Hb Ht Hg Hlen. subst w.
  rewrite (feature_run E r cid limit pageNum bbox timeprops Hf Ha Hl Hp Hb Ht). step.
  fold cName. rewrite Hg.
  destruct pfs as [|pf [|pf' pfs]]; [| contradiction Hlen; reflexivity |].
  all: split; [reflexivity |]; split; reflexivity.
Qed.

(** The response when a query parameter does not parse and the feature
    id, if any, does. *)
Lemma parameter_error_run (r : Request) e :
  let fidStr := ByName (Params r) "feature_id" in
  fidStr = "" \/ snd (strconv.Atoi fidStr) = None ->
  parameterError E (url.Query (URL r)) = Some e ->
  exec (collectionData E r)
  = withError NewRecorder HTTPStatusClientError (Code_ e) (Description e).
Proof.
  intros fidStr Hfid He.
  unfold exec, collectionData. fold fidStr.
  rewrite run_bind, featureIdParam_run.
  assert (Hstart :
    (if String.eqb fidStr ""
     then (Continue 0, (NewRecorder : ResponseRecorder (Geometry E) (Value E)))
     else (Continue (Uint.wrap (fst (strconv.Atoi fidStr))),
           match snd (strconv.Atoi fidStr) with
           | Some _ =>
               withError (NewRecorder : ResponseRecorder (Geometry E) (Value E))
                 HTTPStatusClientError "InvalidParameterValue"
                 ("Invalid feature_id: " +:+ fidStr)
           | None => NewRecorder
           end))
    = (Continue (if String.eqb fidStr "" then 0 else Uint.wrap (fst (strconv.Atoi fidStr))),
       NewRecorder)).
  { destruct Hfid as [-> | ->]; [reflexivity |].
    destruct (String.eqb fidStr ""); reflexivity. }
  rewrite Hstart. step.
  rewrite run_bind, queryParams_run. unfold parameterError in He.
  destruct (limitParam E _); [injection He as ->; reflexivity |].
  destruct (pageParam _); [injection He as ->; reflexivity |].
  destruct (bboxParam E _); [injection He as ->; reflexivity |].
  destruct (timeParam _); [injection He as ->; reflexivity | discriminate He].
Qed.

(** X20: the query parameters are read in the order limit, page, bbox, time,
    for the items and for a feature alike. When the route has no feature
    id, or one that is a number, the first parameter that does not parse
    ends the request with status 400 and its error alone. *)
Theorem parameter_errors (r : Request) e :
  let fidStr := ByName (Params r) "feature_id" in
  let w := exec (collectionData E r) in
  fidStr = "" \/ snd (strconv.Atoi fidStr) = None ->
  parameterError E (url.Query (URL r)) = Some e ->
  Code w = HTTPStatusClientError /\
  sentHeader w = ∅ /\
  Body w = [ErrorJSON (Code_ e) (Description e)].
Proof.
  intros fidStr w Hfid He. subst w.
  rewrite (parameter_error_run r e Hfid He). split; [reflexivity |]. split; reflexivity.
Qed.

End OneFeature.

(** ** The service description *)

Section Description.

Variable E : Env.

(** X21: [openapi] serves JSON only: when HTML is negotiated the answer is
    status 500 with an error and no ETag; otherwise the document goes out
    as it is, unchecked, with status 200, its ETag and the content
    type. *)
Theorem openapi_json_only (r : Request) :
  let w := exec (openapi E r) in
  let doc := OpenAPI3SchemaEncoded E JSONContentType in
  (contentType r = HTMLContentType ->
   Code w = HTTPStatusServerError /\ sentHeader w = ∅ /\
   Body w = [ErrorJSON "InvalidParameterValue" "Content-Type: ''text/html'' not supported."]) /\
  (contentType r = JSONContentType -> Method r <> HTTPMethodHEAD ->
   Code w = HTTPStatusOk /\
   sentHeader w = <["Content-Type" := JSONContentType]> (<["ETag" := snd doc]> ∅) /\
   Body w = [RawBytes (default (fst doc) (overrideContent r))]).
Proof.
  intros w doc. subst w doc. rewrite openapi_run. step. split.
  - intros ->. split; [reflexivity |]. split; reflexivity.
  - intros -> Hm. apply String.eqb_neq in Hm. rewrite Hm.
    cbn [negb String.eqb Ascii.eqb Bool.eqb JSONContentType].
    split; [reflexivity |]. split; [reflexivity |].
    destruct (overrideContent r); reflexivity.
Qed.

End Description.

(** ** Status codes *)

Section Status.

Variable E : Env.

Implicit Types w : ResponseRecorder (Geometry E) (Value E).

Lemma sendContent_status r path ct enc w :
  wroteHeader w = false ->
  Code (snd (sendContent E r path ct enc w)) = HTTPStatusOk \/
  Code (snd (sendContent E r path ct enc w)) = HTTPStatusServerError.
Proof.
  intros Hw. rewrite sendContent_run. step.
  destruct (if String.eqb ct JSONContentType then _ else None); cbn [snd]; [right | left].
  - unfold withError. apply (written_fresh (withHeader w "Content-Type" ct)). exact Hw.
  - apply (written_fresh (withHeader w "Content-Type" ct)). exact Hw.
Qed.

Lemma respond_status r ct schema enc err w :
  wroteHeader w = false ->
  Code (snd (respond E r ct schema enc err w)) = HTTPStatusOk \/
  Code (snd (respond E r ct schema enc err w)) = HTTPStatusServerError.
Proof.
  intros Hw. rewrite respond_run. step.
  assert (H1 : forall s b,
             Code (written (withHeader
                              match err with
                              | Some e =>
                                  withError w HTTPStatusServerError "oApplicableCode"
                                    ("Problem marshalling feature data: " +:+ Error e)
                              | None => w
                              end "Content-Type" ct) s b)
             = match err with Some _ => HTTPStatusServerError | None => s end).
  { intros s b. destruct err as [e|].
    - set (w1 := withError w _ _ _).
      rewrite (proj1 (written_sent (withHeader w1 "Content-Type" ct) s b
                        (withError_wroteHeader _ _ _ _))).
      apply (written_fresh w). exact Hw.
    - apply (written_fresh (withHeader w "Content-Type" ct)). exact Hw. }
  destruct (if String.eqb ct JSONContentType then _ else None); cbn [snd].
  - right. unfold withError at 1. rewrite H1. destruct err; reflexivity.
  - rewrite H1. destruct err; [right | left]; reflexivity.
Qed.

Lemma status_of_code (r : Request) w :
  Code w = HTTPStatusOk \/ Code w = HTTPStatusClientError \/ Code w = HTTPStatusServerError ->
  (Code w = HTTPStatusOk \/ Code w = HTTPStatusNotModified \/
   Code w = HTTPStatusClientError \/ Code w = HTTPStatusServerError) /\
  (Code w = HTTPStatusNotModified ->
   Method r = HTTPMethodHEAD /\ Body w = [] /\
   sentETag w = Some (Header_Get (Header r) "ETag")).
Proof.
  intros H. split; [tauto |].
  intros H304. exfalso. rewrite H304 in H. destruct H as [H | [H | H]]; discriminate H.
Qed.

Lemma status_of_head (r : Request) contentId :
  String.eqb (Method r) HTTPMethodHEAD = true ->
  let w := withStatus (withHeader (NewRecorder : ResponseRecorder (Geometry E) (Value E))
                         "ETag" contentId)
             (if String.eqb (Header_Get (Header r) "ETag") contentId
              then HTTPStatusNotModified else HTTPStatusOk) in
  (Code w = HTTPStatusOk \/ Code w = HTTPStatusNotModified \/
   Code w = HTTPStatusClientError \/ Code w = HTTPStatusServerError) /\
  (Code w = HTTPStatusNotModified ->
   Method r = HTTPMethodHEAD /\ Body w = [] /\
   sentETag w = Some (Header_Get (Header r) "ETag")).
Proof.
  intros Hm w. subst w. apply String.eqb_eq in Hm.
  destruct (String.eqb (Header_Get (Header r) "ETag") contentId) eqn:He.
  - apply String.eqb_eq in He. split; [right; left; reflexivity |].
    intros _. split; [exact Hm |]. split; [reflexivity |].
    rewrite withStatus_ETag. congruence.
  - split; [left; reflexivity |]. intros H. discriminate H.
Qed.

Lemma status_of_error (r : Request) w :
  ErrorAnswer w ->
  (Code w = HTTPStatusOk \/ Code w = HTTPStatusNotModified \/
   Code w = HTTPStatusClientError \/ Code w = HTTPStatusServerError) /\
  (Code w = HTTPStatusNotModified ->
   Method r = HTTPMethodHEAD /\ Body w = [] /\
   sentETag w = Some (Header_Get (Header r) "ETag")).
Proof. intros (_ & Hc & _). apply status_of_code. tauto. Qed.

(** X22: every handler answers with one of the status codes 200, 304, 400 and
    500, and with 304 only to a HEAD request: the answer then has no
    body, and its ETag is the one the request came with. A request with
    another method is never answered 304, whatever ETag it carries. *)
Theorem status_codes (r : Request) w :
  Produced E r w \/ w = exec (openapi E r) ->
  (Code w = HTTPStatusOk \/ Code w = HTTPStatusNotModified \/
   Code w = HTTPStatusClientError \/ Code w = HTTPStatusServerError) /\
  (Code w = HTTPStatusNotModified ->
   Method r = HTTPMethodHEAD /\ Body w = [] /\
   sentETag w = Some (Header_Get (Header r) "ETag")).
Proof.
  intros [[-> | [-> | [-> | [-> | ->]]]] | ->].
  - rewrite root_run. step.
    destruct (String.eqb (Method r) HTTPMethodHEAD) eqn:Hm; [apply status_of_head, Hm |].
    apply status_of_code. destruct (snd (encodeAs E _ _)); [right; right; reflexivity |].
    destruct (sendContent_status r "/" (contentType r) (fst (encodeAs E (contentType r)
                (EnvRoot (mkRootContent (rootLinks E r (contentType r))))))
                (withHeader NewRecorder "ETag" (snd (Root E false))) eq_refl); tauto.
  - rewrite conformance_run. step.
    destruct (String.eqb (Method r) HTTPMethodHEAD) eqn:Hm; [apply status_of_head, Hm |].
    apply status_of_code. destruct (snd (encodeAs E _ _)); [right; right; reflexivity |].
    match goal with |- context [sendContent E r ?p ?ct ?enc ?w0] =>
      destruct (sendContent_status r p ct enc w0 eq_refl); tauto end.
  - pose proof (collectionsMetaData_run E r) as Hrun. cbv zeta in Hrun.
    destruct (CollectionNames E) as [err|cNames].
    { rewrite Hrun. apply status_of_code. right; right; reflexivity. }
    destruct (String.eqb (Method r) HTTPMethodHEAD) eqn:Hm.
    { rewrite Hrun. apply status_of_head, Hm. }
    destruct Hrun as (alt & rest & cols & Halt & ->).
    apply status_of_code. destruct (snd (encodeAs E _ _)); [right; right; reflexivity |].
    match goal with |- context [sendContent E r ?p ?ct ?enc ?w0] =>
      destruct (sendContent_status r p ct enc w0 eq_refl); tauto end.
  - rewrite collectionMetaData_run. step.
    destruct (String.eqb (ByName (Params r) "name") "").
    { apply status_of_code. right; left; reflexivity. }
    destruct (CollectionNames E) as [err|cNames].
    { apply status_of_code. right; right; reflexivity. }
    destruct (negb _).
    { apply status_of_code. right; right; reflexivity. }
    destruct (String.eqb (Method r) HTTPMethodHEAD) eqn:Hm; [apply status_of_head, Hm |].
    apply status_of_code.
    destruct (snd (if String.eqb (contentType r) JSONContentType then _ else _));
      [right; right; reflexivity |].
    match goal with |- context [sendContent E r ?p ?ct ?enc ?w0] =>
      destruct (sendContent_status r p ct enc w0 eq_refl); tauto end.
  - destruct (String.eqb (ByName (Params r) "feature_id") "") eqn:Hf.
    + apply String.eqb_eq in Hf.
      destruct (items_params E r Hf)
        as [Herr | (limit & pageNum & bbox & timeprops & cfs & Hl & Hp & Hb & Ht & Hc)];
        [apply status_of_error, Herr |].
      rewrite (items_run E r limit pageNum bbox timeprops cfs Hf Hl Hp Hb Ht Hc). step.
      destruct (_ || _); [apply status_of_code; right; right; reflexivity |].
      destruct (String.eqb (Method r) HTTPMethodHEAD) eqn:Hm; [apply status_of_head, Hm |].
      apply status_of_code.
      destruct (pageLink E r _ (0 <? pageNum) _ _) as [prev|]; [| right; right; reflexivity].
      destruct (pageLink E r _ (_ <? _) _ _) as [next|]; [| right; right; reflexivity].
      match goal with |- context [respond E r ?ct ?sch ?enc ?err ?w0] =>
        destruct (respond_status r ct sch enc err w0 eq_refl); tauto end.
    + apply String.eqb_neq in Hf.
      destruct (feature_params E r Hf)
        as [Herr | (cid & limit & pageNum & bbox & timeprops & Ha & Hl & Hp & Hb & Ht)];
        [apply status_of_error, Herr |].
      rewrite (feature_run E r cid limit pageNum bbox timeprops Hf Ha Hl Hp Hb Ht). step.
      destruct (GetFeatures E _) as [err|[|pf [|pf' pfs]]].
      1: destruct err; apply status_of_code; [right; left | right; right]; reflexivity.
      1, 3: apply status_of_code; right; right; reflexivity.
      destruct (String.eqb (Method r) HTTPMethodHEAD) eqn:Hm; [apply status_of_head, Hm |].
      apply status_of_code.
      match goal with |- context [respond E r ?ct ?sch ?enc ?err ?w0] =>
        destruct (respond_status r ct sch enc err w0 eq_refl); tauto end.
  - rewrite openapi_run. step.
    destruct (negb _); [apply status_of_code; right; right; reflexivity |].
    destruct (String.eqb (Method r) HTTPMethodHEAD) eqn:Hm; [apply status_of_head, Hm |].
    apply status_of_code. left. reflexivity.
Qed.

End Status.

(** ** Panics *)

Section Panics.

Variable E : Env.

Implicit Types w : ResponseRecorder (Geometry E) (Value E).

Lemma sendContent_flow r path ct enc w msg :
  fst (sendContent E r path ct enc w) <> Panicked msg.
Proof.
  rewrite sendContent_run. step.
  destruct (if String.eqb ct JSONContentType then _ else None); discriminate.
Qed.

Lemma respond_flow r ct schema enc err w msg :
  fst (respond E r ct schema enc err w) <> Panicked msg.
Proof.
  rewrite respond_run. step.
  destruct (if String.eqb ct JSONContentType then _ else None); discriminate.
Qed.

Lemma root_flow (r : Request) : neverPanics (root E r).
Proof.
  intros w msg. unfold root, encodeAs. destruct (Root E false) as [rootContent contentId].
  step.
  destruct (contentType_cases r) as [Hct|Hct]; rewrite Hct.
  all: rewrite !ctLink_supported by reflexivity.
  all: cbn [alternatesOf String.eqb Ascii.eqb Bool.eqb JSONContentType HTMLContentType mapM map].
  all: rewrite !ctLink_supported by reflexivity.
  all: handler_steps.
  all: rewrite conditional_run.
  all: destruct (String.eqb (Method r) HTTPMethodHEAD); [discriminate |]; step.
  all: match goal with |- context [json_Marshal E ?e] => destruct (json_Marshal E e) as [enc [err|]]
                  | |- context [MarshalHTML E ?e] => destruct (MarshalHTML E e) as [enc [err|]] end.
  all: cbn [fst snd]; rewrite ?jsonError_run; try discriminate.
  all: apply sendContent_flow.
Qed.

Lemma conformance_flow (r : Request) : neverPanics (conformance E r).
Proof.
  intros w msg. unfold conformance. destruct Conformance as [c contentId].
  step.
  rewrite run_bind, conditional_run.
  destruct (String.eqb (Method r) HTTPMethodHEAD); [discriminate |]. step.
  destruct (contentType_cases r) as [Hct|Hct]; rewrite Hct.
  all: cbn [String.eqb Ascii.eqb Bool.eqb JSONContentType HTMLContentType].
  all: handler_steps.
  all: match goal with |- context [json_Marshal E ?e] => destruct (json_Marshal E e) as [enc [err|]]
                  | |- context [MarshalHTML E ?e] => destruct (MarshalHTML E e) as [enc [err|]] end.
  all: cbn [fst snd]; rewrite ?jsonError_run; try discriminate.
  all: apply sendContent_flow.
Qed.

Lemma openapi_flow (r : Request) : neverPanics (openapi E r).
Proof.
  intros w msg. unfold openapi. step.
  rewrite run_bind.
  destruct (negb (String.eqb (contentType r) JSONContentType)).
  { rewrite run_bind, jsonError_run. discriminate. }
  rewrite run_ret. destruct (OpenAPI3SchemaEncoded E _) as [doc contentId].
  rewrite run_bind, conditional_run.
  destruct (String.eqb (Method r) HTTPMethodHEAD); discriminate.
Qed.

Lemma collectionMetaData_flow (r : Request) : neverPanics (collectionMetaData E r).
Proof.
  intros w msg. unfold collectionMetaData, CollectionMetaData. step.
  rewrite run_bind.
  destruct (String.eqb (ByName (Params r) "name") "").
  { rewrite run_bind, jsonError_run. discriminate. }
  rewrite run_ret.
  destruct (CollectionNames E) as [e|cNames].
  { rewrite run_bind, run_bind, jsonError_run. discriminate. }
  destruct (negb (existsb _ cNames)).
  { rewrite run_bind, run_bind, jsonError_run. discriminate. }
  rewrite run_bind, run_ret.
  destruct (contentType_cases r) as [Hct|Hct]; rewrite Hct.
  all: cbn [String.eqb Ascii.eqb Bool.eqb JSONContentType HTMLContentType].
  all: rewrite !ctLink_supported by reflexivity.
  all: cbn [alternatesOf String.eqb Ascii.eqb Bool.eqb JSONContentType HTMLContentType mapM map].
  all: handler_steps.
  all: rewrite !ctLink_supported by reflexivity.
  all: handler_steps.
  all: rewrite conditional_run.
  all: destruct (String.eqb (Method r) HTTPMethodHEAD); [discriminate |]; step.
  all: match goal with |- context [json_Marshal E ?e] => destruct (json_Marshal E e) as [enc [err|]]
                  | |- context [MarshalHTML E ?e] => destruct (MarshalHTML E e) as [enc [err|]] end.
  all: cbn [fst snd]; rewrite ?jsonError_run; try discriminate.
  all: apply sendContent_flow.
Qed.

Lemma collectionsMetaData_flow (r : Request) : neverPanics (collectionsMetaData E r).
Proof.
  intros w msg. unfold collectionsMetaData, CollectionsMetaData. step.
  destruct (CollectionNames E) as [e|cNames].
  { rewrite run_bind, run_bind, jsonError_run. discriminate. }
  step. rewrite run_bind, run_ret, run_bind, conditional_run.
  destruct (String.eqb (Method r) HTTPMethodHEAD); [discriminate |]. step.
  rewrite run_bind, run_ret.
  destruct (collectionEntry_pure E (serveSchemeHostPortBase E r +:+ "/collections")
              (contentType r) (contentType_supported r)) as [g Hg].
  rewrite (other_types (contentType r) (contentType_supported r)).
  rewrite (mapM_ret _ g _ Hg).
  destruct (contentType_cases r) as [Hct|Hct]; rewrite Hct.
  all: cbn [alternatesOf String.eqb Ascii.eqb Bool.eqb JSONContentType HTMLContentType mapM map].
  all: rewrite !ctLink_supported by reflexivity.
  all: handler_steps.
  all: match goal with |- context [json_Marshal E ?e] => destruct (json_Marshal E e) as [enc [err|]]
                  | |- context [MarshalHTML E ?e] => destruct (MarshalHTML E e) as [enc [err|]] end.
  all: cbn [fst snd]; rewrite ?jsonError_run; try discriminate.
  all: apply sendContent_flow.
Qed.

Lemma collectionData_flow (r : Request) : neverPanics (collectionData E r).
Proof.
  intros w msg. unfold collectionData.
  rewrite run_bind, featureIdParam_run.
  set (fidStr := ByName (Params r) "feature_id").
  set (cName := ByName (Params r) "name").
  assert (Hrest : forall fid w1,
    fst (('(limit, pageNum, bbox, properties) ← queryParams E (url.Query (URL r));
         '(data, featureTotal, contentId, jsonSchema) ←
           fetchData E cName fidStr fid limit pageNum bbox properties;
         conditional E r contentId;;
         '(encodedContent, err) ←
           match data with
           | Some (EnvFeature d) => featureContent E r (contentType r) cName fid d
           | Some (EnvFeatureCollection d) =>
               featureCollectionContent E r (contentType r) cName pageNum limit featureTotal d
           | _ =>
               jsonError "NoApplicableCode" "Unexpected feature data type: <nil>, <nil>"
                 HTTPStatusServerError;;
               return_
           end;
         respond E r (contentType r) jsonSchema encodedContent err) w1) <> Panicked msg).
  { intros fid w1. rewrite run_bind, queryParams_run.
    destruct (limitParam E _); [discriminate |].
    destruct (pageParam _); [discriminate |].
    destruct (bboxParam E _); [discriminate |].
    destruct (timeParam _); [discriminate |].
    step. rewrite run_bind.
    destruct (String.eqb fidStr "") eqn:Hf.
    - apply String.eqb_eq in Hf. rewrite Hf, fetchData_items_run.
      destruct (CollectionFeatures E _ _ _) as [e|cfs]; [discriminate |]. step.
      destruct (_ || _); [discriminate |]. step.
      rewrite run_bind, conditional_run.
      destruct (String.eqb (Method r) HTTPMethodHEAD); [discriminate |]. step.
      rewrite run_bind, featureCollectionContent_run by apply contentType_supported.
      destruct (pageLink E r cName (0 <? _) _ _) as [prev|]; [| discriminate].
      destruct (pageLink E r cName (_ <? _) _ _) as [next|]; [| discriminate].
      step. destruct (encodeAs E _ _) as [enc err]. apply respond_flow.
    - rewrite fetchData_feature_run by exact Hf.
      destruct (GetFeatures E _) as [e|[|pf [|pf' pfs]]]; try discriminate.
      step. rewrite run_bind, conditional_run.
      destruct (String.eqb (Method r) HTTPMethodHEAD); [discriminate |]. step.
      rewrite run_bind, featureContent_run by apply contentType_supported.
      step. destruct (encodeAs E _ _) as [enc err]. apply respond_flow. }
  destruct (String.eqb fidStr ""); step; apply Hrest.
Qed.

(** X23: no request makes a handler panic: the links are made for supported
    content types only, the metadata of a collection is read only when
    the builder gave it, and every parameter of a parsed query has a
    first value for the loop of the property filters to read. *)
Theorem handlers_never_panic (r : Request) :
  neverPanics (root E r) /\ neverPanics (conformance E r) /\ neverPanics (openapi E r) /\
  neverPanics (collectionsMetaData E r) /\ neverPanics (collectionMetaData E r) /\
  neverPanics (collectionData E r) /\
  map_Forall (fun _ vs => vs <> []) (url.Query (URL r)).
Proof.
  split; [apply root_flow |]. split; [apply conformance_flow |].
  split; [apply openapi_flow |]. split; [apply collectionsMetaData_flow |].
  split; [apply collectionMetaData_flow |]. split; [apply collectionData_flow |].
  intros k vs. apply Query_values.
Qed.

End Panics.

(** ** An encoder that fails *)

Section Marshalling.

Variable E : Env.

Implicit Types w : ResponseRecorder (Geometry E) (Value E).

Lemma respond_marshal r ct schema enc err contentId msg rest :
  let w := snd (respond E r ct schema enc err (withHeader NewRecorder "ETag" contentId)) in
  (forall c m, enc <> ErrorJSON c m) ->
  Body w = ErrorJSON "oApplicableCode" msg :: rest ->
  Code w = HTTPStatusServerError /\
  sentHeader w = <["ETag" := contentId]> ∅ /\
  (exists e, err = Some e /\ msg = "Problem marshalling feature data: " +:+ Error e) /\
  exists second, rest = [second].
Proof.
  intros w Henc. subst w. rewrite respond_run. step.
  destruct err as [e|].
  - destruct (if String.eqb ct JSONContentType then _ else None); cbn [snd].
    all: intros [= <- <-].
    all: split; [reflexivity |]; split; [reflexivity |]; split; eauto.
  - destruct (if String.eqb ct JSONContentType then _ else None); cbn [snd].
    + intros H. discriminate H.
    + destruct (overrideContent r); intros H; [discriminate H |].
      cbn in H. injection H as H _. exfalso. exact (Henc _ _ H).
Qed.

(** X24: the body of [collectionData] starts with the report of an encoding
    error only when the encoder failed, and the handler does not stop at
    that error: exactly one more part follows it in the body, the status
    is 500, and the header that went out has the ETag of the resource
    and no Content-Type. *)
Theorem marshal_failure_goes_on (r : Request) msg rest :
  let w := exec (collectionData E r) in
  Body w = ErrorJSON "oApplicableCode" msg :: rest ->
  Code w = HTTPStatusServerError /\
  sentHeader w = <["ETag" := resourceId r]> ∅ /\
  (exists e, msg = "Problem marshalling feature data: " +:+ Error e) /\
  exists second, rest = [second].
Proof.
  intros w. subst w.
  set (fidStr := ByName (Params r) "feature_id").
  assert (Hfid : fidStr = "" \/ fidStr <> "").
  { destruct (String.eqb_spec fidStr ""); auto. }
  destruct (parameterError E (url.Query (URL r))) as [e|] eqn:Hpe.
  { (* the first error is one of the parameters, or the feature id *)
    destruct Hfid as [Hf|Hf].
    - rewrite (parameter_error_run E r e (or_introl Hf) Hpe). intros [= Hc _ _].
      destruct (parameterError_codes E _ _ Hpe) as [H|H]; rewrite H in Hc; discriminate Hc.
    - destruct (snd (strconv.Atoi fidStr)) as [aerr|] eqn:Ha.
      + destruct (feature_id_error_continues E r Hf) as (_ & _ & _ & rest' & Hb).
        { fold fidStr. rewrite Ha. discriminate. }
        rewrite Hb. intros H. discriminate H.
      + rewrite (parameter_error_run E r e (or_intror Ha) Hpe). intros [= Hc _ _].
        destruct (parameterError_codes E _ _ Hpe) as [H|H]; rewrite H in Hc; discriminate Hc. }
  destruct (parameterError_None E _ Hpe) as (limit & pageNum & bbox & timeprops & Hl & Hp & Hb & Ht).
  unfold resourceId. fold fidStr.
  destruct Hfid as [Hf|Hf].
  - rewrite Hf. cbn [String.eqb].
    destruct (CollectionFeatures E (ByName (Params r) "name")
                (propertyFilters (url.Query (URL r)) timeprops) bbox) as [perr|cfs] eqn:Hc.
    { unfold exec, collectionData. fold fidStr.
      rewrite run_bind, featureIdParam_run, Hf. cbn [String.eqb]. step.
      rewrite run_bind, queryParams_run, Hl, Hp, Hb, Ht. step.
      rewrite run_bind, fetchData_items_run, Hc. step. cbn [snd].
      destruct perr; intros H; discriminate H. }
    rewrite (items_run E r limit pageNum bbox timeprops cfs Hf Hl Hp Hb Ht Hc). step.
    destruct (_ || _); [intros H; discriminate H |].
    destruct (String.eqb (Method r) HTTPMethodHEAD); [intros H; discriminate H |].
    destruct (pageLink E r _ (0 <? pageNum) _ _) as [prev|]; [| intros H; discriminate H].
    destruct (pageLink E r _ (_ <? _) _ _) as [next|]; [| intros H; discriminate H].
    intros H. apply respond_marshal in H; [| intros c m; apply encodeAs_not_error].
    destruct H as (Hcode & Hhdr & (e & _ & He) & Hrest). eauto 6.
  - pose proof Hf as Hf'. apply String.eqb_neq in Hf'. rewrite Hf'.
    destruct (strconv.Atoi fidStr) as [cid [aerr|]] eqn:Ha.
    { destruct (feature_id_error_continues E r Hf) as (_ & _ & _ & rest' & Hbody).
      { fold fidStr. rewrite Ha. discriminate. }
      rewrite Hbody. intros H. discriminate H. }
    rewrite (feature_run E r cid limit pageNum bbox timeprops Hf Ha Hl Hp Hb Ht). step.
    cbn [fst].
    destruct (GetFeatures E _) as [err|[|pf [|pf' pfs]]].
    1: destruct err; intros H; discriminate H.
    1, 3: intros H; discriminate H.
    destruct (String.eqb (Method r) HTTPMethodHEAD); [intros H; discriminate H |].
    intros H. apply respond_marshal in H; [| intros c m; apply encodeAs_not_error].
    destruct H as (Hcode & Hhdr & (e & _ & He) & Hrest). eauto 6.
Qed.

End Marshalling.

(** ** A page size of zero *)

Section ZeroLimit.

Variable E : Env.

(** X25: with a limit of zero every page of a collection that has features
    is in range, whatever its number: the request gets past the window
    check to the ETag, and a feature collection that goes out holds no
    feature and a link to a next page. *)
Theorem limit_zero_pages (r : Request) pageNum bbox timeprops cfs :
  let q := url.Query (URL r) in
  let cName := ByName (Params r) "name" in
  let w := exec (collectionData E r) in
  ByName (Params r) "feature_id" = "" ->
  limitParam E q = inr 0 ->
  pageParam q = inr pageNum ->
  bboxParam E q = inr bbox ->
  timeParam q = inr timeprops ->
  CollectionFeatures E cName (propertyFilters q timeprops) bbox = inr cfs ->
  (0 < length cfs)%nat ->
  Z.of_nat (length cfs) <= Uint.max_int ->
  sentETag w = Some (contentIdOf cName) /\
  forall d, Carries w (EnvFeatureCollection d) ->
            Features d = [] /\ NumberReturned d = 0 /\
            NumberMatched d = Z.of_nat (length cfs) /\
            hasRel "next" (FeatureCollection_Links d) = true.
Proof.
  intros q cName w Hf Hl Hp Hb Ht Hc Hpos Hlen. subst w.
  pose proof (wrap_length cfs Hlen) as Hw.
  assert (Hstart : Uint.mul 0 pageNum = 0) by apply mul_zero_l.
  assert (Hnext : Uint.mul 0 (Uint.add pageNum 1) = 0) by apply mul_zero_l.
  assert (Hstop : Uint.add 0 0 = 0) by (apply add_small; unfold Uint.modulus; lia).
  split.
  - rewrite (items_run E r 0 pageNum bbox timeprops cfs Hf Hl Hp Hb Ht Hc). step.
    fold cName. rewrite Hw, Hstart, Hstop.
    assert (Hin : (Z.of_nat (length cfs) <=? 0) || (Z.min 0 (Z.of_nat (length cfs)) <? 0) = false).
    { apply orb_false_iff. split; [apply Z.leb_gt | apply Z.ltb_ge]; lia. }
    rewrite Hin.
    destruct (String.eqb (Method r) HTTPMethodHEAD); [apply withStatus_ETag |].
    destruct (pageLink E r _ (0 <? pageNum) _ _) as [prev|]; [| apply withError_ETag].
    destruct (pageLink E r _ (_ <? _) _ _) as [next|]; [| apply withError_ETag].
    apply respond_sentETag; [reflexivity | apply lookup_insert_eq].
  - intros d HC.
    destruct (items_carried E r 0 pageNum bbox timeprops cfs _ Hf Hl Hp Hb Ht Hc HC)
      as (prev & next & Hprev & Hnx & Hd).
    injection Hd as ->. fold cName in Hnx. rewrite Hw, Hnext in Hnx.
    apply pageLink_wanted in Hnx.
    cbn [Features NumberReturned NumberMatched FeatureCollection_Links].
    rewrite Hstart, Hstop, Hw.
    assert (Hslice : slice cfs 0 (Z.min 0 (Z.of_nat (length cfs))) = []).
    { rewrite Z.min_l by lia. apply length_zero_iff_nil, Nat2Z.inj.
      rewrite slice_length by lia. reflexivity. }
    rewrite Hslice. cbn [map length].
    split; [reflexivity |]. split; [reflexivity |]. split; [reflexivity |].
    rewrite hasRel_hrefOf, itemsLinks_next by apply contentType_supported.
    rewrite Hnx.
    assert (Hlt : (0 <? Z.of_nat (length cfs)) = true) by (apply Z.ltb_lt; lia).
    rewrite Hlt. reflexivity.
Qed.

End ZeroLimit.

(** ** The handler tests *)

(** The fingerprints the handler tests expect. *)
Example test_fingerprints :
  contentIdOf "aviation_polygons" = "953ff7048ec325ce" /\
  contentIdOf ("roads_lines" +:+ Str.decimal 18) = "355e6572aaf34629" /\
  contentIdOf ("http://testthis.com" +:+ "roads_lines") = "a3020c6917d284ef" /\
  snd Conformance = "4385e7a21a681d7d".
Proof. vm_compute. auto. Qed.

(** The second page of three features, as [TestCollectionFeatures] has
    it: the links, and three of eight features. *)
Example test_page1 :
  exists d,
    Carries (exec (collectionData Fixture.env Fixture.get_page1)) (EnvFeatureCollection d) /\
    map (fun l => (Rel l, Href l)) (FeatureCollection_Links d) =
      [("self", "http://test.com/collections/aviation_polygons/items?limit=3&page=1");
       ("alternate",
        "http://test.com/collections/aviation_polygons/items?f=text%2Fhtml&limit=3&page=1");
       ("prev", "http://test.com/collections/aviation_polygons/items?limit=3&page=0");
       ("next", "http://test.com/collections/aviation_polygons/items?limit=3&page=2")] /\
    map ID (Features d) = [4; 5; 6] /\
    NumberMatched d = 8 /\ NumberReturned d = 3.
Proof. eexists. split; [left; vm_compute; reflexivity |]. vm_compute. repeat split. Qed.

(** The second page of three carries a feature collection. *)
Lemma page1_carried :
  exists d, Carries (exec (collectionData Fixture.env Fixture.get_page1)) (EnvFeatureCollection d).
Proof. eexists. left. vm_compute. reflexivity. Qed.




(** C3 as the specification words it does not hold: page 0 of a filter that
    matches nothing is the out-of-range error, for the window [[0, 10]]
    and the length 0, while the test of the specification lets the
    request pass. *)
Lemma empty_page_zero_fails :
  let r := Fixture.get_nothing in
  let w := exec (collectionData Fixture.env r) in
  pageParam (url.Query (URL r)) = inr 0 /\
  CollectionFeatures Fixture.env "aviation_polygons"
    (propertyFilters (url.Query (URL r)) ∅) None = inr [] /\
  outOfRange_as_specified 0 10 0 = false /\
  Code w = HTTPStatusServerError /\
  Body w = [ErrorJSON "InvalidParameterValue" (outOfRangeMessage 0 10 0)].
Proof. vm_compute. auto 6. Qed.

(** C3 as amended, on the same request. *)
Lemma items_out_of_range_witness :
  let w := exec (collectionData Fixture.env Fixture.get_nothing) in
  Code w = HTTPStatusServerError /\
  Body w = [ErrorJSON "InvalidParameterValue" (outOfRangeMessage 0 10 0)].
Proof.
  apply (items_out_of_range Fixture.env Fixture.get_nothing 10 0 None ∅ []).
  all: try (vm_compute; reflexivity).
  - vm_compute. discriminate.
  - left. vm_compute. discriminate.
Defined.

(** C4 as the specification words it does not hold: HEAD with the current
    ETag is answered with status 304, not 200. *)
Lemma head_match_is_304 :
  let r := Fixture.head_items_match in
  let w := exec (collectionData Fixture.env r) in
  Method r = HTTPMethodHEAD /\
  sentETag w = Some (Header_Get (Header r) "ETag") /\
  Body w = [] /\
  Code w = 304 /\ Code w <> HTTPStatusOk.
Proof. vm_compute. repeat split; discriminate. Qed.

(** C4 as amended, on the same request: the ETag, no body, status 304. *)
Lemma head_answers_witness :
  let r := Fixture.head_items_match in
  let w := exec (collectionData Fixture.env r) in
  Method r = HTTPMethodHEAD /\
  HeadAnswer r "953ff7048ec325ce" w /\
  Code w = HTTPStatusNotModified.
Proof.
  split; [reflexivity |].
  assert (HA : HeadAnswer Fixture.head_items_match (contentIdOf "aviation_polygons")
                 (exec (collectionData Fixture.env Fixture.head_items_match))).
  { apply (head_answers Fixture.env Fixture.head_items_match eq_refl)
      with (limit := 10) (pageNum := 0) (bbox := None) (timeprops := ∅)
           (cfs := Fixture.aviation_polygons).
    all: vm_compute; reflexivity. }
  assert (Hid : contentIdOf "aviation_polygons" = "953ff7048ec325ce") by (vm_compute; reflexivity).
  rewrite Hid in HA. split; [exact HA |].
  destruct HA as (_ & _ & ->). vm_compute. reflexivity.
Defined.

(** C5 as the specification words it does not hold: with [f=image/png] and
    the Content-Type header [text/html] the negotiated type is JSON, not
    the type of the header. *)
Lemma unsupported_f_hides_header :
  let r := Fixture.html_header_bad_f in
  Header_Get (Header r) "Content-Type" = HTMLContentType /\
  url.get (url.Query (URL r)) "f" = ["image/png"] /\
  contentType r = JSONContentType /\
  contentType_as_specified r = HTMLContentType.
Proof. vm_compute. auto. Qed.



(** C7 on two requests that differ in the bounding box. *)
Lemma fingerprint_decisive_inputs_witness :
  sentETag (exec (collectionData Fixture.env Fixture.get_page1)) = Some "953ff7048ec325ce" /\
  sentETag (exec (collectionData Fixture.env Fixture.get_bbox)) = Some "953ff7048ec325ce" /\
  "953ff7048ec325ce" = contentIdOf "aviation_polygons".
Proof.
  assert (H1 : sentETag (exec (collectionData Fixture.env Fixture.get_page1))
               = Some "953ff7048ec325ce") by (vm_compute; reflexivity).
  assert (H2 : sentETag (exec (collectionData Fixture.env Fixture.get_bbox))
               = Some "953ff7048ec325ce") by (vm_compute; reflexivity).
  split; [exact H1 |]. split; [exact H2 |].
  refine (proj1 (proj2 (fingerprint_decisive_inputs Fixture.env Fixture.env
                          Fixture.get_page1 Fixture.get_bbox _ _ _ _ _ H1 H2))).
  all: vm_compute; reflexivity.
Defined.

(** C8: the code at the failing input. A feature negotiated as HTML
    has its links in the order of the supported content types, the
    alternate first and the self link second. The same feature
    negotiated as JSON has the self link first, and so have the items of
    a collection negotiated as HTML, which the other branch of the same
    switch builds. *)
Theorem html_feature_alternate_first :
  (exists f,
      Carries (exec (collectionData Fixture.env Fixture.get_feature_html)) (EnvFeature f) /\
      contentType Fixture.get_feature_html = HTMLContentType /\
      map (fun l => (Rel l, Type_ l)) (Feature_Links f)
      = [("alternate", JSONContentType); ("self", HTMLContentType);
         ("collection", HTMLContentType)] /\
      head (rels (Feature_Links f)) <> Some "self") /\
  (exists f,
      Carries (exec (collectionData Fixture.env Fixture.get_feature)) (EnvFeature f) /\
      contentType Fixture.get_feature = JSONContentType /\
      map (fun l => (Rel l, Type_ l)) (Feature_Links f)
      = [("self", JSONContentType); ("alternate", HTMLContentType);
         ("collection", JSONContentType)]) /\
  (exists d,
      Carries (exec (collectionData Fixture.env (Fixture.items "GET" "f=text/html")))
        (EnvFeatureCollection d) /\
      contentType (Fixture.items "GET" "f=text/html") = HTMLContentType /\
      map (fun l => (Rel l, Type_ l)) (FeatureCollection_Links d)
      = [("self", HTMLContentType); ("alternate", JSONContentType)]).
Proof.
  split; [| split].
  - eexists. split; [right; vm_compute; reflexivity |].
    vm_compute. repeat split. discriminate.
  - eexists. split; [left; vm_compute; reflexivity |].
    vm_compute. repeat split.
  - eexists. split; [right; vm_compute; reflexivity |].
    vm_compute. repeat split.
Qed.

(** C9 as the specification words it does not hold: without a name the
    status is 400. *)
Lemma missing_name_is_400 :
  let r := Fixture.collection_no_name in
  let w := exec (collectionMetaData Fixture.env r) in
  ByName (Params r) "name" = "" /\
  Code w = 400 /\ ~ (500 <= Code w < 600).
Proof. vm_compute. split; [reflexivity |]. split; [reflexivity |]. intros [H _]. apply H. reflexivity. Qed.

(** C9 as amended: no name, and a name that no collection has. *)
Lemma collection_name_errors_witness :
  Code (exec (collectionMetaData Fixture.env Fixture.collection_no_name)) = HTTPStatusClientError /\
  Code (exec (collectionMetaData Fixture.env Fixture.collection_unknown)) = HTTPStatusServerError.
Proof.
  split.
  - apply (proj1 (collection_name_errors Fixture.env Fixture.collection_no_name)). reflexivity.
  - apply (proj2 (collection_name_errors Fixture.env Fixture.collection_unknown)
             ["aviation_polygons"; "roads_lines"]).
    + vm_compute. discriminate.
    + reflexivity.
    + vm_compute. intros H. inversion H as [|? ? ? H']; subst. inversion H' as [|? ? ? H'']; subst.
      inversion H''.
Defined.

(** C10 on [limit=3&limit=oops&page=0], against the request [page=0]. *)
Lemma repeated_limit_page_default_witness :
  let r := Fixture.get_limits in
  let u := url.mkURL "http://test.com" false "page=0" "" in
  url.get (url.Query (URL r)) "limit" = ["3"; "oops"] /\
  limitParam Fixture.env (url.Query (URL r)) = inr 10 /\
  exec (collectionData Fixture.env r) = exec (collectionData Fixture.env (withURL r u)).
Proof.
  split; [vm_compute; reflexivity |].
  apply (repeated_limit_page_default Fixture.env Fixture.get_limits
           (url.mkURL "http://test.com" false "page=0" "") "limit").
  - left. reflexivity.
  - vm_compute. lia.
  - vm_compute. reflexivity.
  - reflexivity.
Defined.

(** ** The further properties on the test data *)

(** The property filters of the request for helipads: the limit is none
    of them, the [aeroway] is. *)
Lemma property_filters_witness :
  let q := url.Query (URL Fixture.get_helipad) in
  propertyFilters q ∅ !! "limit" = None /\
  propertyFilters q ∅ !! "aeroway" = Some "helipad".
Proof.
  destruct (property_filters (url.Query (URL Fixture.get_helipad)) ∅)
    as (Hres & _ & Hother).
  { vm_compute. reflexivity. }
  split.
  - apply Hres. apply list_elem_of_In. cbn. auto.
  - rewrite Hother.
    + vm_compute. reflexivity.
    + intros H. apply list_elem_of_In in H. cbn in H.
      repeat (destruct H as [H|H]; [discriminate H |]). exact H.
    + reflexivity.
Defined.

(** The eight features of [aviation_polygons] in three pages of three. *)
Lemma pages_partition_witness :
  concat (map (fun p => pageFeatures Fixture.env "aviation_polygons" None ∅ 3 (Z.of_nat p))
            (seq 0 3))
  = map (toGeoJSON Fixture.env) Fixture.aviation_polygons.
Proof.
  apply (pages_partition Fixture.env "aviation_polygons" None ∅ 3 Fixture.aviation_polygons).
  - vm_compute. reflexivity.
  - split; [vm_compute; discriminate | vm_compute; reflexivity].
  - reflexivity.
  - vm_compute. discriminate.
Defined.

(** The list of the two collections of the test data. *)
Lemma CollectionsMetaData_listing_witness :
  exists c,
    CollectionsMetaData Fixture.env "http://test.com" false
    = (Some c, contentIdOf "http://test.com", None) /\
    map Name (Collections c) = ["aviation_polygons"; "roads_lines"].
Proof.
  destruct (CollectionsMetaData_listing Fixture.env "http://test.com"
              ["aviation_polygons"; "roads_lines"] eq_refl) as (c & Hc & Hnames & _).
  exists c. split; [exact Hc | exact Hnames].
Defined.

(** [roads_lines] is listed, and found. *)
Lemma collection_listed_iff_found_witness :
  exists ci,
    fst (fst (CollectionMetaData Fixture.env "roads_lines" "http://test.com" false)) = Some ci.
Proof.
  apply (proj1 (collection_listed_iff_found Fixture.env "http://test.com"
                  ["aviation_polygons"; "roads_lines"] "roads_lines" eq_refl)).
  apply list_elem_of_In. cbn. auto.
Defined.

(** The HTML link of the base address, requested, negotiates HTML. *)
Lemma ctLink_negotiates_witness :
  contentType (Fixture.request "GET" [] [] "f=text%2Fhtml") = HTMLContentType.
Proof.
  destruct (ctLink_negotiates Fixture.env "http://test.com" HTMLContentType
              (url.mkURL "http://test.com" false "" "")
              (Fixture.request "GET" [] [] "f=text%2Fhtml") NewRecorder)
    as (href & Hrun & Hct).
  - reflexivity.
  - intros H. discriminate H.
  - vm_compute. reflexivity.
  - vm_compute. reflexivity.
  - vm_compute. reflexivity.
  - apply Hct. vm_compute in Hrun. injection Hrun as <-. vm_compute. reflexivity.
Defined.



(** The header of the second page of three. *)
Lemma success_headers_witness :
  let w := exec (collectionData Fixture.env Fixture.get_page1) in
  Code w = HTTPStatusOk /\
  exists contentId,
    sentHeader w = <["Content-Type" := JSONContentType]> (<["ETag" := contentId]> ∅).
Proof.
  destruct page1_carried as [d Hd].
  apply (success_headers Fixture.env Fixture.get_page1 _ (EnvFeatureCollection d)).
  - right. right. right. right. reflexivity.
  - exact Hd.
Defined.

(** The second page of three was checked as a feature collection. *)
Lemma sent_json_is_checked_witness :
  exists d,
    Carries (exec (collectionData Fixture.env Fixture.get_page1)) (EnvFeatureCollection d) /\
    ValidateJSONResponseAgainstJSONSchema Fixture.env (JSONOf (EnvFeatureCollection d))
      FeatureCollectionJSONSchema = None.
Proof.
  destruct page1_carried as [d Hd]. exists d. split; [exact Hd |].
  apply (sent_json_is_checked Fixture.env Fixture.get_page1 (EnvFeatureCollection d)).
  - vm_compute. reflexivity.
  - exact Hd.
Defined.

(** The feature [abc] of [roads_lines]: the report of the id comes first,
    and the handler goes on to look for feature 0. *)
Lemma bad_feature_id_witness :
  let w := exec (collectionData Fixture.env Faults.get_feature_abc) in
  Code w = HTTPStatusClientError /\
  sentHeader w = ∅ /\
  exists rest,
    Body w = ErrorJSON "InvalidParameterValue" "Invalid feature_id: abc" :: rest.
Proof.
  apply (bad_feature_id Fixture.env Faults.get_feature_abc).
  - vm_compute. discriminate.
  - vm_compute. discriminate.
Defined.

(** The ETag of feature 18 of [roads_lines]. *)
Lemma collectionData_etag_witness :
  "355e6572aaf34629" = resourceId Fixture.get_feature.
Proof.
  apply (collectionData_etag Fixture.env Fixture.get_feature). vm_compute. reflexivity.
Defined.

(** Feature 19 of [roads_lines] is none. *)
Lemma unknown_feature_witness :
  let w := exec (collectionData Fixture.env Faults.get_feature_19) in
  Code w = HTTPStatusServerError /\
  sentHeader w = ∅ /\
  Body w = [ErrorJSON "InvalidParameterValue"
              ("Problem collecting feature data: Invalid collection/fid: " +:+ "roads_lines"
               +:+ "/" +:+ Str.decimal (Uint.wrap 19))].
Proof.
  apply (unknown_feature Fixture.env Faults.get_feature_19 19 10 0 None ∅ []).
  all: try (vm_compute; reflexivity).
  - vm_compute. discriminate.
  - cbn. discriminate.
Defined.

(** A bounding box of three items. *)
Lemma parameter_errors_witness :
  let w := exec (collectionData Fixture.env Faults.get_short_bbox) in
  Code w = HTTPStatusClientError /\
  sentHeader w = ∅ /\
  Body w = [ErrorJSON "InvalidParameterValue"
              "'bbox' parameter has 3 items, expecting 4: '1,2,3'"].
Proof.
  apply (parameter_errors Fixture.env Faults.get_short_bbox
           (mkHandlerError "InvalidParameterValue"
              "'bbox' parameter has 3 items, expecting 4: '1,2,3'")).
  - left. reflexivity.
  - vm_compute. reflexivity.
Defined.

(** HEAD with the current ETag is answered 304, and only HEAD is. *)
Lemma status_codes_witness :
  let r := Fixture.head_items_match in
  let w := exec (collectionData Fixture.env r) in
  Method r = HTTPMethodHEAD /\ Body w = [] /\
  sentETag w = Some (Header_Get (Header r) "ETag").
Proof.
  apply (status_codes Fixture.env Fixture.head_items_match).
  - left. right. right. right. right. reflexivity.
  - vm_compute. reflexivity.
Defined.

(** The second page of three when the encoder fails: status 500 and the
    ETag, and no Content-Type. *)
Lemma marshal_failure_goes_on_witness :
  let w := exec (collectionData Faults.no_encoder Fixture.get_page1) in
  Code w = HTTPStatusServerError /\
  sentHeader w = <["ETag" := resourceId Fixture.get_page1]> ∅ /\
  length (Body w) = 2%nat.
Proof.
  assert (Hbody : exists msg rest,
             Body (exec (collectionData Faults.no_encoder Fixture.get_page1))
             = ErrorJSON "oApplicableCode" msg :: rest).
  { eexists. eexists. vm_compute. reflexivity. }
  destruct Hbody as (msg & rest & Hbody).
  destruct (marshal_failure_goes_on Faults.no_encoder Fixture.get_page1 msg rest Hbody)
    as (Hcode & Hhdr & _ & second & ->).
  split; [exact Hcode |]. split; [exact Hhdr |]. cbv zeta. rewrite Hbody. reflexivity.
Defined.

(** Page 7 with a limit of zero. *)
Lemma limit_zero_pages_witness :
  sentETag (exec (collectionData Fixture.env Faults.get_limit_zero))
  = Some (contentIdOf "aviation_polygons").
Proof.
  apply (limit_zero_pages Fixture.env Faults.get_limit_zero 7 None ∅ Fixture.aviation_polygons).
  all: try (vm_compute; reflexivity).
  - cbn. lia.
  - vm_compute. discriminate.
Defined.

(** The summary of the three features of the sample provider, whose
    [FilterFeatures] reports an error as well. *)
Lemma filtered_features_summary_witness :
  let w : ResponseRecorder unit string := exec (filteredFeatures Samples.provider Samples.get_filtered) in
  Code w = HTTPStatusOk /\ sentHeader w = ∅ /\ Body w = [RawBytes "tempcol_3:3"].
Proof.
  apply (filtered_features_summary Samples.provider Samples.get_filtered "[1,2,3,4]").
  - intros _. reflexivity.
  - vm_compute. reflexivity.
  - reflexivity.
  - reflexivity.
Defined.

(** The second page of three with the limit set to five. *)
Lemma addQueryParams_sets_witness :
  exists req',
    addQueryParams Fixture.get_page1 {[ "limit" := "5" ]} = Some req' /\
    url.get (url.Query (URL req')) "limit" = ["5"] /\
    url.get (url.Query (URL req')) "page" = ["1"].
Proof.
  assert (Hreq : exists req', addQueryParams Fixture.get_page1 {[ "limit" := "5" ]} = Some req').
  { eexists. vm_compute. reflexivity. }
  destruct Hreq as [req' Hreq]. exists req'. split; [exact Hreq |].
  destruct (addQueryParams_sets Fixture.get_page1 req' {[ "limit" := "5" ]} Hreq)
    as (Hset & Hkeep & _).
  split.
  - apply Hset. reflexivity.
  - rewrite Hkeep by reflexivity. vm_compute. reflexivity.
Defined.
